(** * Nimbus payment orchestrator

    A shallow embedding of the routing and retry engine
    (internal/orchestrator/orchestrator.go), the processor health monitor
    (internal/health/monitor.go), the domain types (internal/model), the
    configuration constants (internal/config/config.go), the mock
    processors (internal/processor) and the HTTP handlers
    (internal/handler), followed by the properties established about them.

    Conventions.
    - Go [int], [time.Time] and [time.Duration] are integers in [Z]
      (instants and durations in nanoseconds).  Counters are bounded by the
      length of a slice, so no wrap-around can occur on them.
    - Go [float64] is Rocq's primitive binary64 [float]; every arithmetic
      operation and comparison on scores is the IEEE 754 one.
    - Go string types ([ResponseCode]) are [string]; closed sets of
      constants that the code only ever produces itself are inductive types.
    - A map is a [gmap]; a missing key reads as the zero value, as in Go.
    - A method that writes through its pointer receiver is a function
      from the receiver's state to the new state; the read methods of the
      monitor hand the monitor back as well, next to their result.
    - Everything outside the program (the wall clock, the state and
      randomness of the downstream processors) lives in an abstract
      [World]; [timeNow] is [time.Now()].
    - Logging ([slog]) has no effect on any value and is left out. *)

From Stdlib Require Import ZArith Lia Bool List Sorted DecimalString.
From Stdlib Require Import Floats.PrimFloat Floats.SpecFloat Floats.FloatOps.
From Stdlib Require Import Floats.FloatAxioms.
From Stdlib Require Import Uint63.
From stdpp Require Import gmap strings list.

#[local] Open Scope string_scope.
#[local] Open Scope list_scope.
#[local] Open Scope Z_scope.

(** ** Go primitives *)

Definition Time := Z.
Definition Duration := Z.

Definition Millisecond : Duration := 1000000.
Definition Second : Duration := 1000 * Millisecond.
Definition Minute : Duration := 60 * Second.

(** [t.After(u)] *)
Definition Time_After (t u : Time) : bool := u <? t.

(** [t.Add(d)] *)
Definition Time_Add (t : Time) (d : Duration) : Time := t + d.

(** [float64(n)] for an [int] [n]. *)
Definition float64_of_int (n : Z) : float :=
  if 0 <=? n then PrimFloat.of_uint63 (Uint63.of_Z n)
  else PrimFloat.opp (PrimFloat.of_uint63 (Uint63.of_Z (- n))).

(** [len(l)] *)
Definition len {A} (l : list A) : Z := Z.of_nat (length l).

(** ** internal/config/config.go *)

Module Config.
Definition MaxRetries : Z := 3.
Definition HealthWindowSize : Z := 50.
Definition HealthWindowDurationMinutes : Z := 10.
Definition DegradedThreshold : float := 0.5%float.
(** The untyped constant [0.2] converted to [float64]. *)
Definition CircuitBreakerThreshold : float := 0x1.999999999999ap-3%float.
Definition ServerPort : string := ":8080".
End Config.

(** ** internal/model *)

Module PaymentRequest.
Record t := mk {
  TransactionID : string;
  Amount : float;
  Currency : string;
  PaymentMethod : string;
  CustomerID : string
}.
End PaymentRequest.

Definition ResponseCode := string.

Definition Approved : ResponseCode := "approved".
Definition SoftDecline : ResponseCode := "soft_decline".
Definition DeclinedInsufficientFunds : ResponseCode := "declined_insufficient_funds".
Definition DeclinedFraud : ResponseCode := "declined_fraud".
Definition ProcessorError : ResponseCode := "processor_error".
Definition Timeout : ResponseCode := "timeout".
Definition RateLimited : ResponseCode := "rate_limited".

Definition IsRetriable (rc : ResponseCode) : bool :=
  String.eqb rc SoftDecline || String.eqb rc ProcessorError
  || String.eqb rc Timeout || String.eqb rc RateLimited.

Definition IsHardDecline (rc : ResponseCode) : bool :=
  String.eqb rc DeclinedInsufficientFunds || String.eqb rc DeclinedFraud.

Module ProcessorResponse.
Record t := mk {
  ProcessorName : string;
  Code : ResponseCode;
  Message : string;
  Timestamp : Time;
  Latency : Duration
}.
End ProcessorResponse.

Module Attempt.
Record t := mk {
  ProcessorName : string;
  Response : ProcessorResponse.t;
  RoutingReason : string;
  AttemptNumber : Z;
  Timestamp : Time
}.
End Attempt.

(** [PaymentStatus] is a string type in Go; [StatusUnset] is its zero value
    (the empty string), which a freshly built [PaymentResult] carries. *)
Inductive PaymentStatus :=
| StatusUnset
| StatusApproved
| StatusDeclined
| StatusExhaustedRetries.

Module PaymentResult.
Record t := mk {
  TransactionID : string;
  Status : PaymentStatus;
  Attempts : list Attempt.t;
  (** [*ProcessorResponse]: [None] is the nil pointer. *)
  FinalResponse : option ProcessorResponse.t
}.
End PaymentResult.

(** ** fmt.Sprintf("%.2f", x)

    The Go library renders the exact binary value of [x] in decimal and
    rounds it to two fractional digits, ties to even. *)

Module Fmt.
Definition dec (n : Z) : string := NilZero.string_of_uint (N.to_uint (Z.to_N n)).

(** [num / den] rounded to the nearest integer, ties to even ([den > 0]). *)
Definition round_half_even (num den : Z) : Z :=
  let q := num / den in
  let r := num mod den in
  if 2 * r <? den then q
  else if den <? 2 * r then q + 1
  else if Z.even q then q else q + 1.

(** The integer nearest to [m * 2^e * 100]. *)
Definition hundredths (m : positive) (e : Z) : Z :=
  if 0 <=? e then Z.pos m * 100 * 2 ^ e
  else round_half_even (Z.pos m * 100) (2 ^ (- e)).

Definition two_digits (n : Z) : string :=
  if n <? 10 then "0" +:+ dec n else dec n.

Definition sign (s : bool) : string := if s then "-" else "".

Definition Sprintf_2f (x : float) : string :=
  match Prim2SF x with
  | S754_nan => "NaN"
  | S754_infinity s => if s then "-Inf" else "+Inf"
  | S754_zero s => sign s +:+ "0.00"
  | S754_finite s m e =>
      let n := hundredths m e in
      sign s +:+ dec (n / 100) +:+ "." +:+ two_digits (n mod 100)
  end.
End Fmt.

(** ** internal/health/monitor.go: types *)

Inductive Status :=
| StatusHealthy
| StatusDegraded
| StatusOpen.

Definition Status_eqb (a b : Status) : bool :=
  match a, b with
  | StatusHealthy, StatusHealthy
  | StatusDegraded, StatusDegraded
  | StatusOpen, StatusOpen => true
  | _, _ => false
  end.

Module ProcessorHealth.
Record t := mk {
  ProcessorName : string;
  HealthScore : float;
  Status : Status;
  TotalRecent : Z;
  ApprovedCount : Z;
  ErrorCount : Z;
  LastUpdated : Time
}.
End ProcessorHealth.

Record outcome := mkOutcome {
  approved : bool;
  timestamp : Time
}.

(** [windowSize] is an [int] in Go.  [NewMonitor] sets it to 50; with a
    negative size the slice expression in [getActiveWindow] and
    [pruneWindow] would panic on the first non-empty window, so sizes are
    taken in [nat]. *)
Record Monitor := mkMonitor {
  windows : gmap string (list outcome);
  windowSize : nat;
  windowDuration : Duration
}.

Definition NewMonitor : Monitor :=
  {| windows := ∅;
     windowSize := Z.to_nat Config.HealthWindowSize;
     windowDuration := Config.HealthWindowDurationMinutes * Minute |}.

Definition NewMonitorWithConfig (size : nat) (duration : Duration) : Monitor :=
  {| windows := ∅; windowSize := size; windowDuration := duration |}.

(** [m.windows[name]]: a missing key reads as the nil slice. *)
Definition window_of (m : Monitor) (name : string) : list outcome :=
  default [] (windows m !! name).

Definition set_window (m : Monitor) (name : string) (w : list outcome) : Monitor :=
  {| windows := <[name := w]> (windows m);
     windowSize := windowSize m;
     windowDuration := windowDuration m |}.

(** [s[len(s)-n:]] guarded by [len(s) > n]: the most recent [n] entries. *)
Definition most_recent {A} (n : nat) (s : list A) : list A :=
  if (n <? length s)%nat then drop (length s - n) s else s.

(** Entries strictly younger than [cutoff], in order. *)
Definition younger_than (cutoff : Time) (window : list outcome) : list outcome :=
  List.filter (fun o => Time_After (timestamp o) cutoff) window.

(** The counting loop of [GetHealth]: [(approved, errors)]. *)
Definition count_outcomes (window : list outcome) : Z * Z :=
  fold_left (fun '(a, e) o => if approved o then (a + 1, e) else (a, e + 1))
            window (0, 0).

Definition status_of_score (score : float) : Status :=
  if PrimFloat.ltb score Config.CircuitBreakerThreshold then StatusOpen
  else if PrimFloat.ltb score Config.DegradedThreshold then StatusDegraded
  else StatusHealthy.

Section WithWorld.
Context {World : Type}.
(** [time.Now()] *)
Variable timeNow : World -> Time * World.

Definition pruneWindow (processorName : string) (m : Monitor) (w : World)
  : Monitor * World :=
  let '(now, w) := timeNow w in
  let cutoff := Time_Add now (- windowDuration m) in
  let window := window_of m processorName in
  let pruned := younger_than cutoff window in
  let pruned := most_recent (windowSize m) pruned in
  (set_window m processorName pruned, w).

Definition RecordOutcome (processorName : string) (code : ResponseCode)
    (m : Monitor) (w : World) : Monitor * World :=
  let approved := String.eqb code Approved in
  let '(now, w) := timeNow w in
  let m := set_window m processorName
             (window_of m processorName ++ [mkOutcome approved now]) in
  pruneWindow processorName m w.

Definition getActiveWindow (processorName : string) (m : Monitor) (w : World)
  : list outcome * Monitor * World :=
  let window := window_of m processorName in
  if len window =? 0 then ([], m, w)
  else
    let '(now, w) := timeNow w in
    let cutoff := Time_Add now (- windowDuration m) in
    let active := younger_than cutoff window in
    let active := most_recent (windowSize m) active in
    (active, m, w).

Definition GetHealth (processorName : string) (m : Monitor) (w : World)
  : ProcessorHealth.t * Monitor * World :=
  let '(window, m, w) := getActiveWindow processorName m w in
  if len window =? 0 then
    let '(now, w) := timeNow w in
    (ProcessorHealth.mk processorName 1%float StatusHealthy 0 0 0 now, m, w)
  else
    let '(approved, errors) := count_outcomes window in
    let total := len window in
    let score := PrimFloat.div (float64_of_int approved) (float64_of_int total) in
    let status := status_of_score score in
    let '(now, w) := timeNow w in
    (ProcessorHealth.mk processorName score status total approved errors now, m, w).

(** Go ranges over the map in an unspecified order; the model takes the
    order of [map_to_list]. *)
Definition GetAllHealth (m : Monitor) (w : World)
  : list ProcessorHealth.t * Monitor * World :=
  let processors := (map_to_list (windows m)).*1 in
  fold_left
    (fun '(healths, m, w) name =>
       let '(h, m, w) := GetHealth name m w in (healths ++ [h], m, w))
    processors ([], m, w).

Definition IsCircuitOpen (processorName : string) (m : Monitor) (w : World)
  : bool * Monitor * World :=
  let '(h, m, w) := GetHealth processorName m w in
  (Status_eqb (ProcessorHealth.Status h) StatusOpen, m, w).

End WithWorld.

(** ** sort.Slice

    [getEligibleProcessors] orders the eligible processors with Go's
    [sort.Slice].  That function belongs to the Go standard library (the
    image built by the Dockerfile is golang:1.24), not to this
    repository; it is transcribed here from the library's
    pattern-defeating quicksort ([pdqsort_func] and its helpers in package
    [sort]), because which of two equally scored processors comes first is
    decided there.  The slice is a list, indices are [int]s in [Z], and the
    slice is only ever changed through [Swap].  Every loop carries a
    counter that bounds its iterations by the size of the range it walks. *)

Module Sort.
Section Slice.
Context {A : Type}.
Variable less : A -> A -> bool.

Definition at_index (s : list A) (i : Z) : option A :=
if i <? 0 then None else s !! Z.to_nat i.

(** [data.Less(i, j)]: the comparison closure applied to the current
  elements at [i] and [j]. *)
Definition Less (s : list A) (i j : Z) : bool :=
match at_index s i, at_index s j with
| Some x, Some y => less x y
| _, _ => false
end.

(** [data.Swap(i, j)] *)
Definition Swap (s : list A) (i j : Z) : list A :=
match at_index s i, at_index s j with
| Some x, Some y => <[Z.to_nat i := y]> (<[Z.to_nat j := x]> s)
| _, _ => s
end.

(** [for j := i; j > a && data.Less(j, j-1); j-- { data.Swap(j, j-1) }] *)
Fixpoint insert_down (n : nat) (s : list A) (a j : Z) : list A :=
match n with
| O => s
| S n =>
    if (a <? j) && Less s j (j - 1)
    then insert_down n (Swap s j (j - 1)) a (j - 1)
    else s
end.

(** [for i := a + 1; i < b; i++ { ... }], entered at [i]. *)
Fixpoint insertion_from (n : nat) (s : list A) (a b i : Z) : list A :=
match n with
| O => s
| S n =>
    if i <? b
    then insertion_from n (insert_down (Z.to_nat (i - a)) s a i) a b (i + 1)
    else s
end.

Definition insertionSort_func (s : list A) (a b : Z) : list A :=
insertion_from (Z.to_nat (b - a)) s a b (a + 1).

Fixpoint siftDown_loop (n : nat) (s : list A) (root hi first : Z) : list A :=
match n with
| O => s
| S n =>
    let child := 2 * root + 1 in
    if hi <=? child then s
    else
      let child :=
        if (child + 1 <? hi) && Less s (first + child) (first + child + 1)
        then child + 1 else child in
      if negb (Less s (first + root) (first + child)) then s
      else siftDown_loop n (Swap s (first + root) (first + child)) child hi first
end.

Definition siftDown_func (s : list A) (lo hi first : Z) : list A :=
siftDown_loop (Z.to_nat hi) s lo hi first.

(** [for i := start; i >= 0; i-- { siftDown_func(data, i, hi, first) }] *)
Fixpoint heap_build (n : nat) (s : list A) (i hi first : Z) : list A :=
match n with
| O => s
| S n =>
    if 0 <=? i then heap_build n (siftDown_func s i hi first) (i - 1) hi first
    else s
end.

(** [for i := hi - 1; i >= 0; i-- { data.Swap(first, first+i); siftDown_func(data, lo, i, first) }] *)
Fixpoint heap_pop (n : nat) (s : list A) (i lo first : Z) : list A :=
match n with
| O => s
| S n =>
    if 0 <=? i
    then heap_pop n (siftDown_func (Swap s first (first + i)) lo i first)
                  (i - 1) lo first
    else s
end.

Definition heapSort_func (s : list A) (a b : Z) : list A :=
let first := a in
let lo := 0 in
let hi := b - a in
let s := heap_build (Z.to_nat hi + 1) s (Z.quot (hi - 1) 2) hi first in
heap_pop (Z.to_nat hi + 1) s (hi - 1) lo first.

(** [bits.Len(uint(n))] *)
Definition bits_Len (n : Z) : Z := if n <=? 0 then 0 else Z.log2 n + 1.

(** The [Next] method of [xorshift], on a [uint64]. *)
Definition xorshift_Next (r : Z) : Z :=
let r := Z.lxor r (Z.shiftl r 13 mod 2 ^ 64) in
let r := Z.lxor r (Z.shiftr r 7) in
let r := Z.lxor r (Z.shiftl r 17 mod 2 ^ 64) in
r.

Definition nextPowerOfTwo (length : Z) : Z := Z.shiftl 1 (bits_Len length).

(** [for i := 0; i < 3; i++ { ... }] of [breakPatterns_func]. *)
Fixpoint breakPatterns_loop (n : nat) (s : list A) (a length idx modulus random i : Z)
: list A :=
match n with
| O => s
| S n =>
    let random := xorshift_Next random in
    let other := Z.land random (modulus - 1) in
    let other := if length <=? other then other - length else other in
    breakPatterns_loop n (Swap s (idx - 1 + i) (a + other))
                       a length idx modulus random (i + 1)
end.

Definition breakPatterns_func (s : list A) (a b : Z) : list A :=
let length := b - a in
if 8 <=? length then
  let random := length in
  let modulus := nextPowerOfTwo length in
  let idx := a + Z.quot length 4 * 2 - 1 in
  breakPatterns_loop 3 s a length idx modulus random 0
else s.

Inductive sortedHint := unknownHint | increasingHint | decreasingHint.

Definition order2_func (s : list A) (a b swaps : Z) : Z * Z * Z :=
if Less s b a then (b, a, swaps + 1) else (a, b, swaps).

Definition median_func (s : list A) (a b c swaps : Z) : Z * Z :=
let '(a, b, swaps) := order2_func s a b swaps in
let '(b, c, swaps) := order2_func s b c swaps in
let '(a, b, swaps) := order2_func s a b swaps in
(b, swaps).

Definition medianAdjacent_func (s : list A) (a swaps : Z) : Z * Z :=
median_func s (a - 1) a (a + 1) swaps.

Definition choosePivot_func (s : list A) (a b : Z) : Z * sortedHint :=
let shortestNinther := 50 in
let maxSwaps := 4 * 3 in
let l := b - a in
let swaps := 0 in
let i := a + Z.quot l 4 * 1 in
let j := a + Z.quot l 4 * 2 in
let k := a + Z.quot l 4 * 3 in
let '(j, swaps) :=
  if 8 <=? l then
    let '(i, j, k, swaps) :=
      if shortestNinther <=? l then
        let '(i, swaps) := medianAdjacent_func s i swaps in
        let '(j, swaps) := medianAdjacent_func s j swaps in
        let '(k, swaps) := medianAdjacent_func s k swaps in
        (i, j, k, swaps)
      else (i, j, k, swaps) in
    median_func s i j k swaps
  else (j, swaps) in
if swaps =? 0 then (j, increasingHint)
else if swaps =? maxSwaps then (j, decreasingHint)
else (j, unknownHint).

(** [for i < j { data.Swap(i, j); i++; j-- }] *)
Fixpoint reverse_loop (n : nat) (s : list A) (i j : Z) : list A :=
match n with
| O => s
| S n => if i <? j then reverse_loop n (Swap s i j) (i + 1) (j - 1) else s
end.

Definition reverseRange_func (s : list A) (a b : Z) : list A :=
reverse_loop (Z.to_nat (b - a)) s a (b - 1).

(** [for i < b && !data.Less(i, i-1) { i++ }] *)
Fixpoint skip_ordered (n : nat) (s : list A) (b i : Z) : Z :=
match n with
| O => i
| S n => if (i <? b) && negb (Less s i (i - 1)) then skip_ordered n s b (i + 1) else i
end.

(** [for j := i - 1; j >= 1; j-- { if !data.Less(j, j-1) { break }; data.Swap(j, j-1) }] *)
Fixpoint shift_left (n : nat) (s : list A) (j : Z) : list A :=
match n with
| O => s
| S n =>
    if 1 <=? j then
      if negb (Less s j (j - 1)) then s
      else shift_left n (Swap s j (j - 1)) (j - 1)
    else s
end.

(** [for j := i + 1; j < b; j++ { if !data.Less(j, j-1) { break }; data.Swap(j, j-1) }] *)
Fixpoint shift_right (n : nat) (s : list A) (b j : Z) : list A :=
match n with
| O => s
| S n =>
    if j <? b then
      if negb (Less s j (j - 1)) then s
      else shift_right n (Swap s j (j - 1)) b (j + 1)
    else s
end.

(** [for j := 0; j < maxSteps; j++ { ... }] of [partialInsertionSort_func]. *)
Fixpoint partialInsertion_loop (steps : nat) (s : list A) (a b i : Z) : bool * list A :=
match steps with
| O => (false, s)
| S steps =>
    let shortestShifting := 50 in
    let i := skip_ordered (Z.to_nat (b - i)) s b i in
    if i =? b then (true, s)
    else if b - a <? shortestShifting then (false, s)
    else
      let s := Swap s i (i - 1) in
      let s := if 2 <=? i - a then shift_left (Z.to_nat i) s (i - 1) else s in
      let s := if 2 <=? b - i then shift_right (Z.to_nat (b - i)) s b (i + 1) else s in
      partialInsertion_loop steps s a b i
end.

Definition partialInsertionSort_func (s : list A) (a b : Z) : bool * list A :=
let maxSteps := 5%nat in
partialInsertion_loop maxSteps s a b (a + 1).

(** [for i <= j && !data.Less(a, i) { i++ }] *)
Fixpoint eq_scan_up (n : nat) (s : list A) (a i j : Z) : Z :=
match n with
| O => i
| S n => if (i <=? j) && negb (Less s a i) then eq_scan_up n s a (i + 1) j else i
end.

(** [for i <= j && data.Less(a, j) { j-- }] *)
Fixpoint eq_scan_down (n : nat) (s : list A) (a i j : Z) : Z :=
match n with
| O => j
| S n => if (i <=? j) && Less s a j then eq_scan_down n s a i (j - 1) else j
end.

Fixpoint partitionEqual_loop (n : nat) (s : list A) (a i j : Z) : Z * list A :=
match n with
| O => (i, s)
| S n =>
    let i := eq_scan_up (Z.to_nat (j - i + 1)) s a i j in
    let j := eq_scan_down (Z.to_nat (j - i + 1)) s a i j in
    if j <? i then (i, s)
    else partitionEqual_loop n (Swap s i j) a (i + 1) (j - 1)
end.

Definition partitionEqual_func (s : list A) (a b pivot : Z) : Z * list A :=
let s := Swap s a pivot in
let i := a + 1 in
let j := b - 1 in
partitionEqual_loop (Z.to_nat (b - a)) s a i j.

(** [for i <= j && data.Less(i, a) { i++ }] *)
Fixpoint scan_up (n : nat) (s : list A) (a i j : Z) : Z :=
match n with
| O => i
| S n => if (i <=? j) && Less s i a then scan_up n s a (i + 1) j else i
end.

(** [for i <= j && !data.Less(j, a) { j-- }] *)
Fixpoint scan_down (n : nat) (s : list A) (a i j : Z) : Z :=
match n with
| O => j
| S n => if (i <=? j) && negb (Less s j a) then scan_down n s a i (j - 1) else j
end.

(** The second loop of [partition_func]; yields the final [j]. *)
Fixpoint partition_loop (n : nat) (s : list A) (a i j : Z) : Z * list A :=
match n with
| O => (j, s)
| S n =>
    let i := scan_up (Z.to_nat (j - i + 1)) s a i j in
    let j := scan_down (Z.to_nat (j - i + 1)) s a i j in
    if j <? i then (j, s)
    else partition_loop n (Swap s i j) a (i + 1) (j - 1)
end.

(** [(newpivot, alreadyPartitioned)] and the slice. *)
Definition partition_func (s : list A) (a b pivot : Z) : Z * bool * list A :=
let s := Swap s a pivot in
let i := a + 1 in
let j := b - 1 in
let i := scan_up (Z.to_nat (j - i + 1)) s a i j in
let j := scan_down (Z.to_nat (j - i + 1)) s a i j in
if j <? i then (j, true, Swap s j a)
else
  let s := Swap s i j in
  let i := i + 1 in
  let j := j - 1 in
  let '(j, s) := partition_loop (Z.to_nat (b - a)) s a i j in
  (j, false, Swap s j a).

Definition hint_is (h k : sortedHint) : bool :=
match h, k with
| unknownHint, unknownHint
| increasingHint, increasingHint
| decreasingHint, decreasingHint => true
| _, _ => false
end.

(** One unfolding is one pass through the [for] loop of [pdqsort_func];
  the recursive call on the smaller side and the next pass on the
  larger side both work on a strictly shorter range. *)
Fixpoint pdqsort_loop (n : nat) (s : list A) (a b limit : Z)
  (wasBalanced wasPartitioned : bool) : list A :=
match n with
| O => s
| S n =>
    let maxInsertion := 12 in
    let length := b - a in
    if length <=? maxInsertion then insertionSort_func s a b
    else if limit =? 0 then heapSort_func s a b
    else
      let '(s, limit) :=
        if negb wasBalanced then (breakPatterns_func s a b, limit - 1)
        else (s, limit) in
      let '(pivot, hint) := choosePivot_func s a b in
      let '(s, pivot, hint) :=
        if hint_is hint decreasingHint
        then (reverseRange_func s a b, (b - 1) - (pivot - a), increasingHint)
        else (s, pivot, hint) in
      let '(sorted, s) :=
        if wasBalanced && wasPartitioned && hint_is hint increasingHint
        then partialInsertionSort_func s a b
        else (false, s) in
      if sorted then s
      else if (0 <? a) && negb (Less s (a - 1) pivot) then
        let '(mid, s) := partitionEqual_func s a b pivot in
        pdqsort_loop n s mid b limit wasBalanced wasPartitioned
      else
        let '(mid, alreadyPartitioned, s) := partition_func s a b pivot in
        let wasPartitioned := alreadyPartitioned in
        let leftLen := mid - a in
        let rightLen := b - mid in
        let balanceThreshold := Z.quot length 8 in
        if leftLen <? rightLen then
          let wasBalanced := balanceThreshold <=? leftLen in
          let s := pdqsort_loop n s a mid limit true true in
          pdqsort_loop n s (mid + 1) b limit wasBalanced wasPartitioned
        else
          let wasBalanced := balanceThreshold <=? rightLen in
          let s := pdqsort_loop n s (mid + 1) b limit true true in
          pdqsort_loop n s a mid limit wasBalanced wasPartitioned
end.

Definition pdqsort_func (s : list A) (a b limit : Z) : list A :=
pdqsort_loop (Z.to_nat (b - a) + 1) s a b limit true true.

(** [sort.Slice(x, less)] *)
Definition Slice (x : list A) : list A :=
let length := len x in
let limit := bits_Len length in
pdqsort_func x 0 length limit.

End Slice.
End Sort.

(** ** context.Context

    The orchestrator only forwards the caller's context.  A context is
    cancelled from some instant on (a deadline, or the instant at which the
    caller cancels) or never; once cancelled it stays cancelled. *)

Record Ctx := mkCtx { cancelledAt : option Time }.

(** [context.Background()] *)
Definition Background : Ctx := mkCtx None.

(** Whether [ctx.Done()] is closed at instant [now]. *)
Definition ctx_done (ctx : Ctx) (now : Time) : bool :=
  match cancelledAt ctx with
  | Some c => c <=? now
  | None => false
  end.

(** ** internal/processor/processor.go *)

Record Processor {World : Type} := mkProcessor {
  Name : string;
  Process : Ctx -> PaymentRequest.t -> World -> ProcessorResponse.t * World;
  SupportedMethods : list string
}.
Arguments Processor : clear implicits.

Definition SupportsMethod {World} (p : Processor World) (method : string) : bool :=
  existsb (fun m => String.eqb m method) (SupportedMethods p).

(** ** internal/orchestrator/orchestrator.go *)

Record PaymentStore := mkStore {
  results : gmap string PaymentResult.t
}.

Definition NewPaymentStore : PaymentStore := mkStore ∅.

Definition Save (result : PaymentResult.t) (s : PaymentStore) : PaymentStore :=
  mkStore (<[PaymentResult.TransactionID result := result]> (results s)).

(** [r, ok := s.results[txnID]]: a missing key yields the zero value. *)
Definition Get (txnID : string) (s : PaymentStore) : PaymentResult.t * bool :=
  match results s !! txnID with
  | Some r => (r, true)
  | None => (PaymentResult.mk "" StatusUnset [] None, false)
  end.

Record eligibleProcessor {World : Type} := mkEligible {
  proc : Processor World;
  healthScore : float;
  status : Status
}.
Arguments eligibleProcessor : clear implicits.

(** The monitor and the store are held by pointer in Go; the orchestrator
    is their only holder during a request, so they are fields here. *)
Record Orchestrator {World : Type} := mkOrchestrator {
  processors : list (Processor World);
  monitor : Monitor;
  store : PaymentStore;
  maxRetries : Z
}.
Arguments Orchestrator : clear implicits.

Definition New {World} (processors : list (Processor World)) (monitor : Monitor)
  : Orchestrator World :=
  mkOrchestrator World processors monitor NewPaymentStore Config.MaxRetries.

Definition with_monitor {World} (o : Orchestrator World) (m : Monitor) : Orchestrator World :=
  mkOrchestrator World (processors o) m (store o) (maxRetries o).

(** [o.store.Save(result)] *)
Definition store_Save {World} (o : Orchestrator World) (result : PaymentResult.t)
  : Orchestrator World :=
  mkOrchestrator World (processors o) (monitor o) (Save result (store o)) (maxRetries o).

Definition GetPaymentHistory {World} (txnID : string) (o : Orchestrator World)
  : PaymentResult.t * bool :=
  Get txnID (store o).

(** The comparison closure handed to [sort.Slice]:
    [eligible[i].healthScore > eligible[j].healthScore]. *)
Definition healthier {World} (x y : eligibleProcessor World) : bool :=
  PrimFloat.ltb (healthScore y) (healthScore x).

(** [buildRoutingReason]; [None] is the run-time panic of indexing an empty
    attempt list. *)
Definition buildRoutingReason {World} (ep : eligibleProcessor World) (attemptNum : Z)
    (result : PaymentResult.t) : option string :=
  if attemptNum =? 1 then
    if Status_eqb (status ep) StatusDegraded then
      Some ("primary (degraded): health score " +:+ Fmt.Sprintf_2f (healthScore ep))
    else
      Some ("primary: highest health score " +:+ Fmt.Sprintf_2f (healthScore ep))
  else
    match last (PaymentResult.Attempts result) with
    | None => None
    | Some prevAttempt =>
        let reason :=
          "fallback: " +:+ Attempt.ProcessorName prevAttempt +:+ " returned "
            +:+ ProcessorResponse.Code (Attempt.Response prevAttempt) in
        let reason :=
          if Status_eqb (status ep) StatusDegraded then
            reason +:+ " (degraded: health " +:+ Fmt.Sprintf_2f (healthScore ep) +:+ ")"
          else reason in
        Some reason
    end.

Section Orchestration.
Context {World : Type}.
Variable timeNow : World -> Time * World.

(** The [for _, p := range o.processors] loop of [getEligibleProcessors]. *)
Fixpoint eligible_loop (ps : list (Processor World)) (paymentMethod : string)
    (eligible : list (eligibleProcessor World)) (m : Monitor) (w : World)
  : list (eligibleProcessor World) * Monitor * World :=
  match ps with
  | [] => (eligible, m, w)
  | p :: ps =>
      if negb (SupportsMethod p paymentMethod) then
        eligible_loop ps paymentMethod eligible m w
      else
        let '(h, m, w) := GetHealth timeNow (Name p) m w in
        if Status_eqb (ProcessorHealth.Status h) StatusOpen then
          eligible_loop ps paymentMethod eligible m w
        else
          eligible_loop ps paymentMethod
            (eligible ++ [mkEligible World p (ProcessorHealth.HealthScore h)
                                     (ProcessorHealth.Status h)])
            m w
  end.

Definition getEligibleProcessors (o : Orchestrator World) (paymentMethod : string)
    (w : World) : list (eligibleProcessor World) * Orchestrator World * World :=
  let '(eligible, m, w) :=
    eligible_loop (processors o) paymentMethod [] (monitor o) w in
  (Sort.Slice healthier eligible, with_monitor o m, w).

(** The code after the retry loop. *)
Definition retries_exhausted (result : PaymentResult.t) (o : Orchestrator World)
  : PaymentResult.t * Orchestrator World :=
  let attempts := PaymentResult.Attempts result in
  let final :=
    if 0 <? len attempts
    then Attempt.Response <$> last attempts
    else PaymentResult.FinalResponse result in
  let result :=
    PaymentResult.mk (PaymentResult.TransactionID result) StatusExhaustedRetries
                     attempts final in
  (result, store_Save o result).

(** The [for _, ep := range eligible] loop of [ProcessPayment] together
    with what follows it.  [None] is a panic. *)
Fixpoint retry_loop (ctx : Ctx) (req : PaymentRequest.t)
    (eligible : list (eligibleProcessor World)) (attemptNum : Z)
    (result : PaymentResult.t) (o : Orchestrator World) (w : World)
  : option (PaymentResult.t * Orchestrator World * World) :=
  match eligible with
  | [] => let '(result, o) := retries_exhausted result o in Some (result, o, w)
  | ep :: rest =>
      if maxRetries o <=? attemptNum then
        let '(result, o) := retries_exhausted result o in Some (result, o, w)
      else
        let attemptNum := attemptNum + 1 in
        match buildRoutingReason ep attemptNum result with
        | None => None
        | Some reason =>
            let '(resp, w) := Process (proc ep) ctx req w in
            let '(now, w) := timeNow w in
            let attempt :=
              Attempt.mk (Name (proc ep)) resp reason attemptNum now in
            let result :=
              PaymentResult.mk (PaymentResult.TransactionID result)
                               (PaymentResult.Status result)
                               (PaymentResult.Attempts result ++ [attempt])
                               (PaymentResult.FinalResponse result) in
            let '(m, w) :=
              RecordOutcome timeNow (Name (proc ep)) (ProcessorResponse.Code resp)
                            (monitor o) w in
            let o := with_monitor o m in
            if String.eqb (ProcessorResponse.Code resp) Approved then
              let result :=
                PaymentResult.mk (PaymentResult.TransactionID result) StatusApproved
                                 (PaymentResult.Attempts result) (Some resp) in
              Some (result, store_Save o result, w)
            else if IsHardDecline (ProcessorResponse.Code resp) then
              let result :=
                PaymentResult.mk (PaymentResult.TransactionID result) StatusDeclined
                                 (PaymentResult.Attempts result) (Some resp) in
              Some (result, store_Save o result, w)
            else retry_loop ctx req rest attemptNum result o w
        end
  end.

Definition ProcessPayment (o : Orchestrator World) (ctx : Ctx)
    (req : PaymentRequest.t) (w : World)
  : option (PaymentResult.t * Orchestrator World * World) :=
  let result :=
    PaymentResult.mk (PaymentRequest.TransactionID req) StatusUnset [] None in
  let '(eligible, o, w) :=
    getEligibleProcessors o (PaymentRequest.PaymentMethod req) w in
  if len eligible =? 0 then
    let result :=
      PaymentResult.mk (PaymentResult.TransactionID result) StatusDeclined
                       (PaymentResult.Attempts result)
                       (PaymentResult.FinalResponse result) in
    Some (result, store_Save o result, w)
  else retry_loop ctx req eligible 0 result o w.

End Orchestration.

(** ** A concrete world

    Used to run the program on concrete inputs: a clock that advances by
    one nanosecond at each reading, the draws the processors' random
    generators will make, and the call counters of the test processors. *)

Record TestWorld := mkTestWorld {
  clock : Time;
  int63_draws : list Z;
  float64_draws : list float;
  callCount : gmap string Z
}.

Definition test_timeNow (w : TestWorld) : Time * TestWorld :=
  (clock w, mkTestWorld (clock w + 1) (int63_draws w) (float64_draws w) (callCount w)).

Definition world0 : TestWorld := mkTestWorld 0 [] [] ∅.

(** [rng.Int63n(n)] *)
Definition rng_Int63n (n : Z) (w : TestWorld) : Z * TestWorld :=
  match int63_draws w with
  | [] => (0, w)
  | r :: rs => (r mod n, mkTestWorld (clock w) rs (float64_draws w) (callCount w))
  end.

(** [rng.Float64()] *)
Definition rng_Float64 (w : TestWorld) : float * TestWorld :=
  match float64_draws w with
  | [] => (0%float, w)
  | r :: rs => (r, mkTestWorld (clock w) (int63_draws w) rs (callCount w))
  end.

Definition set_clock (t : Time) (w : TestWorld) : TestWorld :=
  mkTestWorld t (int63_draws w) (float64_draws w) (callCount w).

(** *** internal/orchestrator/orchestrator_test.go: deterministicProcessor *)

Definition deterministicProcessor (name : string) (methods : list string)
    (code : ResponseCode) : Processor TestWorld :=
  {| Name := name;
     SupportedMethods := methods;
     Process := fun _ _ w =>
       let w := mkTestWorld (clock w) (int63_draws w) (float64_draws w)
                            (<[name := default 0 (callCount w !! name) + 1]> (callCount w)) in
       let '(now, w) := test_timeNow w in
       (ProcessorResponse.mk name code "test response" now (10 * Millisecond), w) |}.

(** *** internal/processor/mock.go *)

Module Mock.
#[local] Set Warnings "-inexact-float".

Record OutcomeDistribution := mkDist {
  ApprovalRate : float;
  SoftDeclineRate : float;
  HardDeclineRate : float;
  ErrorRate : float
}.

Record MethodOverride := mkOverride {
  Method : string;
  Distribution : OutcomeDistribution
}.

Record MockConfig := mkConfig {
  ProcessorName : string;
  Methods : list string;
  DefaultOutcomes : OutcomeDistribution;
  MethodOverrides : list MethodOverride;
  MinLatency : Duration;
  MaxLatency : Duration
}.

Record MockProcessor := mkMock {
  config : MockConfig;
  degraded : bool
}.

Definition NewMockProcessor (cfg : MockConfig) : MockProcessor := mkMock cfg false.

Definition responseMessage (code : ResponseCode) : string :=
  if String.eqb code Approved then "transaction approved"
  else if String.eqb code SoftDecline then "soft decline - try again"
  else if String.eqb code DeclinedInsufficientFunds then "insufficient funds"
  else if String.eqb code DeclinedFraud then "suspected fraud"
  else if String.eqb code ProcessorError then "internal processor error"
  else if String.eqb code Timeout then "request timed out"
  else if String.eqb code RateLimited then "rate limit exceeded"
  else "unknown response".

Definition simulateLatency (p : MockProcessor) (w : TestWorld) : Duration * TestWorld :=
  let min := MinLatency (config p) in
  let max := MaxLatency (config p) in
  if max <=? min then (min, w)
  else let '(r, w) := rng_Int63n (max - min) w in (min + r, w).

(** The first override whose method matches, else the default. *)
Fixpoint pick_distribution (overrides : list MethodOverride) (method : string)
    (dist : OutcomeDistribution) : OutcomeDistribution :=
  match overrides with
  | [] => dist
  | o :: rest =>
      if String.eqb (Method o) method then Distribution o
      else pick_distribution rest method dist
  end.

Definition determineOutcome (p : MockProcessor) (method : string) (degraded : bool)
    (w : TestWorld) : ResponseCode * TestWorld :=
  let '(roll, w) := rng_Float64 w in
  if degraded then
    if PrimFloat.ltb roll 0.80%float then (ProcessorError, w) else (Approved, w)
  else
    let dist := pick_distribution (MethodOverrides (config p)) method
                                  (DefaultOutcomes (config p)) in
    if PrimFloat.ltb roll (ApprovalRate dist) then (Approved, w)
    else
      let roll := PrimFloat.sub roll (ApprovalRate dist) in
      if PrimFloat.ltb roll (SoftDeclineRate dist) then (SoftDecline, w)
      else
        let roll := PrimFloat.sub roll (SoftDeclineRate dist) in
        if PrimFloat.ltb roll (HardDeclineRate dist) then (DeclinedInsufficientFunds, w)
        else (ProcessorError, w).

(** [Process]: the [select] waits for whichever comes first, the timer
    or the cancellation of [ctx]; the cancellation wins when the context
    is cancelled before the timer fires. *)
Definition Process (p : MockProcessor) (ctx : Ctx) (req : PaymentRequest.t)
    (w : TestWorld) : ProcessorResponse.t * TestWorld :=
  let '(start, w) := test_timeNow w in
  let degraded := degraded p in
  let '(latency, w) := simulateLatency p w in
  let cancelled_first :=
    match cancelledAt ctx with
    | Some c => c <? clock w + latency
    | None => false
    end in
  if cancelled_first then
    let w := set_clock (Z.max (clock w) (default 0 (cancelledAt ctx))) w in
    let '(now, w) := test_timeNow w in
    let '(now', w) := test_timeNow w in
    (ProcessorResponse.mk (ProcessorName (config p)) Timeout "context cancelled"
                          now (now' - start), w)
  else
    let w := set_clock (clock w + latency) w in
    let '(code, w) := determineOutcome p (PaymentRequest.PaymentMethod req) degraded w in
    let '(now, w) := test_timeNow w in
    let '(now', w) := test_timeNow w in
    (ProcessorResponse.mk (ProcessorName (config p)) code (responseMessage code)
                          now (now' - start), w).

Definition as_Processor (p : MockProcessor) : Processor TestWorld :=
  mkProcessor TestWorld (ProcessorName (config p)) (Process p) (Methods (config p)).

(** processor.go: the reference pool. *)
Definition NewPayFlow : MockProcessor :=
  NewMockProcessor
    (mkConfig "PayFlow" ["card"; "pix"; "oxxo"; "pse"]
              (mkDist 0.70%float 0.20%float 0.00%float 0.10%float) []
              (50 * Millisecond) (200 * Millisecond)).

Definition NewCardMax : MockProcessor :=
  NewMockProcessor
    (mkConfig "CardMax" ["card"; "oxxo"]
              (mkDist 0.85%float 0.10%float 0.05%float 0.00%float) []
              (80 * Millisecond) (300 * Millisecond)).

Definition NewPixPay : MockProcessor :=
  NewMockProcessor
    (mkConfig "PixPay" ["card"; "pix"]
              (mkDist 0.50%float 0.30%float 0.10%float 0.10%float)
              [mkOverride "pix" (mkDist 0.90%float 0.05%float 0.00%float 0.05%float)]
              (30 * Millisecond) (150 * Millisecond)).

Definition NewGlobalPay : MockProcessor :=
  NewMockProcessor
    (mkConfig "GlobalPay" ["card"; "pix"; "oxxo"; "pse"]
              (mkDist 0.75%float 0.15%float 0.05%float 0.05%float) []
              (60 * Millisecond) (250 * Millisecond)).

(** cmd/server/main.go: the pool the server is started with. *)
Definition reference_pool : list (Processor TestWorld) :=
  map as_Processor [NewPayFlow; NewCardMax; NewPixPay; NewGlobalPay].
End Mock.

Definition cardRequest (txn : string) : PaymentRequest.t :=
  PaymentRequest.mk txn 100%float "USD" "card" "cust-1".

(** ** Vocabulary of the properties *)

(** [returns x P]: the call returned (it did not panic) and its result
    satisfies [P]. *)
Definition returns {R : Type} (x : option R) (P : R -> Prop) : Prop :=
  match x with
  | Some r => P r
  | None => False
  end.

(** The active window at instant [now], as the specification words it:
    the entries younger than the window duration, of which the most recent
    [windowSize] are kept. *)
Definition active_window (m : Monitor) (name : string) (now : Time) : list outcome :=
  let young :=
    List.filter (fun o => now - windowDuration m <? timestamp o) (window_of m name) in
  drop (length young - windowSize m) young.

(** Number of entries of a window that were recorded as approved. *)
Definition approvals (window : list outcome) : Z :=
  len (List.filter approved window).

(** The status a processor has when [a] of its [t] active outcomes are
    approvals, in exact arithmetic: [a/t < 1/5], [1/5 <= a/t < 1/2],
    [1/2 <= a/t]. *)
Definition exact_status (a t : Z) : Status :=
  if 5 * a <? t then StatusOpen
  else if 2 * a <? t then StatusDegraded
  else StatusHealthy.

(** [float64(a) / float64(t)] *)
Definition score_of_counts (a t : Z) : float :=
  PrimFloat.div (float64_of_int a) (float64_of_int t).

(** The two threshold tests on the floating-point score agree with exact
    arithmetic on the counts. *)
Definition thresholds_agree (a t : Z) : bool :=
  Bool.eqb (PrimFloat.ltb (score_of_counts a t) Config.CircuitBreakerThreshold)
           (5 * a <? t)
  && Bool.eqb (PrimFloat.ltb (score_of_counts a t) Config.DegradedThreshold)
              (2 * a <? t).

(** All counts a window of at most 50 entries can produce. *)
Definition thresholds_table : bool :=
  forallb (fun t => forallb (fun a => thresholds_agree a t) (seqZ 0 (t + 1)))
          (seqZ 1 50).

(** The read operations of the monitor. *)
Inductive ReadOp :=
| OpGetHealth (processorName : string)
| OpGetAllHealth
| OpIsCircuitOpen (processorName : string).

Section ReadOps.
Context {World : Type}.
Variable timeNow : World -> Time * World.

Definition run_read (op : ReadOp) (m : Monitor) (w : World) : Monitor * World :=
  match op with
  | OpGetHealth name => let '(_, m, w) := GetHealth timeNow name m w in (m, w)
  | OpGetAllHealth => let '(_, m, w) := GetAllHealth timeNow m w in (m, w)
  | OpIsCircuitOpen name => let '(_, m, w) := IsCircuitOpen timeNow name m w in (m, w)
  end.

Fixpoint run_reads (ops : list ReadOp) (m : Monitor) (w : World) : Monitor * World :=
  match ops with
  | [] => (m, w)
  | op :: ops => let '(m, w) := run_read op m w in run_reads ops m w
  end.
End ReadOps.

(** Seeds a monitor with a list of outcomes for one processor, as the
    tests do with repeated [RecordOutcome] calls. *)
Fixpoint record_all (name : string) (codes : list ResponseCode) (m : Monitor)
    (w : TestWorld) : Monitor * TestWorld :=
  match codes with
  | [] => (m, w)
  | c :: codes =>
      let '(m, w) := RecordOutcome test_timeNow name c m w in
      record_all name codes m w
  end.

(** The monitor of the boundary tests: [n] approvals followed by [k]
    processor errors recorded for "Proc" on a fresh monitor. *)
Definition seeded_monitor (n k : nat) : Monitor * TestWorld :=
  record_all "Proc" (replicate n Approved ++ replicate k ProcessorError)
             (NewMonitorWithConfig 50 (10 * Minute)) world0.

(** A payment status is terminal when it is one of the three final ones. *)
Definition terminal (s : PaymentStatus) : Prop :=
  s = StatusApproved \/ s = StatusDeclined \/ s = StatusExhaustedRetries.

(** The routing reason as the specification words it: the format of the
    first attempt when there is no previous attempt, the fallback format
    otherwise; the degraded variants when the chosen processor is
    degraded, the plain ones when it is healthy. *)
Definition routing_reason_spec (score : float) (st : Status) (prev : option Attempt.t)
  : string :=
  match prev, st with
  | None, StatusHealthy =>
      "primary: highest health score " +:+ Fmt.Sprintf_2f score
  | None, StatusDegraded =>
      "primary (degraded): health score " +:+ Fmt.Sprintf_2f score
  | Some p, StatusHealthy =>
      "fallback: " +:+ Attempt.ProcessorName p +:+ " returned "
        +:+ ProcessorResponse.Code (Attempt.Response p)
  | Some p, StatusDegraded =>
      ("fallback: " +:+ Attempt.ProcessorName p +:+ " returned "
         +:+ ProcessorResponse.Code (Attempt.Response p))
        +:+ " (degraded: health " +:+ Fmt.Sprintf_2f score +:+ ")"
  | _, StatusOpen => ""
  end.

(** An attempt after which the retry loop goes on: its code is neither
    [approved] nor a hard decline. *)
Definition goes_on (a : Attempt.t) : Prop :=
  ProcessorResponse.Code (Attempt.Response a) <> Approved
  /\ IsHardDecline (ProcessorResponse.Code (Attempt.Response a)) = false.

(** Insertion sort as a function on lists, the reference against which
    the short-slice path of [sort.Slice] is read.  [ins_rev y rp] inserts
    [y] into a prefix given back to front: [y] moves past the elements it
    is [less] than and stops at the first one it is not. *)
Fixpoint ins_rev {A} (less : A -> A -> bool) (y : A) (rp : list A) : list A :=
  match rp with
  | [] => [y]
  | x :: rp' => if less y x then x :: ins_rev less y rp' else y :: rp
  end.

Definition insert_last {A} (less : A -> A -> bool) (pre : list A) (y : A) : list A :=
  rev (ins_rev less y (rev pre)).

Definition isort {A} (less : A -> A -> bool) (l : list A) : list A :=
  fold_left (insert_last less) l [].

(** Two entries have the same score under Go's [==] on [float64]. *)
Definition same_score {World} (v : float) (ep : eligibleProcessor World) : bool :=
  PrimFloat.eqb (healthScore ep) v.

(** [x] may stand right before [y] in a list sorted by score, descending:
    [x]'s score is not below [y]'s. *)
Definition not_below {World} (x y : eligibleProcessor World) : Prop :=
  PrimFloat.ltb (healthScore x) (healthScore y) = false.

(** *** Concrete runs *)

(** A context that is already cancelled when the request arrives. *)
Definition cancelled_ctx : Ctx := mkCtx (Some 0).

(** The world in which the cancelled request is served. *)
Definition busy_world : TestWorld := mkTestWorld 5 [7; 8; 9] [] ∅.

(** Four processors that answer [timeout], as a cancelled invocation does. *)
Definition timeout_pool : list (Processor TestWorld) :=
  [deterministicProcessor "ProcA" ["card"] Timeout;
   deterministicProcessor "ProcB" ["card"] Timeout;
   deterministicProcessor "ProcC" ["card"] Timeout;
   deterministicProcessor "ProcD" ["card"] Timeout].

(** A soft decline, then a fraud decline, then a processor that would approve. *)
Definition soft_then_fraud_pool : list (Processor TestWorld) :=
  [deterministicProcessor "ProcA" ["card"] SoftDecline;
   deterministicProcessor "ProcB" ["card"] DeclinedFraud;
   deterministicProcessor "ProcC" ["card"] Approved].

(** Thirteen card processors, configured in the order P00, P01, ..., P12. *)
Definition pool13_names : list string :=
  ["P00"; "P01"; "P02"; "P03"; "P04"; "P05"; "P06";
   "P07"; "P08"; "P09"; "P10"; "P11"; "P12"].

Definition pool13 : list (Processor TestWorld) :=
  map (fun name => deterministicProcessor name ["card"] Approved) pool13_names.

(** A default monitor on which P00 has one approval and one error
    (score 0.5); the other twelve processors have no history (score 1.0). *)
Definition monitor13 : Monitor * TestWorld :=
  record_all "P00" [Approved; ProcessorError] NewMonitor world0.

(** Names, codes and numbers of a result's attempts. *)
Definition trail (res : PaymentResult.t) : list (string * ResponseCode * Z) :=
  map (fun a => (Attempt.ProcessorName a,
                 ProcessorResponse.Code (Attempt.Response a),
                 Attempt.AttemptNumber a))
      (PaymentResult.Attempts res).

(** *** Sequences of monitor operations *)

Inductive MonitorOp :=
| OpRecord (processorName : string) (code : ResponseCode)
| OpRead (op : ReadOp).

Section MonitorOps.
Context {World : Type}.
Variable timeNow : World -> Time * World.

Definition run_op (op : MonitorOp) (m : Monitor) (w : World) : Monitor * World :=
  match op with
  | OpRecord name code => RecordOutcome timeNow name code m w
  | OpRead r => run_read timeNow r m w
  end.

Fixpoint run_ops (ops : list MonitorOp) (m : Monitor) (w : World) : Monitor * World :=
  match ops with
  | [] => (m, w)
  | op :: ops => let '(m, w) := run_op op m w in run_ops ops m w
  end.
End MonitorOps.

(** All counts a window of at most 50 entries can produce give a score
    between 0 and 1. *)
Definition score_range_table : bool :=
  forallb (fun t =>
             forallb (fun a =>
                        PrimFloat.leb 0%float (score_of_counts a t)
                        && PrimFloat.leb (score_of_counts a t) 1%float)
                     (seqZ 0 (t + 1)))
          (seqZ 1 50).

(** The processor names a sequence of operations records an outcome for. *)
Fixpoint recorded_names (ops : list MonitorOp) : gset string :=
  match ops with
  | [] => ∅
  | OpRecord name _ :: ops => {[name]} ∪ recorded_names ops
  | OpRead _ :: ops => recorded_names ops
  end.

(** The world after [k] readings of the clock. *)
Fixpoint after_reads {World} (timeNow : World -> Time * World) (k : nat) (w : World)
  : World :=
  match k with
  | O => w
  | S k => after_reads timeNow k (timeNow w).2
  end.

(** ** internal/handler: the HTTP handlers

    A handler is modelled from the decoded request on: the result of
    [json.Decode] is an input, what [writeJSON] sends is the returned
    status code and payload.  [randomHex] and [randInt] draw from the
    world. *)

Module Handler.

Inductive DecodeResult (A : Type) :=
| Decoded (a : A)
| DecodeFailed (err : string).
Arguments Decoded {A} a.
Arguments DecodeFailed {A} err.

(** The map [summarizeBatch] returns. *)
Record BatchSummary := mkSummary {
  total : Z;
  approved_count : Z;
  declined_count : Z;
  exhausted_retries : Z;
  approval_rate : float;
  avg_attempts : float
}.

Inductive Payload :=
| ErrorBody (message : string)
| ResultBody (result : PaymentResult.t)
| HealthBody (processors : list ProcessorHealth.t)
| SummaryBody (summary : BatchSummary).

Record HTTPResponse := mkResponse {
  statusCode : Z;
  payload : Payload
}.

Definition StatusOK : Z := 200.
Definition StatusBadRequest : Z := 400.
Definition StatusNotFound : Z := 404.
Definition StatusUnprocessableEntity : Z := 422.

Definition writeJSON (status : Z) (data : Payload) : HTTPResponse :=
  mkResponse status data.

Definition writeError (status : Z) (message : string) : HTTPResponse :=
  writeJSON status (ErrorBody message).

Definition validMethods : gmap string bool :=
  <["card" := true]> (<["pix" := true]> (<["oxxo" := true]> (<["pse" := true]> ∅))).

(** The empty string means the request is valid. *)
Definition validatePaymentRequest (req : PaymentRequest.t) : string :=
  if String.eqb (PaymentRequest.TransactionID req) "" then "transaction_id is required"
  else if PrimFloat.leb (PaymentRequest.Amount req) 0%float then
    "amount must be greater than 0"
  else if String.eqb (PaymentRequest.Currency req) "" then "currency is required"
  else if negb (default false (validMethods !! PaymentRequest.PaymentMethod req)) then
    "payment_method must be one of: card, pix, oxxo, pse"
  else if String.eqb (PaymentRequest.CustomerID req) "" then "customer_id is required"
  else "".

(** [fmt.Sprintf("%d", i)] *)
Definition itoa (i : Z) : string :=
  if i <? 0 then "-" +:+ Fmt.dec (- i) else Fmt.dec i.

Definition generateCustomerID (i : Z) : string := "cust-batch-" +:+ itoa i.

(** The counting loop of [summarizeBatch]:
    [(approved, declined, exhausted, totalAttempts)]. *)
Definition count_results (results : list PaymentResult.t) : Z * Z * Z * Z :=
  fold_left
    (fun '(approved, declined, exhausted, totalAttempts) r =>
       let '(approved, declined, exhausted) :=
         match PaymentResult.Status r with
         | StatusApproved => (approved + 1, declined, exhausted)
         | StatusDeclined => (approved, declined + 1, exhausted)
         | StatusExhaustedRetries => (approved, declined, exhausted + 1)
         | StatusUnset => (approved, declined, exhausted)
         end in
       (approved, declined, exhausted, totalAttempts + len (PaymentResult.Attempts r)))
    results (0, 0, 0, 0).

Definition summarizeBatch (results : list PaymentResult.t) : BatchSummary :=
  let '(approved, declined, exhausted, totalAttempts) := count_results results in
  mkSummary (len results) approved declined exhausted
            (PrimFloat.div (float64_of_int approved) (float64_of_int (len results)))
            (PrimFloat.div (float64_of_int totalAttempts) (float64_of_int (len results))).

(** The body of [POST /simulate/batch]. *)
Record batchRequest := mkBatchRequest {
  Count : Z;
  Method : string;
  Currency : string
}.

Section Handlers.
Context {World : Type}.
Variable timeNow : World -> Time * World.
(** [randomHex(n)], from crypto/rand. *)
Variable randomHex : Z -> World -> string * World.
(** [randInt(max)], from math/rand. *)
Variable randInt : Z -> World -> Z * World.

Definition generateTxnID (i : Z) (w : World) : string * World :=
  let '(hex, w) := randomHex 8 w in
  ("batch-" +:+ hex +:+ "-" +:+ itoa i, w).

Definition randomAmount (w : World) : float * World :=
  let '(r, w) := randInt 19500 w in
  (PrimFloat.add 5%float (PrimFloat.div (float64_of_int r) 100%float), w).

(** The [for i := 0; i < req.Count; i++] loop of [SimulateBatch], entered
    at [i] with [k] passes to go. *)
Fixpoint batch_loop (k : nat) (i : Z) (ctx : Ctx) (req : batchRequest)
    (results : list PaymentResult.t) (o : Orchestrator World) (w : World)
  : option (list PaymentResult.t * Orchestrator World * World) :=
  match k with
  | O => Some (results, o, w)
  | S k =>
      let '(txn, w) := generateTxnID i w in
      let '(amount, w) := randomAmount w in
      let payReq :=
        PaymentRequest.mk txn amount (Currency req) (Method req) (generateCustomerID i) in
      match ProcessPayment timeNow o ctx payReq w with
      | None => None
      | Some (result, o, w) =>
          batch_loop k (i + 1) ctx req (results ++ [result]) o w
      end
  end.

Definition SimulateBatch (decoded : DecodeResult batchRequest) (ctx : Ctx)
    (o : Orchestrator World) (w : World)
  : option (HTTPResponse * Orchestrator World * World) :=
  match decoded with
  | DecodeFailed err =>
      Some (writeError StatusBadRequest ("invalid request body: " +:+ err), o, w)
  | Decoded req =>
      if (Count req <=? 0) || (1000 <? Count req) then
        Some (writeError StatusBadRequest "count must be between 1 and 1000", o, w)
      else
        let req :=
          if String.eqb (Method req) "" then mkBatchRequest (Count req) "card" (Currency req)
          else req in
        let req :=
          if String.eqb (Currency req) "" then mkBatchRequest (Count req) (Method req) "USD"
          else req in
        match batch_loop (Z.to_nat (Count req)) 0 ctx req [] o w with
        | None => None
        | Some (results, o, w) =>
            Some (writeJSON StatusOK (SummaryBody (summarizeBatch results)), o, w)
        end
  end.

(** [POST /payments] *)
Definition ProcessPayment (decoded : DecodeResult PaymentRequest.t) (ctx : Ctx)
    (o : Orchestrator World) (w : World)
  : option (HTTPResponse * Orchestrator World * World) :=
  match decoded with
  | DecodeFailed err =>
      Some (writeError StatusBadRequest ("invalid request body: " +:+ err), o, w)
  | Decoded req =>
      let err := validatePaymentRequest req in
      if negb (String.eqb err "") then Some (writeError StatusBadRequest err, o, w)
      else
        match ProcessPayment timeNow o ctx req w with
        | None => None
        | Some (result, o, w) =>
            let status :=
              match PaymentResult.Status result with
              | StatusDeclined | StatusExhaustedRetries => StatusUnprocessableEntity
              | _ => StatusOK
              end in
            Some (writeJSON status (ResultBody result), o, w)
        end
  end.

(** [GET /payments/{id}] *)
Definition GetPaymentHistory (txnID : string) (o : Orchestrator World) : HTTPResponse :=
  if String.eqb txnID "" then writeError StatusBadRequest "transaction ID is required"
  else
    let '(result, ok) := GetPaymentHistory txnID o in
    if negb ok then writeError StatusNotFound ("transaction not found: " +:+ txnID)
    else writeJSON StatusOK (ResultBody result).

(** [GET /health/processors] *)
Definition GetProcessorHealth (o : Orchestrator World) (w : World)
  : HTTPResponse * Orchestrator World * World :=
  let '(healths, m, w) := GetAllHealth timeNow (monitor o) w in
  (writeJSON StatusOK (HealthBody healths), with_monitor o m, w).

End Handlers.
End Handler.

(** * Properties *)

(** ** sort.Slice only permutes *)

Section SlicePermutes.
Context {A : Type}.
Variable less : A -> A -> bool.

Lemma Swap_perm (s : list A) i j : Sort.Swap s i j ≡ₚ s.
Proof.
  unfold Sort.Swap, Sort.at_index.
  destruct (i <? 0); [done|].
  destruct (s !! Z.to_nat i) as [x|] eqn:Hi; [|done].
  destruct (j <? 0); [done|].
  destruct (s !! Z.to_nat j) as [y|] eqn:Hj; [|done].
  by apply Permutation_insert_swap.
Qed.

Ltac perm_step IH :=
  first [ done
        | etrans; [apply IH | first [ done | apply Swap_perm ] ] ].

Lemma insert_down_perm n (s : list A) a j : Sort.insert_down less n s a j ≡ₚ s.
Proof.
  revert s j. induction n as [|n IH]; intros s j; simpl; [done|].
  destruct (_ && _); perm_step IH.
Qed.

Lemma insertion_from_perm n (s : list A) a b i :
  Sort.insertion_from less n s a b i ≡ₚ s.
Proof.
  revert s i. induction n as [|n IH]; intros s i; simpl; [done|].
  destruct (i <? b); [|done].
  etrans; [apply IH | apply insert_down_perm].
Qed.

Lemma insertionSort_perm (s : list A) a b : Sort.insertionSort_func less s a b ≡ₚ s.
Proof. apply insertion_from_perm. Qed.

Lemma siftDown_perm (s : list A) lo hi first :
  Sort.siftDown_func less s lo hi first ≡ₚ s.
Proof.
  unfold Sort.siftDown_func. generalize (Z.to_nat hi) as n.
  intros n. revert s lo. induction n as [|n IH]; intros s lo; simpl; [done|].
  destruct (hi <=? _); [done|].
  destruct (negb _); perm_step IH.
Qed.

Lemma heap_build_perm n (s : list A) i hi first :
  Sort.heap_build less n s i hi first ≡ₚ s.
Proof.
  revert s i. induction n as [|n IH]; intros s i; simpl; [done|].
  destruct (0 <=? i); [|done].
  etrans; [apply IH | apply siftDown_perm].
Qed.

Lemma heap_pop_perm n (s : list A) i lo first :
  Sort.heap_pop less n s i lo first ≡ₚ s.
Proof.
  revert s i. induction n as [|n IH]; intros s i; simpl; [done|].
  destruct (0 <=? i); [|done].
  etrans; [apply IH |]. etrans; [apply siftDown_perm | apply Swap_perm].
Qed.

Lemma heapSort_perm (s : list A) a b : Sort.heapSort_func less s a b ≡ₚ s.
Proof.
  unfold Sort.heapSort_func. etrans; [apply heap_pop_perm | apply heap_build_perm].
Qed.

Lemma breakPatterns_loop_perm n (s : list A) a length idx modulus random i :
  Sort.breakPatterns_loop n s a length idx modulus random i ≡ₚ s.
Proof.
  revert s random i. induction n as [|n IH]; intros s random i; simpl; [done|].
  etrans; [apply IH | apply Swap_perm].
Qed.

Lemma breakPatterns_perm (s : list A) a b : Sort.breakPatterns_func s a b ≡ₚ s.
Proof.
  unfold Sort.breakPatterns_func. destruct (8 <=? _); [|done].
  apply breakPatterns_loop_perm.
Qed.

Lemma reverseRange_perm (s : list A) a b : Sort.reverseRange_func s a b ≡ₚ s.
Proof.
  unfold Sort.reverseRange_func.
  generalize (Z.to_nat (b - a)) as n, (b - 1) as j. intros n. revert s a.
  induction n as [|n IH]; intros s a j; simpl; [done|].
  destruct (a <? j); perm_step IH.
Qed.

Lemma shift_left_perm n (s : list A) j : Sort.shift_left less n s j ≡ₚ s.
Proof.
  revert s j. induction n as [|n IH]; intros s j; simpl; [done|].
  destruct (1 <=? j); [|done]. destruct (negb _); perm_step IH.
Qed.

Lemma shift_right_perm n (s : list A) b j : Sort.shift_right less n s b j ≡ₚ s.
Proof.
  revert s j. induction n as [|n IH]; intros s j; simpl; [done|].
  destruct (j <? b); [|done]. destruct (negb _); perm_step IH.
Qed.

Lemma partialInsertionSort_perm (s : list A) a b :
  (Sort.partialInsertionSort_func less s a b).2 ≡ₚ s.
Proof.
  unfold Sort.partialInsertionSort_func.
  generalize 5%nat as n, (a + 1) as i. intros n. revert s.
  induction n as [|n IH]; intros s i; simpl; [done|].
  destruct (_ =? b); [done|]. destruct (b - a <? 50); [done|].
  etrans; [apply IH|].
  assert (Hs : Sort.Swap s (Sort.skip_ordered less (Z.to_nat (b - i)) s b i)
                 (Sort.skip_ordered less (Z.to_nat (b - i)) s b i - 1) ≡ₚ s)
    by apply Swap_perm.
  destruct (2 <=? b - _); destruct (2 <=? _ - a);
    rewrite ?shift_right_perm, ?shift_left_perm; done.
Qed.

Lemma partitionEqual_perm (s : list A) a b pivot :
  (Sort.partitionEqual_func less s a b pivot).2 ≡ₚ s.
Proof.
  unfold Sort.partitionEqual_func.
  etrans; [|apply (Swap_perm s a pivot)].
  generalize (Sort.Swap s a pivot) as s', (Z.to_nat (b - a)) as n, (a + 1) as i, (b - 1) as j.
  intros s' n. revert s'. induction n as [|n IH]; intros s' i j; simpl; [done|].
  destruct (_ <? _); [done|]. perm_step IH.
Qed.

Lemma partition_loop_perm n (s : list A) a i j :
  (Sort.partition_loop less n s a i j).2 ≡ₚ s.
Proof.
  revert s i j. induction n as [|n IH]; intros s i j; simpl; [done|].
  destruct (_ <? _); [done|]. perm_step IH.
Qed.

Lemma partition_perm (s : list A) a b pivot :
  (Sort.partition_func less s a b pivot).2 ≡ₚ s.
Proof.
  unfold Sort.partition_func.
  destruct (_ <? _); simpl.
  - etrans; apply Swap_perm.
  - destruct (Sort.partition_loop _ _ _ _ _ _) as [j s'] eqn:Hl. simpl.
    etrans; [apply Swap_perm|].
    change s' with (j, s').2. rewrite <- Hl.
    etrans; [apply partition_loop_perm|]. etrans; apply Swap_perm.
Qed.

Lemma pdqsort_loop_perm n (s : list A) a b limit wb wp :
  Sort.pdqsort_loop less n s a b limit wb wp ≡ₚ s.
Proof.
  revert s a b limit wb wp.
  induction n as [|n IH]; intros s a b limit wb wp; simpl; [done|].
  destruct (b - a <=? 12); [apply insertionSort_perm|].
  destruct (limit =? 0); [apply heapSort_perm|].
  set (sl := if negb wb then _ else _).
  assert (Hsl : sl.1 ≡ₚ s).
  { subst sl. destruct (negb wb); simpl; [apply breakPatterns_perm|done]. }
  destruct sl as [s1 limit1]. simpl in Hsl.
  destruct (Sort.choosePivot_func less s1 a b) as [pivot hint].
  set (rv := if Sort.hint_is hint Sort.decreasingHint then _ else _).
  assert (Hrv : rv.1.1 ≡ₚ s).
  { subst rv. destruct (Sort.hint_is _ _); simpl; [|done].
    by rewrite reverseRange_perm. }
  destruct rv as [[s2 pivot2] hint2]. simpl in Hrv.
  set (pi := if _ && _ then _ else _).
  assert (Hpi : pi.2 ≡ₚ s).
  { subst pi. destruct (_ && _); simpl; [|done].
    by rewrite partialInsertionSort_perm. }
  destruct pi as [sorted s3]. simpl in Hpi.
  destruct sorted; [done|].
  destruct (_ && _).
  - pose proof (partitionEqual_perm s3 a b pivot2) as Hpe.
    destruct (Sort.partitionEqual_func _ _ _ _ _) as [mid s4]. simpl in Hpe.
    rewrite IH. by rewrite Hpe.
  - pose proof (partition_perm s3 a b pivot2) as Hp.
    destruct (Sort.partition_func _ _ _ _ _) as [[mid ap] s4]. simpl in Hp.
    destruct (_ <? _); rewrite !IH; by rewrite Hp.
Qed.

Lemma Slice_perm (x : list A) : Sort.Slice less x ≡ₚ x.
Proof. apply pdqsort_loop_perm. Qed.

End SlicePermutes.

(** ** The health monitor *)

Lemma most_recent_drop {A} (n : nat) (s : list A) :
  most_recent n s = drop (length s - n) s.
Proof.
  unfold most_recent. destruct (Nat.ltb_spec n (length s)); [done|].
  replace (length s - n)%nat with 0%nat by lia. done.
Qed.

Lemma most_recent_length {A} (n : nat) (s : list A) :
  (length (most_recent n s) <= n)%nat.
Proof. rewrite most_recent_drop, length_drop. lia. Qed.

Lemma count_outcomes_from (window : list outcome) (a e : Z) :
  fold_left (fun '(a, e) o => if approved o then (a + 1, e) else (a, e + 1))
            window (a, e)
  = (a + approvals window, e + (len window - approvals window)).
Proof.
  revert a e. induction window as [|o window IH]; intros a e.
  - simpl. unfold approvals, len. simpl. f_equal; lia.
  - simpl. destruct (approved o) eqn:Ho; rewrite IH; unfold approvals, len; simpl;
      rewrite Ho; simpl; f_equal; lia.
Qed.

Lemma count_outcomes_spec (window : list outcome) :
  count_outcomes window = (approvals window, len window - approvals window).
Proof. unfold count_outcomes. by rewrite count_outcomes_from. Qed.

Lemma approvals_bounds (window : list outcome) :
  0 <= approvals window <= len window.
Proof.
  unfold approvals, len. pose proof (filter_length approved window). lia.
Qed.

Lemma younger_than_spec (m : Monitor) (now : Time) (window : list outcome) :
  younger_than (Time_Add now (- windowDuration m)) window
  = List.filter (fun o => now - windowDuration m <? timestamp o) window.
Proof. done. Qed.

Section MonitorProps.
Context {World : Type}.
Variable timeNow : World -> Time * World.

Lemma getActiveWindow_spec name m w :
  getActiveWindow timeNow name m w
  = (active_window m name (timeNow w).1, m,
     if len (window_of m name) =? 0 then w else (timeNow w).2).
Proof.
  unfold getActiveWindow, active_window.
  destruct (len (window_of m name) =? 0) eqn:He.
  - apply Z.eqb_eq in He. unfold len in He.
    destruct (window_of m name); [done | simpl in He; lia].
  - destruct (timeNow w) as [now w1]. simpl.
    by rewrite most_recent_drop.
Qed.

Lemma GetHealth_unfold name m w :
  GetHealth timeNow name m w
  = let active := active_window m name (timeNow w).1 in
    let w1 := if len (window_of m name) =? 0 then w else (timeNow w).2 in
    let now := (timeNow w1).1 in
    if len active =? 0 then
      (ProcessorHealth.mk name 1%float StatusHealthy 0 0 0 now, m, (timeNow w1).2)
    else
      let score := score_of_counts (approvals active) (len active) in
      (ProcessorHealth.mk name score (status_of_score score) (len active)
                          (approvals active) (len active - approvals active) now,
       m, (timeNow w1).2).
Proof.
  unfold GetHealth. rewrite getActiveWindow_spec. cbv zeta.
  set (w1 := if len (window_of m name) =? 0 then w else (timeNow w).2).
  clearbody w1.
  destruct (len _ =? 0).
  - by destruct (timeNow w1).
  - rewrite count_outcomes_spec. by destruct (timeNow w1).
Qed.

Lemma GetHealth_monitor name m w : (GetHealth timeNow name m w).1.2 = m.
Proof. rewrite GetHealth_unfold. cbv zeta. by destruct (len _ =? 0). Qed.

Lemma GetHealth_status name m w :
  let h := (GetHealth timeNow name m w).1.1 in
  ProcessorHealth.Status h = status_of_score (ProcessorHealth.HealthScore h).
Proof. rewrite GetHealth_unfold. cbv zeta. by destruct (len _ =? 0). Qed.

Lemma GetAllHealth_fold_monitor names hs m w :
  (fold_left
     (fun '(healths, m, w) name =>
        let '(h, m, w) := GetHealth timeNow name m w in (healths ++ [h], m, w))
     names (hs, m, w)).1.2 = m.
Proof.
  revert hs w. induction names as [|n names IH]; intros hs w; simpl; [done|].
  pose proof (GetHealth_monitor n m w) as Hm.
  destruct (GetHealth timeNow n m w) as [[h m1] w1]. simpl in Hm. subst m1.
  apply IH.
Qed.

Lemma GetAllHealth_monitor m w : (GetAllHealth timeNow m w).1.2 = m.
Proof. apply GetAllHealth_fold_monitor. Qed.

Lemma IsCircuitOpen_monitor name m w : (IsCircuitOpen timeNow name m w).1.2 = m.
Proof.
  unfold IsCircuitOpen. pose proof (GetHealth_monitor name m w) as Hm.
  by destruct (GetHealth timeNow name m w) as [[h m1] w1].
Qed.

Lemma run_read_monitor op m w : (run_read timeNow op m w).1 = m.
Proof.
  destruct op as [name| |name]; simpl.
  - pose proof (GetHealth_monitor name m w).
    by destruct (GetHealth timeNow name m w) as [[h m1] w1].
  - pose proof (GetAllHealth_monitor m w).
    by destruct (GetAllHealth timeNow m w) as [[h m1] w1].
  - pose proof (IsCircuitOpen_monitor name m w).
    by destruct (IsCircuitOpen timeNow name m w) as [[h m1] w1].
Qed.

(** C10.  Read operations never modify the monitor: after any sequence
    of [GetHealth], [GetAllHealth] and [IsCircuitOpen] calls the monitor,
    and so every stored window, is what it was before; the age filter
    and the truncation of a read work on a slice of their own. *)
Theorem monitor_reads_preserve_windows (ops : list ReadOp) (m : Monitor) (w : World) :
  (run_reads timeNow ops m w).1 = m
  /\ forall name, window_of (run_reads timeNow ops m w).1 name = window_of m name.
Proof.
  assert (H : (run_reads timeNow ops m w).1 = m).
  { revert w. induction ops as [|op ops IH]; intros w; simpl; [done|].
    pose proof (run_read_monitor op m w) as Hm.
    destruct (run_read timeNow op m w) as [m1 w1]. simpl in Hm. subst m1.
    apply IH. }
  split; [done|]. intros name. by rewrite H.
Qed.

(** Only [RecordOutcome] writes a window, and only the one it names. *)
Lemma RecordOutcome_other (name other : string) (code : ResponseCode)
    (m : Monitor) (w : World) :
  other <> name ->
  window_of (RecordOutcome timeNow name code m w).1 other = window_of m other.
Proof.
  intros Hne. unfold RecordOutcome. destruct (timeNow w) as [t1 w1].
  unfold pruneWindow. destruct (timeNow w1) as [t2 w2]. simpl.
  unfold window_of. simpl. by rewrite !lookup_insert_ne.
Qed.

(** C4.  [GetHealth] over the active window (the entries younger than
    the window duration at the instant read from the clock, cut to the
    most recent [windowSize]): on a non-empty active window the score is
    approvals / total and the counts are those of the window; on an empty
    one (never recorded, empty, or all entries expired) the snapshot is
    score 1.0, healthy, total 0.  [RecordOutcome] appends an entry that is
    an approval exactly when the code is [approved], then prunes. *)
Theorem GetHealth_postcondition (name : string) (m : Monitor) (w : World) :
  let h := (GetHealth timeNow name m w).1.1 in
  let active := active_window m name (timeNow w).1 in
  ProcessorHealth.ProcessorName h = name
  /\ match active with
     | [] =>
         ProcessorHealth.HealthScore h = 1%float
         /\ ProcessorHealth.Status h = StatusHealthy
         /\ ProcessorHealth.TotalRecent h = 0
         /\ ProcessorHealth.ApprovedCount h = 0
         /\ ProcessorHealth.ErrorCount h = 0
     | _ :: _ =>
         ProcessorHealth.HealthScore h
           = PrimFloat.div (float64_of_int (approvals active))
                           (float64_of_int (len active))
         /\ ProcessorHealth.TotalRecent h = len active
         /\ ProcessorHealth.ApprovedCount h = approvals active
         /\ ProcessorHealth.ErrorCount h = len active - approvals active
     end
  /\ forall code : ResponseCode,
       exists b : bool,
         (b = true <-> code = Approved)
         /\ window_of (RecordOutcome timeNow name code m w).1 name
            = most_recent (windowSize m)
                (younger_than
                   (Time_Add (timeNow (timeNow w).2).1 (- windowDuration m))
                   (window_of m name ++ [mkOutcome b (timeNow w).1])).
Proof.
  cbv zeta. rewrite GetHealth_unfold. cbv zeta. split; [|split].
  - by destruct (len _ =? 0).
  - destruct (active_window m name (timeNow w).1) as [|o active] eqn:Ha.
    + done.
    + replace (len (o :: active) =? 0) with false
        by (symmetry; apply Z.eqb_neq; unfold len; simpl; lia).
      done.
  - intros code. exists (String.eqb code Approved). split.
    + apply String.eqb_eq.
    + unfold RecordOutcome. destruct (timeNow w) as [t1 w1]. simpl.
      unfold pruneWindow. destruct (timeNow w1) as [t2 w2]. simpl.
      unfold window_of at 1. simpl. rewrite lookup_insert_eq. simpl.
      unfold window_of at 1. simpl. by rewrite lookup_insert_eq.
Qed.

End MonitorProps.

(** *** Comparisons of [float64] values *)

Lemma SFcompare_antisym (a b : spec_float) :
  SFcompare b a = option_map CompOpp (SFcompare a b).
Proof.
  destruct a as [sa|sa| |sa ma ea], b as [sb|sb| |sb mb eb]; simpl;
    try destruct sa; try destruct sb; simpl; try reflexivity.
  - change (Pos.compare_cont Eq mb ma) with (Pos.compare mb ma).
    change (Pos.compare_cont Eq ma mb) with (Pos.compare ma mb).
    rewrite (Z.compare_antisym ea eb), (Pos.compare_antisym ma mb).
    destruct (ea ?= eb)%Z; simpl; rewrite ?CompOpp_involutive; reflexivity.
  - change (Pos.compare_cont Eq mb ma) with (Pos.compare mb ma).
    change (Pos.compare_cont Eq ma mb) with (Pos.compare ma mb).
    rewrite (Z.compare_antisym ea eb), (Pos.compare_antisym ma mb).
    destruct (ea ?= eb)%Z; simpl; rewrite ?CompOpp_involutive; reflexivity.
Qed.

Lemma float_ltb_asym (x y : float) :
  PrimFloat.ltb x y = true -> PrimFloat.ltb y x = false.
Proof.
  rewrite !FloatAxioms.ltb_spec. unfold SFltb.
  rewrite (SFcompare_antisym (Prim2SF x) (Prim2SF y)).
  destruct (SFcompare (Prim2SF x) (Prim2SF y)) as [[]|]; simpl; congruence.
Qed.

Lemma SFcompare_Eq_trans (a b c : spec_float) :
  SFcompare a c = Some Eq -> SFcompare b c = Some Eq -> SFcompare a b = Some Eq.
Proof.
  destruct a as [sa|sa| |sa ma ea], b as [sb|sb| |sb mb eb], c as [sc|sc| |sc mc ec];
    simpl; try destruct sa; try destruct sb; try destruct sc; simpl;
    try congruence.
  all: destruct (ea ?= ec)%Z eqn:H1; try congruence;
       destruct (eb ?= ec)%Z eqn:H2; try congruence;
       apply Z.compare_eq in H1, H2; subst; rewrite Z.compare_refl;
       intros Ha Hb; f_equal;
       injection Ha as Ha; injection Hb as Hb;
       change (Pos.compare_cont Eq ?p ?q) with (Pos.compare p q) in *;
       try (apply (f_equal CompOpp) in Ha, Hb; simpl in Ha, Hb;
            rewrite CompOpp_involutive in Ha, Hb);
       apply Pos.compare_eq in Ha, Hb; subst; by rewrite Pos.compare_refl.
Qed.

Lemma float_eqb_class (x y v : float) :
  PrimFloat.eqb x v = true -> PrimFloat.eqb y v = true -> PrimFloat.ltb x y = false.
Proof.
  rewrite !FloatAxioms.eqb_spec, FloatAxioms.ltb_spec. unfold SFeqb, SFltb. intros Hx Hy.
  rewrite (SFcompare_Eq_trans (Prim2SF x) (Prim2SF y) (Prim2SF v)); [done| |].
  - by destruct (SFcompare (Prim2SF x) (Prim2SF v)) as [[]|].
  - by destruct (SFcompare (Prim2SF y) (Prim2SF v)) as [[]|].
Qed.

Lemma float_leb_ltb (x y : float) :
  PrimFloat.leb x y = true -> PrimFloat.ltb y x = false.
Proof.
  rewrite FloatAxioms.leb_spec, FloatAxioms.ltb_spec. unfold SFleb, SFltb.
  rewrite (SFcompare_antisym (Prim2SF x) (Prim2SF y)).
  destruct (SFcompare (Prim2SF x) (Prim2SF y)) as [[]|]; simpl; congruence.
Qed.

(** A score that is at least the degraded threshold is not below the
    circuit-breaker threshold. *)
Lemma at_least_degraded_threshold (s : float) :
  PrimFloat.leb Config.DegradedThreshold s = true ->
  PrimFloat.ltb s Config.CircuitBreakerThreshold = false.
Proof.
  rewrite FloatAxioms.leb_spec, FloatAxioms.ltb_spec. unfold SFleb, SFltb.
  assert (Hd : Prim2SF Config.DegradedThreshold
               = S754_finite false 4503599627370496 (-53))
    by (vm_compute; reflexivity).
  assert (Ho : Prim2SF Config.CircuitBreakerThreshold
               = S754_finite false 7205759403792794 (-55))
    by (vm_compute; reflexivity).
  rewrite Hd, Ho.
  destruct (Prim2SF s) as [sg|sg| |sg m e];
    cbn [SFcompare]; try destruct sg; try congruence.
  destruct (Z.compare_spec (-53) e) as [He|He|He];
    destruct (Z.compare_spec e (-55)) as [He'|He'|He']; try lia; try congruence.
Qed.

Lemma thresholds_table_ok : thresholds_table = true.
Proof. vm_compute. reflexivity. Qed.

Lemma thresholds_exact (a t : Z) :
  0 <= a <= t -> 1 <= t <= 50 ->
  PrimFloat.ltb (score_of_counts a t) Config.CircuitBreakerThreshold = (5 * a <? t)
  /\ PrimFloat.ltb (score_of_counts a t) Config.DegradedThreshold = (2 * a <? t).
Proof.
  intros Ha Ht. pose proof thresholds_table_ok as H.
  unfold thresholds_table in H. rewrite forallb_forall in H.
  specialize (H t). rewrite <- list_elem_of_In, elem_of_seqZ in H.
  specialize (H ltac:(lia)). rewrite forallb_forall in H.
  specialize (H a). rewrite <- list_elem_of_In, elem_of_seqZ in H.
  specialize (H ltac:(lia)). unfold thresholds_agree in H.
  apply andb_prop in H as [H1 H2].
  apply Bool.eqb_prop in H1, H2. done.
Qed.

Lemma active_window_length (m : Monitor) (name : string) (now : Time) :
  (length (active_window m name now) <= windowSize m)%nat.
Proof. unfold active_window. rewrite length_drop. lia. Qed.

Section ThresholdProps.
Context {World : Type}.
Variable timeNow : World -> Time * World.

(** C5.  The status of a snapshot comes from two strict less-than tests
    on the score: a score below 0.2 is circuit_open, a score of at least
    0.2 and below 0.5 is degraded, a score of at least 0.5 is healthy.
    For a window of at most 50 entries (the default size) the two
    floating-point tests coincide with exact arithmetic on the counts:
    approved/total < 1/5 is circuit_open, 1/5 <= approved/total < 1/2 is
    degraded and approved/total >= 1/2 is healthy; so exactly 1/2 (5 of
    10) is healthy and exactly 1/5 (1 of 5) is degraded. *)
Theorem GetHealth_status_thresholds (name : string) (m : Monitor) (w : World) :
  let h := (GetHealth timeNow name m w).1.1 in
  let score := ProcessorHealth.HealthScore h in
  let a := ProcessorHealth.ApprovedCount h in
  let t := ProcessorHealth.TotalRecent h in
  (PrimFloat.ltb score Config.CircuitBreakerThreshold = true ->
   ProcessorHealth.Status h = StatusOpen)
  /\ (PrimFloat.leb Config.CircuitBreakerThreshold score = true ->
      PrimFloat.ltb score Config.DegradedThreshold = true ->
      ProcessorHealth.Status h = StatusDegraded)
  /\ (PrimFloat.leb Config.DegradedThreshold score = true ->
      ProcessorHealth.Status h = StatusHealthy)
  /\ ((windowSize m <= 50)%nat -> t <> 0 ->
      PrimFloat.ltb score Config.CircuitBreakerThreshold = (5 * a <? t)
      /\ PrimFloat.ltb score Config.DegradedThreshold = (2 * a <? t)
      /\ (5 * a < t -> ProcessorHealth.Status h = StatusOpen)
      /\ (t <= 5 * a -> 2 * a < t -> ProcessorHealth.Status h = StatusDegraded)
      /\ (t <= 2 * a -> ProcessorHealth.Status h = StatusHealthy)).
Proof.
  cbv zeta.
  pose proof (GetHealth_status timeNow name m w) as Hst. cbv zeta in Hst.
  rewrite Hst. unfold status_of_score at 1 2 3.
  split; [by intros ->|].
  split; [intros Ho%float_leb_ltb Hd; by rewrite Ho, Hd|].
  split.
  { intros Hd. rewrite (at_least_degraded_threshold _ Hd).
    by rewrite (float_leb_ltb _ _ Hd). }
  clear Hst. intros HW. rewrite GetHealth_unfold. cbv zeta.
  set (active := active_window m name (timeNow w).1).
  destruct (len active =? 0) eqn:He; simpl; [done|]. intros _.
  apply Z.eqb_neq in He.
  pose proof (approvals_bounds active) as Hb.
  pose proof (active_window_length m name (timeNow w).1) as Hl.
  fold active in Hl.
  assert (Hr : 1 <= len active <= 50) by (unfold len in *; lia).
  destruct (thresholds_exact (approvals active) (len active) Hb Hr) as [H1 H2].
  unfold status_of_score. rewrite H1, H2.
  split; [done|]. split; [done|].
  split; [|split].
  - intros H. by rewrite (proj2 (Z.ltb_lt _ _) H).
  - intros Ha Hb'. rewrite (proj2 (Z.ltb_ge _ _) Ha).
    by rewrite (proj2 (Z.ltb_lt _ _) Hb').
  - intros Ha. rewrite (proj2 (Z.ltb_ge _ _) Ha).
    assert (Hc : len active <= 5 * approvals active) by lia.
    by rewrite (proj2 (Z.ltb_ge _ _) Hc).
Qed.

End ThresholdProps.

(** Five approvals of ten: the score is exactly 0.5 and the processor is
    healthy (TestMonitor_BoundaryThresholds). *)
Lemma GetHealth_status_thresholds_witness :
  (windowSize (seeded_monitor 5 5).1 <= 50)%nat
  /\ ProcessorHealth.TotalRecent
       (GetHealth test_timeNow "Proc" (seeded_monitor 5 5).1 (seeded_monitor 5 5).2).1.1
     <> 0
  /\ ProcessorHealth.Status
       (GetHealth test_timeNow "Proc" (seeded_monitor 5 5).1 (seeded_monitor 5 5).2).1.1
     = StatusHealthy.
Proof.
  assert (HW : (windowSize (seeded_monitor 5 5).1 <= 50)%nat) by (vm_compute; lia).
  assert (Ht : ProcessorHealth.TotalRecent
                 (GetHealth test_timeNow "Proc" (seeded_monitor 5 5).1
                            (seeded_monitor 5 5).2).1.1 <> 0)
    by (vm_compute; discriminate).
  split; [exact HW|]. split; [exact Ht|].
  pose proof (GetHealth_status_thresholds test_timeNow "Proc" (seeded_monitor 5 5).1
                (seeded_monitor 5 5).2) as H.
  cbv zeta in H. destruct H as (_ & _ & _ & H).
  destruct (H HW Ht) as (_ & _ & _ & _ & H5).
  apply H5. vm_compute. discriminate.
Defined.

Example score_exactly_half_is_healthy :
  let h := (GetHealth test_timeNow "Proc" (seeded_monitor 5 5).1 (seeded_monitor 5 5).2).1.1 in
  ProcessorHealth.HealthScore h = Config.DegradedThreshold
  /\ ProcessorHealth.Status h = StatusHealthy.
Proof. vm_compute. done. Qed.

Example score_exactly_fifth_is_degraded :
  let h := (GetHealth test_timeNow "Proc" (seeded_monitor 1 4).1 (seeded_monitor 1 4).2).1.1 in
  ProcessorHealth.HealthScore h = Config.CircuitBreakerThreshold
  /\ ProcessorHealth.Status h = StatusDegraded.
Proof. vm_compute. done. Qed.

(** ** The payment store *)

Lemma Get_Save (r : PaymentResult.t) (s : PaymentStore) :
  Get (PaymentResult.TransactionID r) (Save r s) = (r, true).
Proof. unfold Get, Save. simpl. by rewrite lookup_insert_eq. Qed.

(** C9.  [Save(r)] followed by [Get(r.TransactionID)] returns [(r, true)]
    whatever the store held, in particular when an earlier result was
    saved under the same identifier: the last writer wins. *)
Theorem Save_then_Get (r : PaymentResult.t) (s : PaymentStore) :
  Get (PaymentResult.TransactionID r) (Save r s) = (r, true)
  /\ forall st at_ fr,
       Get (PaymentResult.TransactionID r)
           (Save r (Save (PaymentResult.mk (PaymentResult.TransactionID r) st at_ fr) s))
       = (r, true).
Proof.
  split; [apply Get_Save | intros; apply Get_Save].
Qed.

Lemma Save_other (r : PaymentResult.t) (s : PaymentStore) (txnID : string) :
  txnID <> PaymentResult.TransactionID r -> Get txnID (Save r s) = Get txnID s.
Proof. intros Hne. unfold Get, Save. simpl. by rewrite lookup_insert_ne. Qed.

(** ** The orchestrator *)

Lemma returns_impl {R : Type} (x : option R) (P Q : R -> Prop) :
  returns x P -> (forall r, P r -> Q r) -> returns x Q.
Proof. destruct x; simpl; [eauto | done]. Qed.

Lemma Status_eqb_eq (a b : Status) : Status_eqb a b = true <-> a = b.
Proof. destruct a, b; simpl; split; congruence. Qed.

Lemma len_nonneg {A} (l : list A) : 0 <= len l.
Proof. unfold len. lia. Qed.

Lemma len_app {A} (l k : list A) : len (l ++ k) = len l + len k.
Proof. unfold len. rewrite length_app. lia. Qed.

Lemma len_nil_iff {A} (l : list A) : len l = 0 <-> l = [].
Proof. unfold len. destruct l; simpl; split; (done || lia). Qed.

Lemma seqZ_snoc (n : Z) : 0 <= n -> seqZ 1 (n + 1) = seqZ 1 n ++ [n + 1].
Proof.
  intros Hn. rewrite seqZ_app by lia. f_equal.
  replace (1 + n) with (n + 1) by lia. done.
Qed.

Lemma with_monitor_id {World} (o : Orchestrator World) : with_monitor o (monitor o) = o.
Proof. by destruct o. Qed.

Lemma buildRoutingReason_spec {World} (ep : eligibleProcessor World) (n : Z)
    (result : PaymentResult.t) :
  n = len (PaymentResult.Attempts result) ->
  status ep <> StatusOpen ->
  buildRoutingReason ep (n + 1) result
  = Some (routing_reason_spec (healthScore ep) (status ep)
                              (last (PaymentResult.Attempts result))).
Proof.
  intros Hn Hst. unfold buildRoutingReason, routing_reason_spec.
  destruct (n + 1 =? 1) eqn:H1.
  - apply Z.eqb_eq in H1. assert (Hl : len (PaymentResult.Attempts result) = 0) by lia.
    apply len_nil_iff in Hl. rewrite Hl. simpl.
    by destruct (status ep).
  - apply Z.eqb_neq in H1.
    destruct (PaymentResult.Attempts result) as [|a l] eqn:Hl using rev_ind.
    + unfold len in Hn. simpl in Hn. lia.
    + rewrite last_snoc. by destruct (status ep).
Qed.

Lemma buildRoutingReason_is_Some {World} (ep : eligibleProcessor World) (n : Z)
    (result : PaymentResult.t) :
  n = len (PaymentResult.Attempts result) ->
  is_Some (buildRoutingReason ep (n + 1) result).
Proof.
  intros Hn. unfold buildRoutingReason.
  destruct (n + 1 =? 1) eqn:H1.
  - by destruct (Status_eqb _ _).
  - apply Z.eqb_neq in H1.
    destruct (PaymentResult.Attempts result) as [|a l] eqn:Hl using rev_ind.
    + unfold len in Hn. simpl in Hn. lia.
    + rewrite last_snoc. done.
Qed.

Section OrchestratorProps.
Context {World : Type}.
Variable timeNow : World -> Time * World.

Lemma eligible_loop_spec (ps : list (Processor World)) (method : string)
    (acc : list (eligibleProcessor World)) (m : Monitor) (w : World) :
  exists new w',
    eligible_loop timeNow ps method acc m w = (acc ++ new, m, w')
    /\ Forall (fun ep => status ep <> StatusOpen /\ proc ep ∈ ps) new.
Proof.
  revert acc w. induction ps as [|p ps IH]; intros acc w; simpl.
  - exists [], w. by rewrite app_nil_r.
  - assert (Hmono : forall new : list (eligibleProcessor World),
               Forall (fun ep => status ep <> StatusOpen /\ proc ep ∈ ps) new ->
               Forall (fun ep => status ep <> StatusOpen /\ proc ep ∈ p :: ps) new).
    { intros new H. eapply Forall_impl; [exact H|].
      intros ep [? ?]. split; [done|]. by right. }
    destruct (negb (SupportsMethod p method)).
    { destruct (IH acc w) as (new & w' & Heq & Hall). eauto. }
    pose proof (GetHealth_monitor timeNow (Name p) m w) as Hm.
    destruct (GetHealth timeNow (Name p) m w) as [[h m1] w1]. simpl in Hm. subst m1.
    destruct (Status_eqb (ProcessorHealth.Status h) StatusOpen) eqn:Hs.
    { destruct (IH acc w1) as (new & w' & Heq & Hall). eauto. }
    destruct (IH (acc ++ [mkEligible World p (ProcessorHealth.HealthScore h)
                                     (ProcessorHealth.Status h)]) w1)
      as (new & w' & Heq & Hall).
    eexists (_ :: new), w'. rewrite Heq, <- app_assoc. split; [done|].
    constructor; [|by apply Hmono]. simpl. split; [|by left]. intros Ho.
    apply Status_eqb_eq in Ho. congruence.
Qed.

Lemma getEligibleProcessors_spec (o : Orchestrator World) (method : string) (w : World) :
  exists eligible w',
    getEligibleProcessors timeNow o method w = (eligible, o, w')
    /\ Forall (fun ep => status ep <> StatusOpen /\ proc ep ∈ processors o) eligible.
Proof.
  unfold getEligibleProcessors.
  destruct (eligible_loop_spec (processors o) method [] (monitor o) w)
    as (new & w' & Heq & Hall).
  rewrite Heq. simpl. rewrite with_monitor_id.
  eexists _, w'. split; [done|].
  by rewrite Slice_perm.
Qed.

Lemma retry_loop_cons (ctx : Ctx) (req : PaymentRequest.t)
    (ep : eligibleProcessor World) (rest : list (eligibleProcessor World))
    (n : Z) (result : PaymentResult.t) (o : Orchestrator World) (w : World) :
  retry_loop timeNow ctx req (ep :: rest) n result o w
  = if maxRetries o <=? n then
      Some ((retries_exhausted result o).1, (retries_exhausted result o).2, w)
    else
      match buildRoutingReason ep (n + 1) result with
      | None => None
      | Some reason =>
          let resp := (Process (proc ep) ctx req w).1 in
          let w1 := (Process (proc ep) ctx req w).2 in
          let attempt :=
            Attempt.mk (Name (proc ep)) resp reason (n + 1) (timeNow w1).1 in
          let attempts := PaymentResult.Attempts result ++ [attempt] in
          let rec_ := RecordOutcome timeNow (Name (proc ep)) (ProcessorResponse.Code resp)
                                    (monitor o) (timeNow w1).2 in
          let o' := with_monitor o rec_.1 in
          if String.eqb (ProcessorResponse.Code resp) Approved then
            let res := PaymentResult.mk (PaymentResult.TransactionID result)
                                        StatusApproved attempts (Some resp) in
            Some (res, store_Save o' res, rec_.2)
          else if IsHardDecline (ProcessorResponse.Code resp) then
            let res := PaymentResult.mk (PaymentResult.TransactionID result)
                                        StatusDeclined attempts (Some resp) in
            Some (res, store_Save o' res, rec_.2)
          else
            retry_loop timeNow ctx req rest (n + 1)
              (PaymentResult.mk (PaymentResult.TransactionID result)
                                (PaymentResult.Status result) attempts
                                (PaymentResult.FinalResponse result))
              o' rec_.2
      end.
Proof.
  simpl. destruct (maxRetries o <=? n); [done|].
  destruct (buildRoutingReason ep (n + 1) result); [|done].
  destruct (Process (proc ep) ctx req w) as [resp w1]. simpl.
  destruct (timeNow w1) as [now w2]. simpl.
  destruct (RecordOutcome timeNow (Name (proc ep)) (ProcessorResponse.Code resp)
                          (monitor o) w2) as [m w3].
  done.
Qed.

Lemma retry_loop_nil (ctx : Ctx) (req : PaymentRequest.t)
    (n : Z) (result : PaymentResult.t) (o : Orchestrator World) (w : World) :
  retry_loop timeNow ctx req [] n result o w
  = Some ((retries_exhausted result o).1, (retries_exhausted result o).2, w).
Proof. done. Qed.

Lemma retries_exhausted_final (result : PaymentResult.t) (o : Orchestrator World) :
  PaymentResult.FinalResponse result = None ->
  PaymentResult.FinalResponse (retries_exhausted result o).1 <> None
  <-> PaymentResult.Attempts result <> [].
Proof.
  intros Hf. unfold retries_exhausted. simpl.
  destruct (PaymentResult.Attempts result) as [|a l] eqn:Hl using rev_ind.
  - simpl. rewrite Hf. done.
  - rewrite last_snoc, len_app.
    replace (0 <? len l + len [a]) with true
      by (symmetry; apply Z.ltb_lt; pose proof (len_nonneg l); unfold len; simpl; lia).
    simpl. split; [intros _ | done]. by destruct l.
Qed.

(** Shape of what the retry loop returns, from any loop head at which the
    counter equals the number of attempts made so far. *)
Lemma retry_loop_shape (ctx : Ctx) (req : PaymentRequest.t)
    (eligible : list (eligibleProcessor World)) :
  forall (n : Z) (result : PaymentResult.t) (o : Orchestrator World) (w : World),
    n = len (PaymentResult.Attempts result) ->
    Attempt.AttemptNumber <$> PaymentResult.Attempts result = seqZ 1 n ->
    PaymentResult.FinalResponse result = None ->
    returns (retry_loop timeNow ctx req eligible n result o w)
      (fun '(res, o', w') =>
         PaymentResult.TransactionID res = PaymentResult.TransactionID result
         /\ terminal (PaymentResult.Status res)
         /\ (PaymentResult.FinalResponse res <> None <-> PaymentResult.Attempts res <> [])
         /\ Attempt.AttemptNumber <$> PaymentResult.Attempts res
            = seqZ 1 (len (PaymentResult.Attempts res))
         /\ len (PaymentResult.Attempts res) <= Z.max n (maxRetries o)
         /\ store o' = Save res (store o)).
Proof.
  induction eligible as [|ep rest IH]; intros n result o w Hn Hnum Hfin.
  - rewrite retry_loop_nil. simpl.
    split; [done|]. split; [unfold terminal; auto|].
    split; [by apply (retries_exhausted_final result o)|].
    split; [by rewrite <- Hn|]. split; [lia|done].
  - rewrite retry_loop_cons. cbv zeta.
    destruct (maxRetries o <=? n) eqn:Hmax.
    { simpl.
      split; [done|]. split; [unfold terminal; auto|].
      split; [by apply (retries_exhausted_final result o)|].
      split; [by rewrite <- Hn|]. split; [lia|done]. }
    apply Z.leb_gt in Hmax.
    destruct (buildRoutingReason_is_Some ep n result Hn) as [reason ->].
    set (resp := (Process (proc ep) ctx req w).1).
    set (w1 := (Process (proc ep) ctx req w).2).
    set (attempt := Attempt.mk _ _ _ _ _).
    set (rec_ := RecordOutcome _ _ _ _ _).
    assert (Hlen : len (PaymentResult.Attempts result ++ [attempt]) = n + 1).
    { rewrite len_app, <- Hn. done. }
    assert (Hnum' : Attempt.AttemptNumber <$> (PaymentResult.Attempts result ++ [attempt])
                    = seqZ 1 (n + 1)).
    { rewrite fmap_app, Hnum, seqZ_snoc; [done|]. rewrite Hn. apply len_nonneg. }
    destruct (String.eqb _ Approved); [|destruct (IsHardDecline _)].
    + simpl. split; [done|]. split; [unfold terminal; auto|].
      split; [split; [intros _; by destruct (PaymentResult.Attempts result) | done]|].
      split; [by rewrite Hlen|]. split; [lia|done].
    + simpl. split; [done|]. split; [unfold terminal; auto|].
      split; [split; [intros _; by destruct (PaymentResult.Attempts result) | done]|].
      split; [by rewrite Hlen|]. split; [lia|done].
    + eapply returns_impl.
      { apply IH; simpl; [by rewrite Hlen | done | done]. }
      intros [[res o'] w']. simpl. intros (Hid & Ht & Hf & Hnm & Hle & Hst).
      repeat split; try done; try tauto. lia.
Qed.


(** What the retry loop returns ends either exhausted, every attempt
    having failed in a way that lets the loop go on, or right after the
    first attempt that was approved or hard-declined. *)
Lemma retry_loop_outcome (ctx : Ctx) (req : PaymentRequest.t)
    (eligible : list (eligibleProcessor World)) :
  forall (n : Z) (result : PaymentResult.t) (o : Orchestrator World) (w : World),
    n = len (PaymentResult.Attempts result) ->
    Forall goes_on (PaymentResult.Attempts result) ->
    returns (retry_loop timeNow ctx req eligible n result o w)
      (fun '(res, o', w') =>
         (PaymentResult.Status res = StatusExhaustedRetries
          /\ Forall goes_on (PaymentResult.Attempts res))
         \/ (exists pre a,
               PaymentResult.Attempts res = pre ++ [a]
               /\ Forall goes_on pre
               /\ PaymentResult.FinalResponse res = Some (Attempt.Response a)
               /\ ((ProcessorResponse.Code (Attempt.Response a) = Approved
                    /\ PaymentResult.Status res = StatusApproved)
                   \/ (IsHardDecline (ProcessorResponse.Code (Attempt.Response a)) = true
                       /\ PaymentResult.Status res = StatusDeclined)))).
Proof.
  induction eligible as [|ep rest IH]; intros n result o w Hn Hall.
  - rewrite retry_loop_nil. simpl. by left.
  - rewrite retry_loop_cons. cbv zeta.
    destruct (maxRetries o <=? n); [simpl; by left|].
    destruct (buildRoutingReason_is_Some ep n result Hn) as [reason ->].
    set (resp := (Process (proc ep) ctx req w).1).
    set (w1 := (Process (proc ep) ctx req w).2).
    set (attempt := Attempt.mk _ _ _ _ _).
    set (rec_ := RecordOutcome _ _ _ _ _).
    destruct (String.eqb _ Approved) eqn:Ha; [|destruct (IsHardDecline _) eqn:Hh].
    + simpl. right. exists (PaymentResult.Attempts result), attempt.
      apply String.eqb_eq in Ha. simpl. repeat split; try done. by left.
    + simpl. right. exists (PaymentResult.Attempts result), attempt. simpl.
      repeat split; try done. by right.
    + apply IH; simpl.
      * rewrite len_app, <- Hn. done.
      * apply Forall_app. split; [done|]. constructor; [|done].
        split; simpl; [|done]. by apply String.eqb_neq.
Qed.

(** The trail the retry loop appends: attempt [j] goes to the [j]-th
    eligible processor, is numbered accordingly, and carries the routing
    reason built from the attempt before it. *)
Lemma retry_loop_trail (ctx : Ctx) (req : PaymentRequest.t)
    (eligible : list (eligibleProcessor World)) :
  forall (n : Z) (result : PaymentResult.t) (o : Orchestrator World) (w : World),
    n = len (PaymentResult.Attempts result) ->
    Forall (fun ep => status ep <> StatusOpen) eligible ->
    returns (retry_loop timeNow ctx req eligible n result o w)
      (fun '(res, o', w') =>
         exists new,
           PaymentResult.Attempts res = PaymentResult.Attempts result ++ new
           /\ forall (j : nat) (a : Attempt.t),
                new !! j = Some a ->
                exists ep,
                  eligible !! j = Some ep
                  /\ Attempt.ProcessorName a = Name (proc ep)
                  /\ Attempt.AttemptNumber a = n + Z.of_nat j + 1
                  /\ Attempt.RoutingReason a
                     = routing_reason_spec (healthScore ep) (status ep)
                         (last (PaymentResult.Attempts result ++ take j new))).
Proof.
  induction eligible as [|ep rest IH]; intros n result o w Hn Hall.
  - rewrite retry_loop_nil. simpl. exists []. rewrite app_nil_r. split; [done|].
    intros j a Hj. by rewrite lookup_nil in Hj.
  - rewrite retry_loop_cons. cbv zeta.
    destruct (maxRetries o <=? n).
    { simpl. exists []. rewrite app_nil_r. split; [done|].
      intros j a Hj. by rewrite lookup_nil in Hj. }
    apply Forall_cons in Hall as [Hep Hall].
    rewrite (buildRoutingReason_spec ep n result Hn Hep).
    set (resp := (Process (proc ep) ctx req w).1).
    set (w1 := (Process (proc ep) ctx req w).2).
    set (attempt := Attempt.mk _ _ _ _ _).
    set (rec_ := RecordOutcome _ _ _ _ _).
    assert (Hone : forall (j : nat) (a : Attempt.t),
               [attempt] !! j = Some a ->
               exists ep0,
                 (ep :: rest) !! j = Some ep0
                 /\ Attempt.ProcessorName a = Name (proc ep0)
                 /\ Attempt.AttemptNumber a = n + Z.of_nat j + 1
                 /\ Attempt.RoutingReason a
                    = routing_reason_spec (healthScore ep0) (status ep0)
                        (last (PaymentResult.Attempts result ++ take j [attempt]))).
    { intros [|j] a Hj; simpl in Hj; [|by rewrite lookup_nil in Hj].
      injection Hj as <-. exists ep. simpl. rewrite app_nil_r.
      repeat split; try done. lia. }
    destruct (String.eqb _ Approved); [|destruct (IsHardDecline _)].
    + simpl. by exists [attempt].
    + simpl. by exists [attempt].
    + eapply returns_impl.
      { apply (IH (n + 1)); simpl; [|done]. rewrite len_app, <- Hn. done. }
      intros [[res o'] w']. simpl. intros (new & Hnew & Hj).
      exists (attempt :: new). split; [by rewrite Hnew, <- app_assoc|].
      intros [|j] a Ha.
      * apply (Hone 0%nat a). done.
      * simpl in Ha. destruct (Hj j a Ha) as (ep0 & He0 & Hname & Hnum & Hreason).
        exists ep0. simpl. repeat split; try done; [lia|].
        rewrite Hreason. f_equal. f_equal. by rewrite <- app_assoc.
Qed.

(** When every invocation returns a code that lets the loop go on, the
    loop uses every slot it has. *)
Lemma retry_loop_all_go_on (ctx : Ctx) (req : PaymentRequest.t)
    (eligible : list (eligibleProcessor World)) :
  forall (n : Z) (result : PaymentResult.t) (o : Orchestrator World) (w : World),
    n = len (PaymentResult.Attempts result) ->
    Forall (fun ep => forall w0,
              ProcessorResponse.Code (Process (proc ep) ctx req w0).1 = Timeout)
           eligible ->
    returns (retry_loop timeNow ctx req eligible n result o w)
      (fun '(res, o', w') =>
         PaymentResult.Status res = StatusExhaustedRetries
         /\ len (PaymentResult.Attempts res)
            = Z.min (n + len eligible) (Z.max n (maxRetries o))
         /\ exists new,
              PaymentResult.Attempts res = PaymentResult.Attempts result ++ new
              /\ Forall (fun a => ProcessorResponse.Code (Attempt.Response a) = Timeout)
                        new).
Proof.
  induction eligible as [|ep rest IH]; intros n result o w Hn Hall.
  - rewrite retry_loop_nil. simpl. split; [done|].
    split; [unfold len at 2; simpl; lia|]. exists []. by rewrite app_nil_r.
  - rewrite retry_loop_cons. cbv zeta.
    assert (Hl : len (ep :: rest) = len rest + 1) by (unfold len; simpl; lia).
    pose proof (len_nonneg rest) as Hr.
    destruct (maxRetries o <=? n) eqn:Hmax.
    { apply Z.leb_le in Hmax. simpl. split; [done|].
      split; [lia|]. exists []. by rewrite app_nil_r. }
    apply Z.leb_gt in Hmax.
    apply Forall_cons in Hall as [Hep Hall].
    destruct (buildRoutingReason_is_Some ep n result Hn) as [reason ->].
    rewrite (Hep w). simpl.
    eapply returns_impl.
    { apply (IH (n + 1)); simpl; [|done]. rewrite len_app, <- Hn. done. }
    intros [[res o'] w']. simpl. intros (Hst & Hlen & new & Hnew & Hcodes).
    split; [done|]. split; [lia|].
    eexists (_ :: new). split; [by rewrite Hnew, <- app_assoc|].
    constructor; [|done]. simpl. apply Hep.
Qed.


Lemma last_take_lookup {A} (l : list A) (j : nat) :
  is_Some (l !! j) ->
  last (take j l) = match j with O => None | S k => l !! k end.
Proof.
  intros Hj. apply lookup_lt_is_Some in Hj.
  destruct j as [|k]; [by rewrite take_0|].
  rewrite last_lookup, length_take, Nat.min_l by lia. simpl.
  by rewrite lookup_take_lt by lia.
Qed.

(** C6.  [ProcessPayment] returns a result whose status is terminal and
    whose final response is set exactly when at least one attempt was
    made; the result is the one stored under the request's transaction
    identifier; with no eligible processor it is declined with no attempt
    and no final response. *)
Theorem ProcessPayment_terminal_result (o : Orchestrator World) (ctx : Ctx)
    (req : PaymentRequest.t) (w : World) :
  returns (ProcessPayment timeNow o ctx req w)
    (fun '(res, o', w') =>
       terminal (PaymentResult.Status res)
       /\ (PaymentResult.FinalResponse res <> None <-> PaymentResult.Attempts res <> [])
       /\ GetPaymentHistory (PaymentRequest.TransactionID req) o' = (res, true)
       /\ ((getEligibleProcessors timeNow o (PaymentRequest.PaymentMethod req) w).1.1 = [] ->
           PaymentResult.Status res = StatusDeclined
           /\ PaymentResult.Attempts res = []
           /\ PaymentResult.FinalResponse res = None)).
Proof.
  unfold ProcessPayment.
  destruct (getEligibleProcessors_spec o (PaymentRequest.PaymentMethod req) w)
    as (eligible & w' & Heq & _).
  rewrite Heq. simpl.
  destruct (len eligible =? 0) eqn:He.
  - simpl. split; [unfold terminal; auto|]. split; [done|].
    split; [|done]. unfold GetPaymentHistory. simpl.
    apply (Get_Save (PaymentResult.mk _ _ _ _)).
  - apply Z.eqb_neq in He.
    eapply returns_impl.
    { by apply (retry_loop_shape ctx req eligible 0). }
    intros [[res o'] w'']. simpl. intros (Hid & Ht & Hf & _ & _ & Hst).
    split; [done|]. split; [done|]. split.
    + unfold GetPaymentHistory. rewrite Hst, <- Hid. apply Get_Save.
    + intros ->. done.
Qed.

(** C7.  A result of [ProcessPayment] has at most 3 attempts, numbered
    1, 2, ..., n in order. *)
Theorem ProcessPayment_attempts_bounded (ps : list (Processor World)) (m : Monitor)
    (st : PaymentStore) (ctx : Ctx) (req : PaymentRequest.t) (w : World) :
  returns (ProcessPayment timeNow (mkOrchestrator World ps m st Config.MaxRetries) ctx req w)
    (fun '(res, o', w') =>
       len (PaymentResult.Attempts res) <= 3
       /\ Attempt.AttemptNumber <$> PaymentResult.Attempts res
          = seqZ 1 (len (PaymentResult.Attempts res))).
Proof.
  unfold ProcessPayment.
  destruct (getEligibleProcessors_spec (mkOrchestrator World ps m st Config.MaxRetries)
              (PaymentRequest.PaymentMethod req) w) as (eligible & w' & Heq & _).
  rewrite Heq. simpl.
  destruct (len eligible =? 0).
  - simpl. split; [unfold len; simpl; lia | done].
  - eapply returns_impl.
    { by apply (retry_loop_shape ctx req eligible 0). }
    intros [[res o'] w'']. simpl. intros (_ & _ & _ & Hnum & Hle & _).
    split; [|done]. unfold Config.MaxRetries in Hle. lia.
Qed.

(** C3, as the code has it.  An attempt that returns a hard decline is the
    last attempt of the result: no processor is tried after it, the status
    is declined and the final response is that decline.  In particular a
    hard decline on the first attempt leaves exactly one attempt.  Attempts
    that failed retriably before it stay in the trail. *)
Theorem hard_decline_is_last_attempt (o : Orchestrator World) (ctx : Ctx)
    (req : PaymentRequest.t) (w : World) :
  returns (ProcessPayment timeNow o ctx req w)
    (fun '(res, o', w') =>
       forall (i : nat) (a : Attempt.t),
         PaymentResult.Attempts res !! i = Some a ->
         IsHardDecline (ProcessorResponse.Code (Attempt.Response a)) = true ->
         length (PaymentResult.Attempts res) = S i
         /\ PaymentResult.Status res = StatusDeclined
         /\ PaymentResult.FinalResponse res = Some (Attempt.Response a)).
Proof.
  unfold ProcessPayment.
  destruct (getEligibleProcessors_spec o (PaymentRequest.PaymentMethod req) w)
    as (eligible & w' & Heq & _).
  rewrite Heq. simpl.
  destruct (len eligible =? 0).
  { simpl. intros i a Hi. by rewrite lookup_nil in Hi. }
  eapply returns_impl.
  { by apply (retry_loop_outcome ctx req eligible 0). }
  intros [[res o'] w'']. simpl.
  intros [[_ Hall] | (pre & a0 & Hat & Hpre & Hfin & Hcase)] i a Hi Hhard.
  - rewrite Forall_lookup in Hall. destruct (Hall i a Hi) as [_ Hno]. congruence.
  - rewrite Hat in Hi. rewrite Hat, length_app. simpl.
    destruct (decide (i < length pre)%nat) as [Hlt | Hge].
    + rewrite lookup_app_l in Hi by done.
      rewrite Forall_lookup in Hpre. destruct (Hpre i a Hi) as [_ Hno]. congruence.
    + rewrite lookup_app_r in Hi by lia.
      destruct (i - length pre)%nat as [|k] eqn:Hk; simpl in Hi;
        [|by rewrite lookup_nil in Hi].
      injection Hi as <-. split; [lia|].
      destruct Hcase as [[Hap _] | [_ Hst]]; [|done].
      rewrite Hap in Hhard. discriminate.
Qed.

(** C8.  Attempt [i] of a result goes to the [i]-th eligible processor,
    which is healthy or degraded, and its routing reason is one of the four
    formats: without a previous attempt the primary format, after one the
    fallback format naming the previous processor and its code, each in
    its degraded variant exactly when the chosen processor is degraded. *)
Theorem ProcessPayment_routing_reasons (o : Orchestrator World) (ctx : Ctx)
    (req : PaymentRequest.t) (w : World) :
  returns (ProcessPayment timeNow o ctx req w)
    (fun '(res, o', w') =>
       let eligible :=
         (getEligibleProcessors timeNow o (PaymentRequest.PaymentMethod req) w).1.1 in
       forall (i : nat) (a : Attempt.t),
         PaymentResult.Attempts res !! i = Some a ->
         exists ep,
           eligible !! i = Some ep
           /\ (status ep = StatusHealthy \/ status ep = StatusDegraded)
           /\ Attempt.ProcessorName a = Name (proc ep)
           /\ Attempt.AttemptNumber a = Z.of_nat i + 1
           /\ Attempt.RoutingReason a
              = routing_reason_spec (healthScore ep) (status ep)
                  (match i with
                   | O => None
                   | S k => PaymentResult.Attempts res !! k
                   end)).
Proof.
  unfold ProcessPayment.
  destruct (getEligibleProcessors_spec o (PaymentRequest.PaymentMethod req) w)
    as (eligible & w' & Heq & Hall).
  rewrite Heq. simpl.
  destruct (len eligible =? 0).
  { simpl. intros i a Hi. by rewrite lookup_nil in Hi. }
  assert (Hopen : Forall (fun ep => status ep <> StatusOpen) eligible).
  { eapply Forall_impl; [exact Hall|]. by intros ep [? _]. }
  eapply returns_impl.
  { by apply (retry_loop_trail ctx req eligible 0). }
  intros [[res o'] w'']. simpl. intros (new & Hnew & Hj) i a Hi.
  rewrite Hnew in Hi. destruct (Hj i a Hi) as (ep & He & Hname & Hnum & Hreason).
  exists ep. split; [done|].
  split.
  { rewrite Forall_lookup in Hopen. specialize (Hopen i ep He).
    destruct (status ep); auto. done. }
  split; [done|]. split; [lia|].
  rewrite Hreason, Hnew. f_equal. by apply last_take_lookup.
Qed.

(** C1, as the code has it.  [ProcessPayment] never inspects the
    cancellation signal, it only hands it to each processor.  The timeout
    of a cancelled invocation is a retriable failure like any other: when
    every invocation answers [timeout], as it does while the signal stays
    cancelled, the next eligible processor is attempted until the eligible
    list or the cap of 3 is used up, and the status is exhausted_retries. *)
Theorem timeouts_use_every_slot (ps : list (Processor World)) (m : Monitor)
    (st : PaymentStore) (ctx : Ctx) (req : PaymentRequest.t) (w : World) :
  (forall p w0, p ∈ ps -> ProcessorResponse.Code (Process p ctx req w0).1 = Timeout) ->
  returns (ProcessPayment timeNow (mkOrchestrator World ps m st Config.MaxRetries) ctx req w)
    (fun '(res, o', w') =>
       let eligible :=
         (getEligibleProcessors timeNow (mkOrchestrator World ps m st Config.MaxRetries)
                                (PaymentRequest.PaymentMethod req) w).1.1 in
       len (PaymentResult.Attempts res) = Z.min (len eligible) 3
       /\ Forall (fun a => ProcessorResponse.Code (Attempt.Response a) = Timeout)
                 (PaymentResult.Attempts res)
       /\ (eligible <> [] -> PaymentResult.Status res = StatusExhaustedRetries)).
Proof.
  intros Hto. unfold ProcessPayment.
  destruct (getEligibleProcessors_spec (mkOrchestrator World ps m st Config.MaxRetries)
              (PaymentRequest.PaymentMethod req) w) as (eligible & w' & Heq & Hall).
  rewrite Heq. simpl.
  destruct (len eligible =? 0) eqn:He.
  - apply Z.eqb_eq in He. simpl. rewrite He.
    split; [done|]. split; [done|]. apply len_nil_iff in He. done.
  - eapply returns_impl.
    { apply (retry_loop_all_go_on ctx req eligible 0); [done|].
      eapply Forall_impl; [exact Hall|]. simpl. intros ep [_ Hin] w0. by apply Hto. }
    intros [[res o'] w'']. simpl. intros (Hst & Hlen & new & Hnew & Hcodes).
    split; [unfold Config.MaxRetries in Hlen; lia|].
    split; [by rewrite Hnew|done].
Qed.

End OrchestratorProps.

(** ** Concrete runs *)

(** Four processors that each answer [timeout], a request whose context
    is cancelled: three attempts, exhausted_retries. *)
Lemma timeouts_use_every_slot_witness :
  (forall p w0, p ∈ timeout_pool ->
     ProcessorResponse.Code (Process p cancelled_ctx (cardRequest "tx-1") w0).1 = Timeout)
  /\ returns (ProcessPayment test_timeNow
                (mkOrchestrator TestWorld timeout_pool NewMonitor NewPaymentStore
                                Config.MaxRetries)
                cancelled_ctx (cardRequest "tx-1") world0)
       (fun '(res, o', w') =>
          let eligible :=
            (getEligibleProcessors test_timeNow
               (mkOrchestrator TestWorld timeout_pool NewMonitor NewPaymentStore
                               Config.MaxRetries)
               (PaymentRequest.PaymentMethod (cardRequest "tx-1")) world0).1.1 in
          len (PaymentResult.Attempts res) = Z.min (len eligible) 3
          /\ Forall (fun a => ProcessorResponse.Code (Attempt.Response a) = Timeout)
                    (PaymentResult.Attempts res)
          /\ (eligible <> [] -> PaymentResult.Status res = StatusExhaustedRetries)).
Proof.
  assert (H : forall p w0, p ∈ timeout_pool ->
            ProcessorResponse.Code (Process p cancelled_ctx (cardRequest "tx-1") w0).1
            = Timeout).
  { intros p w0 Hp. unfold timeout_pool in Hp.
    repeat (apply elem_of_cons in Hp as [-> | Hp]; [reflexivity|]).
    by apply elem_of_nil in Hp. }
  split; [exact H|].
  exact (timeouts_use_every_slot test_timeNow timeout_pool NewMonitor NewPaymentStore
           cancelled_ctx (cardRequest "tx-1") world0 H).
Defined.

(** C1, counterexample.  The reference pool serves a card request whose
    context was cancelled before the request arrived and stays cancelled.
    Every invocation returns [timeout] at once, and still the orchestrator
    goes on to a second and a third processor. *)
Lemma cancelled_request_is_retried :
  (forall t, clock busy_world <= t -> ctx_done cancelled_ctx t = true)
  /\ returns (ProcessPayment test_timeNow (New Mock.reference_pool NewMonitor)
                cancelled_ctx (cardRequest "tx-1") busy_world)
       (fun '(res, o', w') =>
          trail res = [("PayFlow", Timeout, 1); ("CardMax", Timeout, 2);
                       ("PixPay", Timeout, 3)]
          /\ PaymentResult.Status res = StatusExhaustedRetries).
Proof.
  split.
  - intros t Ht. unfold ctx_done, cancelled_ctx. simpl.
    apply Z.leb_le. unfold busy_world in Ht. simpl in Ht. lia.
  - vm_compute. done.
Qed.

(** C3, counterexample.  ProcA soft-declines, ProcB declines for fraud:
    the request ends with a hard decline and its result has two attempts. *)
Lemma hard_decline_after_soft_decline :
  returns (ProcessPayment test_timeNow (New soft_then_fraud_pool NewMonitor)
             Background (cardRequest "tx-1") world0)
    (fun '(res, o', w') =>
       PaymentResult.Status res = StatusDeclined
       /\ ProcessorResponse.Code <$> PaymentResult.FinalResponse res = Some DeclinedFraud
       /\ IsHardDecline DeclinedFraud = true
       /\ trail res = [("ProcA", SoftDecline, 1); ("ProcB", DeclinedFraud, 2)]
       /\ length (PaymentResult.Attempts res) <> 1%nat).
Proof. vm_compute. repeat split; done. Qed.

(** C2.  Where the code departs from configuration order on ties.
    Thirteen card processors, of which the first configured has score 0.5
    and the other twelve score 1.0.  [sort.Slice] is not a stable sort:
    the eligible list puts P06 before P01, ..., P05, which have the same
    score and are configured before it, and the first attempt goes to
    P06 instead of P01. *)
Lemma eligible_order_not_stable :
  let filtered :=
    (eligible_loop test_timeNow pool13 "card" [] monitor13.1 monitor13.2).1.1 in
  let eligible :=
    (getEligibleProcessors test_timeNow (New pool13 monitor13.1) "card" monitor13.2).1.1 in
  (fun ep => Name (proc ep)) <$> filtered = pool13_names
  /\ healthScore <$> filtered = 0.5%float :: replicate 12 1%float
  /\ (fun ep => Name (proc ep)) <$> eligible
     = ["P06"; "P01"; "P02"; "P03"; "P04"; "P05";
        "P07"; "P08"; "P09"; "P10"; "P11"; "P12"; "P00"]
  /\ List.filter (same_score 1%float) eligible <> List.filter (same_score 1%float) filtered
  /\ returns (ProcessPayment test_timeNow (New pool13 monitor13.1) Background
                (cardRequest "tx-1") monitor13.2)
       (fun '(res, o', w') => trail res = [("P06", Approved, 1)]).
Proof.
  cbv zeta. split; [vm_compute; done|]. split; [vm_compute; done|].
  split; [vm_compute; done|]. split; [|vm_compute; done].
  intros H. apply (f_equal (fmap (fun ep => Name (proc ep)))) in H.
  vm_compute in H. discriminate.
Qed.

(** With the four processors of the reference pool, all without history,
    the eligible list for a card payment is in configuration order. *)
Example reference_pool_order :
  (fun ep => Name (proc ep))
    <$> (getEligibleProcessors test_timeNow (New Mock.reference_pool NewMonitor) "card"
                               world0).1.1
  = ["PayFlow"; "CardMax"; "PixPay"; "GlobalPay"].
Proof. vm_compute. done. Qed.

(** ** The order of the eligible list *)

Section InsertionSort.
Context {A : Type}.
Variable less : A -> A -> bool.

Lemma ins_rev_length (y : A) (rp : list A) :
  length (ins_rev less y rp) = S (length rp).
Proof. induction rp as [|x rp IH]; simpl; [done|]. destruct (less y x); simpl; lia. Qed.

Lemma insert_last_length (pre : list A) (y : A) :
  length (insert_last less pre y) = S (length pre).
Proof. unfold insert_last. by rewrite length_rev, ins_rev_length, length_rev. Qed.

Lemma insert_last_snoc (pre : list A) (x y : A) :
  insert_last less (pre ++ [x]) y
  = if less y x then insert_last less pre y ++ [x] else pre ++ [x; y].
Proof.
  unfold insert_last. rewrite rev_app_distr. simpl.
  destruct (less y x); simpl.
  - done.
  - rewrite rev_involutive. by rewrite <- app_assoc.
Qed.

Lemma swap_adjacent_nat (pre : list A) (x y : A) (rest : list A) :
  <[S (length pre) := x]> (<[length pre := y]> (pre ++ x :: y :: rest))
  = pre ++ y :: x :: rest.
Proof. induction pre as [|p pre IH]; simpl; [done|]. by rewrite IH. Qed.

Lemma at_index_middle (pre : list A) (y : A) (rest : list A) :
  Sort.at_index (pre ++ y :: rest) (len pre) = Some y.
Proof.
  unfold Sort.at_index, len.
  replace (Z.of_nat (length pre) <? 0) with false by (symmetry; apply Z.ltb_ge; lia).
  rewrite Nat2Z.id. by apply list_lookup_middle.
Qed.

Lemma Swap_adjacent (pre : list A) (x y : A) (rest : list A) :
  Sort.Swap (pre ++ x :: y :: rest) (len pre + 1) (len pre) = pre ++ y :: x :: rest.
Proof.
  unfold Sort.Swap. rewrite at_index_middle.
  replace (pre ++ x :: y :: rest) with ((pre ++ [x]) ++ y :: rest) at 1
    by (by rewrite <- app_assoc).
  replace (len pre + 1) with (len (pre ++ [x])) at 1 by apply len_app.
  rewrite at_index_middle.
  replace (Z.to_nat (len pre + 1)) with (S (length pre)) by (unfold len; lia).
  replace (Z.to_nat (len pre)) with (length pre) by (unfold len; lia).
  apply swap_adjacent_nat.
Qed.

Lemma Less_adjacent (pre : list A) (x y : A) (rest : list A) :
  Sort.Less less (pre ++ x :: y :: rest) (len pre + 1) (len pre + 1 - 1) = less y x.
Proof.
  unfold Sort.Less. replace (len pre + 1 - 1) with (len pre) by lia.
  rewrite at_index_middle.
  replace (pre ++ x :: y :: rest) with ((pre ++ [x]) ++ y :: rest)
    by (by rewrite <- app_assoc).
  replace (len pre + 1) with (len (pre ++ [x])) by apply len_app.
  by rewrite at_index_middle.
Qed.

(** The inner loop of [insertionSort_func] inserts the element at the end
    of the sorted prefix. *)
Lemma insert_down_spec (pre : list A) :
  forall (n : nat) (y : A) (rest : list A),
    (length pre <= n)%nat ->
    Sort.insert_down less n (pre ++ y :: rest) 0 (len pre)
    = insert_last less pre y ++ rest.
Proof.
  induction pre as [|x pre IH] using rev_ind; intros n y rest Hn.
  - destruct n; done.
  - rewrite length_app in Hn. simpl in Hn.
    destruct n as [|n]; [lia|]. simpl.
    rewrite len_app. change (len [x]) with 1.
    replace (0 <? len pre + 1) with true
      by (symmetry; apply Z.ltb_lt; pose proof (len_nonneg pre); lia).
    rewrite <- app_assoc. simpl.
    rewrite Less_adjacent, insert_last_snoc.
    destruct (less y x); simpl.
    + replace (len pre + 1 - 1) with (len pre) by lia.
      rewrite Swap_adjacent, IH by lia. by rewrite <- app_assoc.
    + by rewrite <- app_assoc.
Qed.

Lemma insertion_from_spec (rest : list A) :
  forall (n : nat) (pre : list A),
    (length rest <= n)%nat ->
    Sort.insertion_from less n (pre ++ rest) 0 (len (pre ++ rest)) (len pre)
    = fold_left (insert_last less) rest pre.
Proof.
  induction rest as [|y rest IH]; intros n pre Hn.
  - rewrite app_nil_r. destruct n; simpl; [done|]. by rewrite Z.ltb_irrefl.
  - simpl in Hn. destruct n as [|n]; [lia|]. simpl.
    replace (len pre <? len (pre ++ y :: rest)) with true
      by (symmetry; apply Z.ltb_lt; rewrite len_app; unfold len; simpl; lia).
    replace (Z.to_nat (len pre - 0)) with (length pre) by (unfold len; lia).
    rewrite insert_down_spec by done.
    replace (len (pre ++ y :: rest)) with (len (insert_last less pre y ++ rest))
      by (rewrite !len_app; unfold len; rewrite insert_last_length; simpl; lia).
    replace (len pre + 1) with (len (insert_last less pre y))
      by (unfold len; rewrite insert_last_length; lia).
    apply IH. lia.
Qed.

Lemma insertionSort_spec (s : list A) :
  Sort.insertionSort_func less s 0 (len s) = isort less s.
Proof.
  unfold Sort.insertionSort_func, isort. destruct s as [|x rest]; [done|].
  change (x :: rest) with ([x] ++ rest).
  replace (0 + 1) with (len [x]) by done.
  rewrite insertion_from_spec; [done|].
  unfold len. rewrite length_app. simpl. lia.
Qed.

(** On a slice of at most 12 elements [sort.Slice] is insertion sort. *)
Lemma Slice_small (s : list A) :
  (length s <= 12)%nat -> Sort.Slice less s = isort less s.
Proof.
  intros Hs. unfold Sort.Slice, Sort.pdqsort_func.
  replace (Z.to_nat (len s - 0) + 1)%nat with (S (length s)) by (unfold len; lia).
  simpl. replace (len s - 0 <=? 12) with true
    by (symmetry; apply Z.leb_le; unfold len; lia).
  apply insertionSort_spec.
Qed.

(** Entries none of which is [less] than another keep their order. *)
Lemma ins_rev_filter (P : A -> bool) (y : A) (rp : list A) :
  (forall a b, P a = true -> P b = true -> less a b = false) ->
  List.filter P (ins_rev less y rp) = List.filter P (y :: rp).
Proof.
  intros HP. induction rp as [|x rp IH]; [done|]. simpl.
  destruct (less y x) eqn:Hyx; [|done]. simpl. rewrite IH. simpl.
  destruct (P x) eqn:Hx, (P y) eqn:Hy; try done.
  rewrite (HP y x Hy Hx) in Hyx. done.
Qed.

Lemma isort_filter (P : A -> bool) (s : list A) :
  (forall a b, P a = true -> P b = true -> less a b = false) ->
  List.filter P (isort less s) = List.filter P s.
Proof.
  intros HP. unfold isort.
  assert (H : forall pre, List.filter P (fold_left (insert_last less) s pre)
                          = List.filter P pre ++ List.filter P s).
  { induction s as [|y s IH]; intros pre; simpl; [by rewrite app_nil_r|].
    rewrite IH. unfold insert_last.
    rewrite filter_rev, ins_rev_filter by done. simpl.
    destruct (P y); simpl; rewrite filter_rev, rev_involutive;
      [by rewrite <- app_assoc | done]. }
  by rewrite H.
Qed.

(** Every element is not [less] than the one right before it. *)
Lemma ins_rev_sorted (y : A) (rp : list A) :
  (forall a b, less a b = true -> less b a = false) ->
  Sorted (fun a b => less a b = false) rp ->
  Sorted (fun a b => less a b = false) (ins_rev less y rp).
Proof.
  intros Hasym. induction rp as [|x rp IH]; intros Hs; simpl.
  - by repeat constructor.
  - destruct (less y x) eqn:Hyx.
    + apply Sorted_inv in Hs as [Hs Hhd]. constructor; [by apply IH|].
      destruct rp as [|x' rp]; simpl.
      * constructor. by apply Hasym.
      * destruct (less y x'); constructor.
        -- by apply HdRel_inv in Hhd.
        -- by apply Hasym.
    + constructor; [done|]. by constructor.
Qed.

Lemma Sorted_snoc (R : A -> A -> Prop) (l : list A) (x : A) :
  Sorted R l -> (forall z, last l = Some z -> R z x) -> Sorted R (l ++ [x]).
Proof.
  induction l as [|a l IH]; intros Hs Hl; simpl.
  - by repeat constructor.
  - apply Sorted_inv in Hs as [Hs Hhd]. constructor.
    + apply IH; [done|]. intros z Hz. apply Hl. destruct l; [done|]. done.
    + destruct l as [|b l]; simpl.
      * constructor. by apply Hl.
      * constructor. by apply HdRel_inv in Hhd.
Qed.

Lemma Sorted_rev_flip (R : A -> A -> Prop) (l : list A) :
  Sorted R l -> Sorted (fun a b => R b a) (rev l).
Proof.
  induction l as [|a l IH]; intros Hs; simpl; [constructor|].
  apply Sorted_inv in Hs as [Hs Hhd]. apply Sorted_snoc; [by apply IH|].
  intros z Hz. destruct l as [|b l]; [done|].
  apply HdRel_inv in Hhd. simpl in Hz.
  rewrite last_snoc in Hz. by injection Hz as <-.
Qed.

Lemma isort_sorted (s : list A) :
  (forall a b, less a b = true -> less b a = false) ->
  Sorted (fun a b => less b a = false) (isort less s).
Proof.
  intros Hasym. unfold isort.
  assert (H : forall pre, Sorted (fun a b => less a b = false) (rev pre) ->
                          Sorted (fun a b => less a b = false)
                                 (rev (fold_left (insert_last less) s pre))).
  { induction s as [|y s IH]; intros pre Hpre; simpl; [done|].
    apply IH. unfold insert_last. rewrite rev_involutive. by apply ins_rev_sorted. }
  specialize (H [] ltac:(constructor)).
  apply Sorted_rev_flip in H. by rewrite rev_involutive in H.
Qed.

End InsertionSort.

Section EligibleOrder.
Context {World : Type}.
Variable timeNow : World -> Time * World.

Lemma eligible_loop_sublist (ps : list (Processor World)) (method : string)
    (acc : list (eligibleProcessor World)) (m : Monitor) (w : World) :
  exists new,
    (eligible_loop timeNow ps method acc m w).1.1 = acc ++ new
    /\ proc <$> new `sublist_of` ps.
Proof.
  revert acc w. induction ps as [|p ps IH]; intros acc w; simpl.
  - exists []. rewrite app_nil_r. split; [done|]. constructor.
  - destruct (negb (SupportsMethod p method)).
    { destruct (IH acc w) as (new & Heq & Hsub). exists new.
      split; [done|]. by apply sublist_cons. }
    pose proof (GetHealth_monitor timeNow (Name p) m w) as Hm.
    destruct (GetHealth timeNow (Name p) m w) as [[h m1] w1]. simpl in Hm. subst m1.
    destruct (Status_eqb (ProcessorHealth.Status h) StatusOpen).
    { destruct (IH acc w1) as (new & Heq & Hsub). exists new.
      split; [done|]. by apply sublist_cons. }
    set (ep := mkEligible World p _ _).
    destruct (IH (acc ++ [ep]) w1) as (new & Heq & Hsub).
    exists (ep :: new). rewrite Heq, <- app_assoc. split; [done|].
    simpl. by apply sublist_skip.
Qed.

(** X15.  The order of the eligible list when [sort.Slice] stays on its
    insertion-sort path.  The list is always a rearrangement of the
    configured processors that support the method and are not
    circuit-open; when at most 12 of them are eligible it is sorted by
    health score, descending, and the processors of any one score are in
    configuration order.  This is why the ties of the two- and
    four-processor pools of the tests come out in configuration order. *)
Lemma eligible_order_small (o : Orchestrator World) (method : string) (w : World) :
  let filtered := (eligible_loop timeNow (processors o) method [] (monitor o) w).1.1 in
  let eligible := (getEligibleProcessors timeNow o method w).1.1 in
  proc <$> filtered `sublist_of` processors o
  /\ eligible ≡ₚ filtered
  /\ ((length filtered <= 12)%nat ->
      Sorted not_below eligible
      /\ forall v : float,
           List.filter (same_score v) eligible = List.filter (same_score v) filtered).
Proof.
  cbv zeta. unfold getEligibleProcessors.
  destruct (eligible_loop_sublist (processors o) method [] (monitor o) w)
    as (new & Heq & Hsub).
  destruct (eligible_loop timeNow (processors o) method [] (monitor o) w)
    as [[filtered m] w'].
  simpl in *. subst filtered.
  split; [done|]. split; [apply Slice_perm|].
  intros Hlen. rewrite Slice_small by done. split.
  - apply isort_sorted. intros a b. unfold healthier. apply float_ltb_asym.
  - intros v. apply isort_filter. intros a b Ha Hb. unfold healthier, same_score in *.
    by apply (float_eqb_class _ _ v).
Qed.

End EligibleOrder.

(** The reference pool, no history, a card payment: four eligible
    processors, all with score 1.0, in configuration order. *)
Lemma eligible_order_small_witness :
  let o := New Mock.reference_pool NewMonitor in
  let filtered := (eligible_loop test_timeNow (processors o) "card" [] (monitor o) world0).1.1 in
  let eligible := (getEligibleProcessors test_timeNow o "card" world0).1.1 in
  (length filtered <= 12)%nat
  /\ Sorted not_below eligible
  /\ (fun ep => Name (proc ep)) <$> List.filter (same_score 1%float) eligible
     = ["PayFlow"; "CardMax"; "PixPay"; "GlobalPay"].
Proof.
  cbv zeta.
  assert (Hlen : (length (eligible_loop test_timeNow
                            (processors (New Mock.reference_pool NewMonitor)) "card" []
                            (monitor (New Mock.reference_pool NewMonitor)) world0).1.1
                  <= 12)%nat) by (vm_compute; lia).
  split; [exact Hlen|].
  destruct (eligible_order_small test_timeNow (New Mock.reference_pool NewMonitor)
              "card" world0) as (_ & _ & H).
  destruct (H Hlen) as [Hsorted Hsame].
  split; [exact Hsorted|]. rewrite Hsame. vm_compute. reflexivity.
Defined.

(** * Further properties of the code *)

(** ** The health monitor: windows *)

Lemma filter_sublist {A} (f : A -> bool) (l : list A) : List.filter f l `sublist_of` l.
Proof.
  induction l as [|x l IH]; simpl; [constructor|].
  destruct (f x); [by apply sublist_skip | by apply sublist_cons].
Qed.

Lemma most_recent_sublist {A} (n : nat) (l : list A) : most_recent n l `sublist_of` l.
Proof. rewrite most_recent_drop. apply sublist_drop. Qed.

Lemma most_recent_Forall {A} (P : A -> Prop) (n : nat) (l : list A) :
  Forall P l -> Forall P (most_recent n l).
Proof. intros H. rewrite most_recent_drop. by apply Forall_drop. Qed.

Lemma younger_than_Forall (cutoff : Time) (window : list outcome) :
  Forall (fun o => cutoff < timestamp o) (younger_than cutoff window).
Proof.
  unfold younger_than. apply Forall_forall. intros o Ho.
  apply list_elem_of_In, filter_In in Ho as [_ Ho].
  unfold Time_After in Ho. by apply Z.ltb_lt in Ho.
Qed.

Section WindowProps.
Context {World : Type}.
Variable timeNow : World -> Time * World.

Lemma RecordOutcome_unfold (name : string) (code : ResponseCode) (m : Monitor) (w : World) :
  RecordOutcome timeNow name code m w
  = let t1 := (timeNow w).1 in
    let w1 := (timeNow w).2 in
    let t2 := (timeNow w1).1 in
    let appended := window_of m name ++ [mkOutcome (String.eqb code Approved) t1] in
    (mkMonitor
       (<[name := most_recent (windowSize m)
                    (younger_than (Time_Add t2 (- windowDuration m)) appended)]>
          (windows m))
       (windowSize m) (windowDuration m),
     (timeNow w1).2).
Proof.
  unfold RecordOutcome. destruct (timeNow w) as [t1 w1]. simpl.
  unfold pruneWindow. destruct (timeNow w1) as [t2 w2]. simpl.
  unfold set_window, window_of. simpl.
  by rewrite lookup_insert_eq, insert_insert_eq.
Qed.

Lemma RecordOutcome_window (name : string) (code : ResponseCode) (m : Monitor) (w : World) :
  window_of (RecordOutcome timeNow name code m w).1 name
  = most_recent (windowSize m)
      (younger_than (Time_Add (timeNow (timeNow w).2).1 (- windowDuration m))
                    (window_of m name ++ [mkOutcome (String.eqb code Approved) (timeNow w).1])).
Proof.
  rewrite RecordOutcome_unfold. cbv zeta. unfold window_of at 1. simpl.
  by rewrite lookup_insert_eq.
Qed.

Lemma RecordOutcome_config (name : string) (code : ResponseCode) (m : Monitor) (w : World) :
  windowSize (RecordOutcome timeNow name code m w).1 = windowSize m
  /\ windowDuration (RecordOutcome timeNow name code m w).1 = windowDuration m.
Proof. by rewrite RecordOutcome_unfold. Qed.

(** X1.  After [RecordOutcome] the window of the recorded processor holds
    at most [windowSize] entries, every one of them younger than the
    window duration at the instant of pruning, and it consists of entries
    of the old window followed by the new one, in their old order: pruning
    only drops entries. *)
Theorem RecordOutcome_window_pruned (name : string) (code : ResponseCode)
    (m : Monitor) (w : World) :
  let m' := (RecordOutcome timeNow name code m w).1 in
  let recorded := mkOutcome (String.eqb code Approved) (timeNow w).1 in
  let pruned_at := (timeNow (timeNow w).2).1 in
  (length (window_of m' name) <= windowSize m)%nat
  /\ Forall (fun o => pruned_at - windowDuration m < timestamp o) (window_of m' name)
  /\ window_of m' name `sublist_of` window_of m name ++ [recorded]
  /\ windowSize m' = windowSize m
  /\ windowDuration m' = windowDuration m.
Proof.
  cbv zeta. rewrite RecordOutcome_window.
  split; [apply most_recent_length|].
  split; [apply most_recent_Forall, younger_than_Forall|].
  split; [|apply RecordOutcome_config].
  etrans; [apply most_recent_sublist | apply filter_sublist].
Qed.

Lemma run_op_bounded (op : MonitorOp) (m : Monitor) (w : World) :
  (forall name, (length (window_of m name) <= windowSize m)%nat) ->
  windowSize (run_op timeNow op m w).1 = windowSize m
  /\ windowDuration (run_op timeNow op m w).1 = windowDuration m
  /\ forall name,
       (length (window_of (run_op timeNow op m w).1 name) <= windowSize m)%nat.
Proof.
  intros Hinv. destruct op as [rname code | r]; simpl.
  - split; [apply RecordOutcome_config|]. split; [apply RecordOutcome_config|].
    intros name. destruct (decide (name = rname)) as [-> | Hne].
    + rewrite RecordOutcome_window. apply most_recent_length.
    + rewrite RecordOutcome_other by done. apply Hinv.
  - by rewrite run_read_monitor.
Qed.

Lemma run_ops_bounded (ops : list MonitorOp) (m : Monitor) (w : World) :
  (forall name, (length (window_of m name) <= windowSize m)%nat) ->
  windowSize (run_ops timeNow ops m w).1 = windowSize m
  /\ forall name,
       (length (window_of (run_ops timeNow ops m w).1 name) <= windowSize m)%nat.
Proof.
  revert m w. induction ops as [|op ops IH]; intros m w Hinv; simpl; [done|].
  destruct (run_op_bounded op m w Hinv) as (Hs & _ & Hb).
  destruct (run_op timeNow op m w) as [m1 w1]. simpl in *.
  destruct (IH m1 w1) as [Hs' Hb'].
  { intros name. rewrite Hs. apply Hb. }
  rewrite Hs', Hs. split; [done|]. intros name. rewrite <- Hs. apply Hb'.
Qed.

(** X2.  Whatever sequence of [RecordOutcome], [GetHealth],
    [GetAllHealth] and [IsCircuitOpen] calls a monitor made by
    [NewMonitorWithConfig] has served, none of its windows holds more than
    the configured number of entries. *)
Theorem windows_never_exceed_size (ops : list MonitorOp) (size : nat)
    (duration : Duration) (w : World) (name : string) :
  (length (window_of (run_ops timeNow ops (NewMonitorWithConfig size duration) w).1 name)
   <= size)%nat.
Proof.
  apply (run_ops_bounded ops (NewMonitorWithConfig size duration) w).
  intros n. unfold window_of, NewMonitorWithConfig. simpl.
  rewrite lookup_empty. simpl. lia.
Qed.

(** X3.  The counts of a snapshot are consistent: approvals and errors
    add up to the total, the approvals are between 0 and the total, and
    the total never exceeds the window size. *)
Theorem GetHealth_counts_consistent (name : string) (m : Monitor) (w : World) :
  let h := (GetHealth timeNow name m w).1.1 in
  ProcessorHealth.ApprovedCount h + ProcessorHealth.ErrorCount h
  = ProcessorHealth.TotalRecent h
  /\ 0 <= ProcessorHealth.ApprovedCount h <= ProcessorHealth.TotalRecent h
  /\ ProcessorHealth.TotalRecent h <= Z.of_nat (windowSize m).
Proof.
  cbv zeta. rewrite GetHealth_unfold. cbv zeta.
  set (active := active_window m name (timeNow w).1).
  pose proof (approvals_bounds active) as Hb.
  pose proof (active_window_length m name (timeNow w).1) as Hl. fold active in Hl.
  destruct (len active =? 0); simpl; unfold len in *; lia.
Qed.

End WindowProps.

Lemma score_range_table_ok : score_range_table = true.
Proof. vm_compute. reflexivity. Qed.

Lemma score_range_exact (a t : Z) :
  0 <= a <= t -> 1 <= t <= 50 ->
  PrimFloat.leb 0%float (score_of_counts a t) = true
  /\ PrimFloat.leb (score_of_counts a t) 1%float = true.
Proof.
  intros Ha Ht. pose proof score_range_table_ok as H.
  unfold score_range_table in H. rewrite forallb_forall in H.
  specialize (H t). rewrite <- list_elem_of_In, elem_of_seqZ in H.
  specialize (H ltac:(lia)). rewrite forallb_forall in H.
  specialize (H a). rewrite <- list_elem_of_In, elem_of_seqZ in H.
  specialize (H ltac:(lia)). by apply andb_prop in H.
Qed.

Lemma most_recent_all {A} (n : nat) (l : list A) :
  (length l <= n)%nat -> most_recent n l = l.
Proof.
  intros H. unfold most_recent.
  destruct (Nat.ltb_spec n (length l)); [lia | done].
Qed.

Section SnapshotProps.
Context {World : Type}.
Variable timeNow : World -> Time * World.

(** X4.  With a window of at most 50 entries (the default size) the score
    of every snapshot lies between 0 and 1. *)
Theorem GetHealth_score_in_unit_interval (name : string) (m : Monitor) (w : World) :
  (windowSize m <= 50)%nat ->
  let h := (GetHealth timeNow name m w).1.1 in
  PrimFloat.leb 0%float (ProcessorHealth.HealthScore h) = true
  /\ PrimFloat.leb (ProcessorHealth.HealthScore h) 1%float = true.
Proof.
  intros HW. cbv zeta. rewrite GetHealth_unfold. cbv zeta.
  set (active := active_window m name (timeNow w).1).
  destruct (len active =? 0) eqn:He; simpl; [by vm_compute|].
  apply Z.eqb_neq in He.
  pose proof (approvals_bounds active) as Hb.
  pose proof (active_window_length m name (timeNow w).1) as Hl. fold active in Hl.
  apply score_range_exact; [done|]. unfold len in *. lia.
Qed.

(** X5.  The first outcome recorded for a processor without history
    decides its status for as long as that entry is in the window: after
    one approval the score is 1.0 and the processor is healthy, after one
    failure of any kind the score is 0.0 and its circuit is open. *)
Theorem first_outcome_decides_status (name : string) (code : ResponseCode)
    (m : Monitor) (w : World) :
  let recorded_at := (timeNow w).1 in
  let pruned_at := (timeNow (timeNow w).2).1 in
  let after := RecordOutcome timeNow name code m w in
  let read_at := (timeNow after.2).1 in
  let h := (GetHealth timeNow name after.1 after.2).1.1 in
  window_of m name = [] ->
  (1 <= windowSize m)%nat ->
  pruned_at - windowDuration m < recorded_at ->
  read_at - windowDuration m < recorded_at ->
  ProcessorHealth.TotalRecent h = 1
  /\ (code = Approved ->
      ProcessorHealth.HealthScore h = 1%float
      /\ ProcessorHealth.Status h = StatusHealthy)
  /\ (code <> Approved ->
      ProcessorHealth.HealthScore h = 0%float
      /\ ProcessorHealth.Status h = StatusOpen).
Proof.
  cbv zeta. intros Hempty HW Hprune Hread.
  set (e := mkOutcome (String.eqb code Approved) (timeNow w).1).
  assert (Hwin : window_of (RecordOutcome timeNow name code m w).1 name = [e]).
  { rewrite RecordOutcome_window, Hempty. simpl. unfold Time_After, Time_Add.
    replace (_ <? _) with true by (symmetry; apply Z.ltb_lt; lia).
    apply most_recent_all. simpl. lia. }
  destruct (RecordOutcome_config timeNow name code m w) as [Hs Hd].
  rewrite GetHealth_unfold. cbv zeta.
  assert (Hact : active_window (RecordOutcome timeNow name code m w).1 name
                   (timeNow (RecordOutcome timeNow name code m w).2).1 = [e]).
  { unfold active_window. rewrite Hwin, Hd, Hs. simpl.
    replace (_ <? _) with true by (symmetry; apply Z.ltb_lt; simpl; lia).
    simpl. replace (1 - windowSize m)%nat with 0%nat by lia. done. }
  rewrite Hact. simpl. split; [done|]. unfold approvals. simpl.
  split.
  - intros ->. simpl. by vm_compute.
  - intros Hne. apply String.eqb_neq in Hne. rewrite Hne. simpl. by vm_compute.
Qed.

Lemma GetHealth_name (name : string) (m : Monitor) (w : World) :
  ProcessorHealth.ProcessorName (GetHealth timeNow name m w).1.1 = name.
Proof. rewrite GetHealth_unfold. cbv zeta. by destruct (len _ =? 0). Qed.

Lemma GetAllHealth_fold_names (names : list string) (hs : list ProcessorHealth.t)
    (m : Monitor) (w : World) :
  ProcessorHealth.ProcessorName
    <$> (fold_left
           (fun '(healths, m, w) name =>
              let '(h, m, w) := GetHealth timeNow name m w in (healths ++ [h], m, w))
           names (hs, m, w)).1.1
  = (ProcessorHealth.ProcessorName <$> hs) ++ names.
Proof.
  revert hs m w. induction names as [|n names IH]; intros hs m w; simpl.
  - by rewrite app_nil_r.
  - pose proof (GetHealth_name n m w) as Hn.
    destruct (GetHealth timeNow n m w) as [[h m1] w1]. simpl in Hn.
    rewrite IH, fmap_app. simpl. rewrite Hn. by rewrite <- app_assoc.
Qed.

(** X6.  [GetAllHealth] returns one snapshot for each processor the
    monitor tracks: the names of the snapshots are the keys of the window
    map, each exactly once. *)
Theorem GetAllHealth_lists_tracked (m : Monitor) (w : World) :
  let names := ProcessorHealth.ProcessorName <$> (GetAllHealth timeNow m w).1.1 in
  NoDup names
  /\ length names = size (windows m)
  /\ forall name, name ∈ names <-> is_Some (windows m !! name).
Proof.
  cbv zeta. unfold GetAllHealth. rewrite GetAllHealth_fold_names. simpl.
  split; [apply NoDup_fst_map_to_list|].
  split; [by rewrite length_fmap, length_map_to_list|].
  intros name. rewrite list_elem_of_fmap. split.
  - intros ([k v] & -> & Hkv). apply elem_of_map_to_list in Hkv. simpl. eauto.
  - intros [v Hv]. exists (name, v). split; [done|]. by apply elem_of_map_to_list.
Qed.

Lemma run_op_tracked (op : MonitorOp) (m : Monitor) (w : World) :
  dom (windows (run_op timeNow op m w).1) = dom (windows m) ∪ recorded_names [op].
Proof.
  destruct op as [rname code | r]; simpl.
  - rewrite RecordOutcome_unfold. simpl. rewrite dom_insert_L. set_solver.
  - rewrite run_read_monitor. set_solver.
Qed.

(** X7.  A processor for which an outcome was recorded stays tracked:
    after any sequence of operations the tracked names are those tracked
    before together with every name an outcome was recorded for, even if
    all its entries have expired since. *)
Theorem tracked_names_only_grow (ops : list MonitorOp) (m : Monitor) (w : World) :
  dom (windows (run_ops timeNow ops m w).1) = dom (windows m) ∪ recorded_names ops.
Proof.
  revert m w. induction ops as [|op ops IH]; intros m w; simpl; [set_solver|].
  pose proof (run_op_tracked op m w) as Hop.
  destruct (run_op timeNow op m w) as [m1 w1]. simpl in Hop.
  rewrite IH, Hop. destruct op; simpl; set_solver.
Qed.

End SnapshotProps.

(** One processor error recorded on a fresh monitor opens the circuit. *)
Lemma first_outcome_decides_status_witness :
  let m := NewMonitor in
  let after := RecordOutcome test_timeNow "ProcA" ProcessorError m world0 in
  window_of m "ProcA" = []
  /\ (1 <= windowSize m)%nat
  /\ ProcessorHealth.Status (GetHealth test_timeNow "ProcA" after.1 after.2).1.1
     = StatusOpen.
Proof.
  cbv zeta.
  assert (H1 : window_of NewMonitor "ProcA" = []) by reflexivity.
  assert (H2 : (1 <= windowSize NewMonitor)%nat) by (vm_compute; lia).
  split; [exact H1|]. split; [exact H2|].
  pose proof (first_outcome_decides_status test_timeNow "ProcA" ProcessorError
                NewMonitor world0) as H.
  cbv zeta in H.
  destruct (H H1 H2 ltac:(vm_compute; reflexivity) ltac:(vm_compute; reflexivity))
    as (_ & _ & Hfail).
  apply Hfail. discriminate.
Defined.

(** The default monitor after ten recorded outcomes. *)
Lemma GetHealth_score_in_unit_interval_witness :
  (windowSize (seeded_monitor 3 7).1 <= 50)%nat
  /\ PrimFloat.leb
       (ProcessorHealth.HealthScore
          (GetHealth test_timeNow "Proc" (seeded_monitor 3 7).1 (seeded_monitor 3 7).2).1.1)
       1%float = true.
Proof.
  assert (HW : (windowSize (seeded_monitor 3 7).1 <= 50)%nat) by (vm_compute; lia).
  split; [exact HW|].
  apply (GetHealth_score_in_unit_interval test_timeNow "Proc" (seeded_monitor 3 7).1
           (seeded_monitor 3 7).2 HW).
Defined.

(** ** The orchestrator: what a request leaves behind *)

Lemma Slice_nil {A} (less : A -> A -> bool) : Sort.Slice less [] = [].
Proof. reflexivity. Qed.

Section RequestProps.
Context {World : Type}.
Variable timeNow : World -> Time * World.

(** What the retry loop keeps and what it touches. *)
Lemma retry_loop_frame (ctx : Ctx) (req : PaymentRequest.t)
    (eligible : list (eligibleProcessor World)) :
  forall (n : Z) (result : PaymentResult.t) (o : Orchestrator World) (w : World),
    n = len (PaymentResult.Attempts result) ->
    PaymentResult.FinalResponse result = None ->
    returns (retry_loop timeNow ctx req eligible n result o w)
      (fun '(res, o', w') =>
         PaymentResult.FinalResponse res
         = Attempt.Response <$> last (PaymentResult.Attempts res)
         /\ processors o' = processors o
         /\ maxRetries o' = maxRetries o
         /\ windowSize (monitor o') = windowSize (monitor o)
         /\ windowDuration (monitor o') = windowDuration (monitor o)
         /\ exists new,
              PaymentResult.Attempts res = PaymentResult.Attempts result ++ new
              /\ forall name,
                   name ∉ Attempt.ProcessorName <$> new ->
                   window_of (monitor o') name = window_of (monitor o) name).
Proof.
  assert (Hex : forall (result : PaymentResult.t) (o : Orchestrator World),
            PaymentResult.FinalResponse result = None ->
            PaymentResult.FinalResponse (retries_exhausted result o).1
            = Attempt.Response
                <$> last (PaymentResult.Attempts (retries_exhausted result o).1)).
  { intros result o Hf. unfold retries_exhausted. simpl.
    destruct (PaymentResult.Attempts result) as [|a l _] using rev_ind.
    - simpl. by rewrite Hf.
    - rewrite len_app. replace (0 <? len l + len [a]) with true; [done|].
      symmetry. apply Z.ltb_lt. pose proof (len_nonneg l). unfold len at 2. simpl. lia. }
  induction eligible as [|ep rest IH]; intros n result o w Hn Hfin.
  - rewrite retry_loop_nil. simpl. split; [exact (Hex result o Hfin)|].
    repeat split; try done. exists []. by rewrite app_nil_r.
  - rewrite retry_loop_cons. cbv zeta.
    destruct (maxRetries o <=? n).
    { simpl. split; [exact (Hex result o Hfin)|].
      repeat split; try done. exists []. by rewrite app_nil_r. }
    destruct (buildRoutingReason_is_Some ep n result Hn) as [reason ->].
    set (resp := (Process (proc ep) ctx req w).1).
    set (w1 := (Process (proc ep) ctx req w).2).
    set (attempt := Attempt.mk _ _ _ _ _).
    set (rec_ := RecordOutcome _ _ _ _ _).
    destruct (RecordOutcome_config timeNow (Name (proc ep)) (ProcessorResponse.Code resp)
                (monitor o) (timeNow w1).2) as [Hsize Hdur].
    fold rec_ in Hsize, Hdur.
    assert (Hone : forall name,
               name ∉ Attempt.ProcessorName <$> [attempt] ->
               window_of rec_.1 name = window_of (monitor o) name).
    { intros name Hname. apply RecordOutcome_other.
      intros ->. apply Hname. simpl. by left. }
    destruct (String.eqb _ Approved); [|destruct (IsHardDecline _)].
    + simpl. rewrite last_snoc. repeat split; try done. by exists [attempt].
    + simpl. rewrite last_snoc. repeat split; try done. by exists [attempt].
    + eapply returns_impl.
      { apply (IH (n + 1)); simpl; [|done]. rewrite len_app, <- Hn. done. }
      intros [[res o'] w']. simpl.
      intros (Hf & Hp & Hm & Hs & Hd & new & Hnew & Hframe).
      repeat split; try done; try congruence.
      exists (attempt :: new). split; [by rewrite Hnew, <- app_assoc|].
      intros name Hname. rewrite Hframe.
      * apply Hone. intros Hin. apply Hname. simpl.
        simpl in Hin. apply elem_of_cons in Hin as [-> | Hin]; [by left|].
        by apply elem_of_nil in Hin.
      * intros Hin. apply Hname. simpl. by right.
Qed.

(** An exhausted loop has used every slot it had. *)
Lemma retry_loop_exhausted_count (ctx : Ctx) (req : PaymentRequest.t)
    (eligible : list (eligibleProcessor World)) :
  forall (n : Z) (result : PaymentResult.t) (o : Orchestrator World) (w : World),
    n = len (PaymentResult.Attempts result) ->
    returns (retry_loop timeNow ctx req eligible n result o w)
      (fun '(res, o', w') =>
         PaymentResult.Status res = StatusExhaustedRetries ->
         len (PaymentResult.Attempts res)
         = Z.min (n + len eligible) (Z.max n (maxRetries o))).
Proof.
  induction eligible as [|ep rest IH]; intros n result o w Hn.
  - rewrite retry_loop_nil. simpl. intros _. unfold len at 2. simpl. lia.
  - rewrite retry_loop_cons. cbv zeta.
    assert (Hl : len (ep :: rest) = len rest + 1) by (unfold len; simpl; lia).
    pose proof (len_nonneg rest) as Hr.
    destruct (maxRetries o <=? n) eqn:Hmax.
    { apply Z.leb_le in Hmax. simpl. intros _. lia. }
    apply Z.leb_gt in Hmax.
    destruct (buildRoutingReason_is_Some ep n result Hn) as [reason ->].
    destruct (String.eqb _ Approved); [|destruct (IsHardDecline _)].
    + simpl. discriminate.
    + simpl. discriminate.
    + eapply returns_impl.
      { apply (IH (n + 1)); simpl. rewrite len_app, <- Hn. done. }
      intros [[res o'] w']. simpl. intros Hlen Hst. rewrite (Hlen Hst). lia.
Qed.

Lemma eligible_loop_supports (ps : list (Processor World)) (method : string)
    (acc : list (eligibleProcessor World)) (m : Monitor) (w : World) :
  exists new,
    (eligible_loop timeNow ps method acc m w).1.1 = acc ++ new
    /\ Forall (fun ep => proc ep ∈ ps /\ SupportsMethod (proc ep) method = true) new.
Proof.
  revert acc w. induction ps as [|p ps IH]; intros acc w; simpl.
  - exists []. by rewrite app_nil_r.
  - assert (Hmono : forall new : list (eligibleProcessor World),
               Forall (fun ep => proc ep ∈ ps /\ SupportsMethod (proc ep) method = true) new ->
               Forall (fun ep => proc ep ∈ p :: ps
                                 /\ SupportsMethod (proc ep) method = true) new).
    { intros new H. eapply Forall_impl; [exact H|].
      intros ep [? ?]. split; [by right | done]. }
    destruct (SupportsMethod p method) eqn:Hsup; simpl.
    2:{ destruct (IH acc w) as (new & Heq & Hall). eauto. }
    pose proof (GetHealth_monitor timeNow (Name p) m w) as Hm.
    destruct (GetHealth timeNow (Name p) m w) as [[h m1] w1]. simpl in Hm. subst m1.
    destruct (Status_eqb (ProcessorHealth.Status h) StatusOpen).
    { destruct (IH acc w1) as (new & Heq & Hall). eauto. }
    set (ep := mkEligible World p _ _).
    destruct (IH (acc ++ [ep]) w1) as (new & Heq & Hall).
    exists (ep :: new). rewrite Heq, <- app_assoc. split; [done|].
    constructor; [|by apply Hmono]. simpl. split; [by left | done].
Qed.

(** The eligible list as [ProcessPayment] sees it. *)
Lemma getEligibleProcessors_members (o : Orchestrator World) (method : string) (w : World) :
  let eligible := (getEligibleProcessors timeNow o method w).1.1 in
  Forall (fun ep => proc ep ∈ processors o /\ SupportsMethod (proc ep) method = true)
         eligible
  /\ exists filtered,
       eligible ≡ₚ filtered /\ proc <$> filtered `sublist_of` processors o.
Proof.
  cbv zeta. unfold getEligibleProcessors.
  destruct (eligible_loop_supports (processors o) method [] (monitor o) w)
    as (new & Heq & Hall).
  destruct (eligible_loop_sublist timeNow (processors o) method [] (monitor o) w)
    as (new' & Heq' & Hsub).
  destruct (eligible_loop timeNow (processors o) method [] (monitor o) w)
    as [[filtered m] w'].
  simpl in *. subst filtered. subst new'. split.
  - by rewrite Slice_perm.
  - exists new. split; [apply Slice_perm | done].
Qed.

Lemma ProcessPayment_unfold (o : Orchestrator World) (ctx : Ctx)
    (req : PaymentRequest.t) (w : World) :
  exists eligible w',
    getEligibleProcessors timeNow o (PaymentRequest.PaymentMethod req) w
    = (eligible, o, w')
    /\ ProcessPayment timeNow o ctx req w
       = if len eligible =? 0 then
           let result := PaymentResult.mk (PaymentRequest.TransactionID req)
                                          StatusDeclined [] None in
           Some (result, store_Save o result, w')
         else
           retry_loop timeNow ctx req eligible 0
             (PaymentResult.mk (PaymentRequest.TransactionID req) StatusUnset [] None)
             o w'.
Proof.
  destruct (getEligibleProcessors_spec timeNow o (PaymentRequest.PaymentMethod req) w)
    as (eligible & w' & Heq & _).
  exists eligible, w'. split; [done|].
  unfold ProcessPayment. rewrite Heq. done.
Qed.

(** X8.  The status of a result agrees with its last attempt, and the
    final response is the response of the last attempt: an approved result
    ends with an approved attempt; a declined result has no attempt or
    ends with a hard decline; in an exhausted result no attempt was
    approved or hard-declined. *)
Theorem status_agrees_with_last_attempt (o : Orchestrator World) (ctx : Ctx)
    (req : PaymentRequest.t) (w : World) :
  returns (ProcessPayment timeNow o ctx req w)
    (fun '(res, o', w') =>
       let attempts := PaymentResult.Attempts res in
       PaymentResult.FinalResponse res = Attempt.Response <$> last attempts
       /\ match PaymentResult.Status res with
          | StatusApproved =>
              exists a, last attempts = Some a
                        /\ ProcessorResponse.Code (Attempt.Response a) = Approved
          | StatusDeclined =>
              attempts = []
              \/ exists a, last attempts = Some a
                           /\ IsHardDecline (ProcessorResponse.Code (Attempt.Response a))
                              = true
          | StatusExhaustedRetries => Forall goes_on attempts
          | StatusUnset => False
          end).
Proof.
  destruct (ProcessPayment_unfold o ctx req w) as (eligible & w' & _ & ->).
  destruct (len eligible =? 0).
  { simpl. split; [done|]. by left. }
  pose proof (retry_loop_frame ctx req eligible 0
                (PaymentResult.mk (PaymentRequest.TransactionID req) StatusUnset [] None)
                o w' eq_refl eq_refl) as Hframe.
  pose proof (retry_loop_outcome timeNow ctx req eligible 0
                (PaymentResult.mk (PaymentRequest.TransactionID req) StatusUnset [] None)
                o w' eq_refl (Forall_nil_2 _)) as Hout.
  destruct (retry_loop _ _ _ _ _ _ _ _) as [[[res o'] w'']|]; simpl in *; [|done].
  destruct Hframe as (Hfin & _). split; [done|].
  destruct Hout as [[-> Hall] | (pre & a & Hat & _ & _ & [[Hc ->] | [Hc ->]])].
  - done.
  - exists a. rewrite Hat, last_snoc. done.
  - right. exists a. rewrite Hat, last_snoc. done.
Qed.

(** X9.  When the processors of the pool have distinct names, no
    processor is attempted twice within one request. *)
Theorem no_processor_attempted_twice (o : Orchestrator World) (ctx : Ctx)
    (req : PaymentRequest.t) (w : World) :
  NoDup (Name <$> processors o) ->
  returns (ProcessPayment timeNow o ctx req w)
    (fun '(res, o', w') =>
       NoDup (Attempt.ProcessorName <$> PaymentResult.Attempts res)).
Proof.
  intros Hnd.
  destruct (ProcessPayment_unfold o ctx req w) as (eligible & w' & Heq & ->).
  destruct (len eligible =? 0).
  { simpl. constructor. }
  destruct (getEligibleProcessors_members o (PaymentRequest.PaymentMethod req) w)
    as (Hmem & filtered & Hperm & Hsub).
  rewrite Heq in Hmem, Hperm. simpl in Hmem, Hperm.
  assert (Hel : NoDup ((fun ep => Name (proc ep)) <$> eligible)).
  { rewrite Hperm.
    replace ((fun ep => Name (proc ep)) <$> filtered) with (Name <$> (proc <$> filtered))
      by (by rewrite <- list_fmap_compose).
    apply (sublist_NoDup _ (Name <$> processors o)); [exact Hnd | by apply fmap_sublist]. }
  assert (Hopen : Forall (fun ep => status ep <> StatusOpen) eligible).
  { destruct (getEligibleProcessors_spec timeNow o (PaymentRequest.PaymentMethod req) w)
      as (el & w2 & Heq2 & Hall). rewrite Heq in Heq2. injection Heq2 as <- _.
    eapply Forall_impl; [exact Hall|]. by intros ep [? _]. }
  eapply returns_impl.
  { by apply (retry_loop_trail timeNow ctx req eligible 0). }
  intros [[res o'] w'']. simpl. intros (new & -> & Hj).
  assert (Hpre : Attempt.ProcessorName <$> new
                 = take (length new) ((fun ep => Name (proc ep)) <$> eligible)).
  { apply list_eq. intros i. rewrite list_lookup_fmap.
    destruct (new !! i) as [a|] eqn:Hi; simpl.
    - destruct (Hj i a Hi) as (ep & He & Hname & _).
      rewrite lookup_take_lt by (by apply lookup_lt_Some in Hi).
      rewrite list_lookup_fmap, He. simpl. by rewrite Hname.
    - symmetry. apply lookup_ge_None. rewrite length_take.
      apply lookup_ge_None in Hi. lia. }
  rewrite Hpre.
  apply (sublist_NoDup _ ((fun ep => Name (proc ep)) <$> eligible));
    [exact Hel | apply sublist_take].
Qed.

(** X10.  A payment is only ever sent to a processor of the pool that
    supports its payment method. *)
Theorem attempts_go_to_supporting_processors (o : Orchestrator World) (ctx : Ctx)
    (req : PaymentRequest.t) (w : World) :
  returns (ProcessPayment timeNow o ctx req w)
    (fun '(res, o', w') =>
       Forall (fun a =>
                 exists p, p ∈ processors o
                           /\ Name p = Attempt.ProcessorName a
                           /\ SupportsMethod p (PaymentRequest.PaymentMethod req) = true)
              (PaymentResult.Attempts res)).
Proof.
  destruct (ProcessPayment_unfold o ctx req w) as (eligible & w' & Heq & ->).
  destruct (len eligible =? 0).
  { simpl. constructor. }
  destruct (getEligibleProcessors_members o (PaymentRequest.PaymentMethod req) w)
    as (Hmem & _).
  rewrite Heq in Hmem. simpl in Hmem.
  assert (Hopen : Forall (fun ep => status ep <> StatusOpen) eligible).
  { destruct (getEligibleProcessors_spec timeNow o (PaymentRequest.PaymentMethod req) w)
      as (el & w2 & Heq2 & Hall). rewrite Heq in Heq2. injection Heq2 as <- _.
    eapply Forall_impl; [exact Hall|]. by intros ep [? _]. }
  eapply returns_impl.
  { by apply (retry_loop_trail timeNow ctx req eligible 0). }
  intros [[res o'] w'']. simpl. intros (new & -> & Hj).
  apply Forall_lookup. intros i a Hi.
  destruct (Hj i a Hi) as (ep & He & Hname & _).
  rewrite Forall_lookup in Hmem. destruct (Hmem i ep He) as [Hin Hsup].
  exists (proc ep). done.
Qed.

(** X11.  A result is exhausted_retries only when every slot was used:
    its number of attempts is the number of eligible processors or the cap
    of 3, whichever is smaller. *)
Theorem exhausted_means_every_slot_used (ps : list (Processor World)) (m : Monitor)
    (st : PaymentStore) (ctx : Ctx) (req : PaymentRequest.t) (w : World) :
  returns (ProcessPayment timeNow (mkOrchestrator World ps m st Config.MaxRetries) ctx req w)
    (fun '(res, o', w') =>
       let eligible :=
         (getEligibleProcessors timeNow (mkOrchestrator World ps m st Config.MaxRetries)
                                (PaymentRequest.PaymentMethod req) w).1.1 in
       PaymentResult.Status res = StatusExhaustedRetries ->
       len (PaymentResult.Attempts res) = Z.min (len eligible) 3).
Proof.
  destruct (ProcessPayment_unfold (mkOrchestrator World ps m st Config.MaxRetries)
              ctx req w) as (eligible & w' & Heq & ->).
  rewrite Heq. simpl.
  destruct (len eligible =? 0).
  { simpl. discriminate. }
  eapply returns_impl.
  { by apply (retry_loop_exhausted_count ctx req eligible 0). }
  intros [[res o'] w'']. simpl. intros Hlen Hst. rewrite (Hlen Hst).
  unfold Config.MaxRetries. lia.
Qed.

(** X12.  [ProcessPayment] writes the store once: the stored results
    afterwards are those before with the request's result put under its
    transaction identifier; every other transaction, the pool and the
    retry cap are as they were. *)
Theorem ProcessPayment_store_frame (o : Orchestrator World) (ctx : Ctx)
    (req : PaymentRequest.t) (w : World) :
  returns (ProcessPayment timeNow o ctx req w)
    (fun '(res, o', w') =>
       results (store o')
       = <[PaymentRequest.TransactionID req := res]> (results (store o))
       /\ processors o' = processors o
       /\ maxRetries o' = maxRetries o).
Proof.
  destruct (ProcessPayment_unfold o ctx req w) as (eligible & w' & _ & ->).
  destruct (len eligible =? 0).
  { simpl. done. }
  pose proof (retry_loop_frame ctx req eligible 0
                (PaymentResult.mk (PaymentRequest.TransactionID req) StatusUnset [] None)
                o w' eq_refl eq_refl) as Hframe.
  pose proof (retry_loop_shape timeNow ctx req eligible 0
                (PaymentResult.mk (PaymentRequest.TransactionID req) StatusUnset [] None)
                o w' eq_refl eq_refl eq_refl) as Hshape.
  destruct (retry_loop _ _ _ _ _ _ _ _) as [[[res o'] w'']|]; simpl in *; [|done].
  destruct Hframe as (_ & Hp & Hm & _).
  destruct Hshape as (Hid & _ & _ & _ & _ & Hst).
  rewrite Hst. unfold Save. simpl. by rewrite Hid.
Qed.

(** X16.  A request changes the health window of no processor it did not
    attempt, and never the monitor's configuration. *)
Theorem ProcessPayment_health_frame (o : Orchestrator World) (ctx : Ctx)
    (req : PaymentRequest.t) (w : World) :
  returns (ProcessPayment timeNow o ctx req w)
    (fun '(res, o', w') =>
       windowSize (monitor o') = windowSize (monitor o)
       /\ windowDuration (monitor o') = windowDuration (monitor o)
       /\ forall name,
            name ∉ Attempt.ProcessorName <$> PaymentResult.Attempts res ->
            window_of (monitor o') name = window_of (monitor o) name).
Proof.
  destruct (ProcessPayment_unfold o ctx req w) as (eligible & w' & _ & ->).
  destruct (len eligible =? 0).
  { simpl. done. }
  eapply returns_impl.
  { by apply (retry_loop_frame ctx req eligible 0). }
  intros [[res o'] w'']. simpl.
  intros (_ & _ & _ & Hs & Hd & new & -> & Hframe). done.
Qed.

End RequestProps.

(** The reference pool, no history, a card payment that PayFlow
    soft-declines and CardMax approves. *)
Lemma no_processor_attempted_twice_witness :
  let o := New Mock.reference_pool NewMonitor in
  let w := mkTestWorld 0 [] [0.75%float; 0.5%float] ∅ in
  NoDup (Name <$> processors o)
  /\ returns (ProcessPayment test_timeNow o Background (cardRequest "tx-1") w)
       (fun '(res, o', w') =>
          NoDup (Attempt.ProcessorName <$> PaymentResult.Attempts res)).
Proof.
  cbv zeta.
  assert (Hnd : NoDup (Name <$> processors (New Mock.reference_pool NewMonitor))).
  { vm_compute. repeat (constructor; [set_solver|]). constructor. }
  split; [exact Hnd|].
  exact (no_processor_attempted_twice test_timeNow (New Mock.reference_pool NewMonitor)
           Background (cardRequest "tx-1") (mkTestWorld 0 [] [0.75%float; 0.5%float] ∅) Hnd).
Defined.

(** ** Requests no processor can serve, and pools without history *)

Section PoolProps.
Context {World : Type}.
Variable timeNow : World -> Time * World.

Lemma eligible_loop_unsupported (ps : list (Processor World)) (method : string)
    (acc : list (eligibleProcessor World)) (m : Monitor) (w : World) :
  Forall (fun p => SupportsMethod p method = false) ps ->
  eligible_loop timeNow ps method acc m w = (acc, m, w).
Proof.
  induction 1 as [|p ps Hp _ IH]; simpl; [done|]. by rewrite Hp.
Qed.

(** X13.  A request whose payment method no processor of the pool supports
    is declined on the spot: no attempt is made, there is no final
    response, the declined result is stored under the transaction
    identifier, and neither the clock nor the health monitor is touched. *)
Theorem unsupported_method_touches_nothing (o : Orchestrator World) (ctx : Ctx)
    (req : PaymentRequest.t) (w : World) :
  Forall (fun p => SupportsMethod p (PaymentRequest.PaymentMethod req) = false)
         (processors o) ->
  ProcessPayment timeNow o ctx req w
  = let result :=
      PaymentResult.mk (PaymentRequest.TransactionID req) StatusDeclined [] None in
    Some (result, store_Save o result, w).
Proof.
  intros Hno. unfold ProcessPayment, getEligibleProcessors.
  rewrite (eligible_loop_unsupported _ _ _ _ _ Hno).
  rewrite Slice_nil, with_monitor_id. done.
Qed.

Lemma GetHealth_no_history (name : string) (m : Monitor) (w : World) :
  window_of m name = [] ->
  GetHealth timeNow name m w
  = (ProcessorHealth.mk name 1%float StatusHealthy 0 0 0 (timeNow w).1, m, (timeNow w).2).
Proof.
  intros Hw. rewrite GetHealth_unfold. unfold active_window. rewrite Hw. done.
Qed.

Lemma eligible_loop_no_history (ps : list (Processor World)) (method : string)
    (acc : list (eligibleProcessor World)) (m : Monitor) (w : World) :
  Forall (fun p => window_of m (Name p) = []) ps ->
  (eligible_loop timeNow ps method acc m w).1.1
  = acc ++ ((fun p => mkEligible World p 1%float StatusHealthy)
              <$> List.filter (fun p => SupportsMethod p method) ps).
Proof.
  intros Hall. revert acc w.
  induction Hall as [|p ps Hp _ IH]; intros acc w; simpl.
  - by rewrite app_nil_r.
  - destruct (SupportsMethod p method); simpl; [|apply IH].
    rewrite (GetHealth_no_history _ _ _ Hp). simpl.
    rewrite IH, <- app_assoc. done.
Qed.

End PoolProps.

(** The reference pool serves card, pix, oxxo and pse only. *)
Lemma unsupported_method_touches_nothing_witness :
  let o := New Mock.reference_pool NewMonitor in
  let req := PaymentRequest.mk "tx-1" 100%float "USD" "wire" "cust-1" in
  Forall (fun p => SupportsMethod p (PaymentRequest.PaymentMethod req) = false)
         (processors o)
  /\ ProcessPayment test_timeNow o Background req world0
     = Some (PaymentResult.mk "tx-1" StatusDeclined [] None,
             store_Save o (PaymentResult.mk "tx-1" StatusDeclined [] None), world0).
Proof.
  cbv zeta.
  assert (Hno : Forall (fun p => SupportsMethod p "wire" = false)
                       (processors (New Mock.reference_pool NewMonitor))).
  { repeat constructor. }
  split; [exact Hno|].
  exact (unsupported_method_touches_nothing test_timeNow (New Mock.reference_pool NewMonitor)
           Background (PaymentRequest.mk "tx-1" 100%float "USD" "wire" "cust-1") world0 Hno).
Defined.

Section NothingToSort.
Context {A : Type}.
Variable less : A -> A -> bool.

Lemma insert_last_no_less (pre : list A) (y : A) :
  Forall (fun x => less y x = false) pre -> insert_last less pre y = pre ++ [y].
Proof.
  unfold insert_last. destruct pre as [|x pre _] using rev_ind; [done|].
  intros Hall. rewrite Forall_app, Forall_singleton in Hall. destruct Hall as [_ Hx].
  rewrite rev_unit. simpl. rewrite Hx. simpl. by rewrite rev_involutive.
Qed.

Lemma fold_insert_last_no_less (l acc : list A) :
  (forall a b, a ∈ acc ++ l -> b ∈ acc ++ l -> less a b = false) ->
  fold_left (insert_last less) l acc = acc ++ l.
Proof.
  revert acc. induction l as [|y l IH]; intros acc Hno; simpl.
  - by rewrite app_nil_r.
  - rewrite insert_last_no_less.
    + rewrite IH; [by rewrite <- app_assoc|].
      intros a b Ha Hb. rewrite <- app_assoc in Ha, Hb. by apply Hno.
    + apply Forall_forall. intros x Hx. apply Hno; set_solver.
Qed.

(** Entries none of which is [less] than another keep their order. *)
Lemma isort_no_less (l : list A) :
  (forall a b, a ∈ l -> b ∈ l -> less a b = false) -> isort less l = l.
Proof. intros Hno. unfold isort. by rewrite fold_insert_last_no_less. Qed.

End NothingToSort.

Section FreshPool.
Context {World : Type}.
Variable timeNow : World -> Time * World.

(** Entries that all have score 1.0 are left in place by the sort. *)
Lemma Slice_fresh_entries (ps : list (Processor World)) :
  (length ps <= 12)%nat ->
  Sort.Slice healthier ((fun p => mkEligible World p 1%float StatusHealthy) <$> ps)
  = (fun p => mkEligible World p 1%float StatusHealthy) <$> ps.
Proof.
  intros Hlen. rewrite Slice_small by (by rewrite length_fmap).
  apply isort_no_less. intros a b Ha Hb.
  apply list_elem_of_fmap_1 in Ha as (pa & -> & _).
  apply list_elem_of_fmap_1 in Hb as (pb & -> & _).
  reflexivity.
Qed.

(** X14.  While no processor of the pool has a recorded outcome, every
    processor that supports the payment method is eligible with score 1.0
    and status healthy, and with at most 12 of them the eligible list is
    exactly these processors in configuration order. *)
Theorem no_history_keeps_configuration_order (o : Orchestrator World) (method : string)
    (w : World) :
  let supporting := List.filter (fun p => SupportsMethod p method) (processors o) in
  Forall (fun p => window_of (monitor o) (Name p) = []) (processors o) ->
  (length supporting <= 12)%nat ->
  (getEligibleProcessors timeNow o method w).1.1
  = (fun p => mkEligible World p 1%float StatusHealthy) <$> supporting.
Proof.
  cbv zeta. intros Hfresh Hlen. unfold getEligibleProcessors.
  pose proof (eligible_loop_no_history timeNow (processors o) method [] (monitor o) w Hfresh)
    as Hloop.
  destruct (eligible_loop timeNow (processors o) method [] (monitor o) w)
    as [[filtered m] w'].
  simpl in *. subst filtered.
  by apply Slice_fresh_entries.
Qed.

(** The first pass of the retry loop. *)
Lemma retry_loop_first (ctx : Ctx) (req : PaymentRequest.t)
    (ep : eligibleProcessor World) (rest : list (eligibleProcessor World))
    (result : PaymentResult.t) (o : Orchestrator World) (w : World) :
  PaymentResult.Attempts result = [] ->
  PaymentResult.FinalResponse result = None ->
  0 < maxRetries o ->
  returns (retry_loop timeNow ctx req (ep :: rest) 0 result o w)
    (fun '(res, o', w') =>
       exists a more,
         PaymentResult.Attempts res = a :: more
         /\ Attempt.ProcessorName a = Name (proc ep)
         /\ Attempt.AttemptNumber a = 1
         /\ Some (Attempt.RoutingReason a) = buildRoutingReason ep 1 result
         /\ Attempt.Response a = (Process (proc ep) ctx req w).1).
Proof.
  intros Hnil Hfin Hmax.
  assert (Hn : 0 = len (PaymentResult.Attempts result)) by (by rewrite Hnil).
  rewrite retry_loop_cons. cbv zeta.
  replace (maxRetries o <=? 0) with false by (symmetry; apply Z.leb_gt; lia).
  change (0 + 1) with 1.
  destruct (buildRoutingReason_is_Some ep 0 result Hn) as [reason Hreason].
  change (0 + 1) with 1 in Hreason. rewrite Hreason, Hnil.
  set (resp := (Process (proc ep) ctx req w).1).
  set (w1 := (Process (proc ep) ctx req w).2).
  set (attempt := Attempt.mk _ _ _ _ _).
  set (rec_ := RecordOutcome _ _ _ _ _).
  destruct (String.eqb _ Approved); [|destruct (IsHardDecline _)].
  - simpl. by exists attempt, [].
  - simpl. by exists attempt, [].
  - eapply returns_impl.
    { apply (retry_loop_frame timeNow ctx req rest 1); simpl; done. }
    intros [[res o'] w']. simpl.
    intros (_ & _ & _ & _ & _ & new & -> & _).
    by exists attempt, new.
Qed.

(** X24.  While no processor of the pool has a recorded outcome, a request
    whose method between 1 and 12 processors support is first sent to the
    first of them in configuration order, as attempt 1 and with the
    routing reason of a healthy primary at score 1.00. *)
Theorem first_attempt_without_history (o : Orchestrator World) (ctx : Ctx)
    (req : PaymentRequest.t) (w : World) (p : Processor World)
    (others : list (Processor World)) :
  Forall (fun p => window_of (monitor o) (Name p) = []) (processors o) ->
  List.filter (fun p => SupportsMethod p (PaymentRequest.PaymentMethod req)) (processors o)
  = p :: others ->
  (length others < 12)%nat ->
  0 < maxRetries o ->
  returns (ProcessPayment timeNow o ctx req w)
    (fun '(res, o', w') =>
       exists a more,
         PaymentResult.Attempts res = a :: more
         /\ Attempt.ProcessorName a = Name p
         /\ Attempt.AttemptNumber a = 1
         /\ Attempt.RoutingReason a = "primary: highest health score 1.00").
Proof.
  intros Hfresh Hsup Hlen Hmax.
  destruct (ProcessPayment_unfold timeNow o ctx req w) as (eligible & w' & Heq & ->).
  assert (Hel : eligible
                = (fun p => mkEligible World p 1%float StatusHealthy) <$> (p :: others)).
  { unfold getEligibleProcessors in Heq.
    pose proof (eligible_loop_no_history timeNow (processors o)
                  (PaymentRequest.PaymentMethod req) [] (monitor o) w Hfresh) as Hloop.
    destruct (eligible_loop timeNow (processors o) (PaymentRequest.PaymentMethod req)
                [] (monitor o) w) as [[filtered m] w1].
    simpl in Hloop. subst filtered. injection Heq as <- _ _.
    rewrite Hsup. apply Slice_fresh_entries. simpl. lia. }
  subst eligible. rewrite fmap_cons.
  change (len _ =? 0) with false. cbv iota.
  eapply returns_impl.
  { by apply retry_loop_first. }
  intros [[res o'] w'']. simpl.
  intros (a & more & Hat & Hname & Hnum & Hreason & _).
  exists a, more. repeat split; try done.
  injection Hreason as ->. vm_compute. reflexivity.
Qed.

End FreshPool.

(** The server's pool at start-up, a pix payment. *)
Lemma no_history_keeps_configuration_order_witness :
  let o := New Mock.reference_pool NewMonitor in
  Forall (fun p => window_of (monitor o) (Name p) = []) (processors o)
  /\ (length (List.filter (fun p => SupportsMethod p "pix") (processors o)) <= 12)%nat
  /\ (fun ep => Name (proc ep)) <$> (getEligibleProcessors test_timeNow o "pix" world0).1.1
     = ["PayFlow"; "PixPay"; "GlobalPay"].
Proof.
  cbv zeta.
  assert (Hfresh : Forall (fun p => window_of (monitor (New Mock.reference_pool NewMonitor))
                                              (Name p) = [])
                          (processors (New Mock.reference_pool NewMonitor))).
  { repeat constructor. }
  assert (Hlen : (length (List.filter (fun p => SupportsMethod p "pix")
                            (processors (New Mock.reference_pool NewMonitor))) <= 12)%nat).
  { vm_compute. lia. }
  split; [exact Hfresh|]. split; [exact Hlen|].
  rewrite (no_history_keeps_configuration_order test_timeNow
             (New Mock.reference_pool NewMonitor) "pix" world0 Hfresh Hlen).
  reflexivity.
Defined.

(** The server's pool at start-up: a pix payment goes to PayFlow first. *)
Lemma first_attempt_without_history_witness :
  let o := New Mock.reference_pool NewMonitor in
  let req := PaymentRequest.mk "tx-1" 100%float "BRL" "pix" "cust-1" in
  let p := Mock.as_Processor Mock.NewPayFlow in
  let others := [Mock.as_Processor Mock.NewPixPay; Mock.as_Processor Mock.NewGlobalPay] in
  Forall (fun p => window_of (monitor o) (Name p) = []) (processors o)
  /\ List.filter (fun p => SupportsMethod p (PaymentRequest.PaymentMethod req))
                 (processors o) = p :: others
  /\ (length others < 12)%nat
  /\ 0 < maxRetries o
  /\ returns (ProcessPayment test_timeNow o Background req world0)
       (fun '(res, o', w') =>
          exists a more,
            PaymentResult.Attempts res = a :: more
            /\ Attempt.ProcessorName a = "PayFlow"
            /\ Attempt.AttemptNumber a = 1
            /\ Attempt.RoutingReason a = "primary: highest health score 1.00").
Proof.
  cbv zeta.
  assert (Hfresh : Forall (fun p => window_of (monitor (New Mock.reference_pool NewMonitor))
                                              (Name p) = [])
                          (processors (New Mock.reference_pool NewMonitor))).
  { repeat constructor. }
  assert (Hsup : List.filter
                   (fun p => SupportsMethod p "pix")
                   (processors (New Mock.reference_pool NewMonitor))
                 = Mock.as_Processor Mock.NewPayFlow
                   :: [Mock.as_Processor Mock.NewPixPay; Mock.as_Processor Mock.NewGlobalPay]).
  { reflexivity. }
  assert (Hlen : (length [Mock.as_Processor Mock.NewPixPay;
                          Mock.as_Processor Mock.NewGlobalPay] < 12)%nat).
  { simpl. lia. }
  assert (Hmax : 0 < maxRetries (New Mock.reference_pool NewMonitor)).
  { reflexivity. }
  split; [exact Hfresh|]. split; [exact Hsup|]. split; [exact Hlen|]. split; [exact Hmax|].
  exact (first_attempt_without_history test_timeNow (New Mock.reference_pool NewMonitor)
           Background (PaymentRequest.mk "tx-1" 100%float "BRL" "pix" "cust-1") world0
           (Mock.as_Processor Mock.NewPayFlow)
           [Mock.as_Processor Mock.NewPixPay; Mock.as_Processor Mock.NewGlobalPay]
           Hfresh Hsup Hlen Hmax).
Defined.

(** ** The circuit breaker in routing *)

Section CircuitProps.
Context {World : Type}.
Variable timeNow : World -> Time * World.

Lemma after_reads_add (j k : nat) (w : World) :
  after_reads timeNow k (after_reads timeNow j w) = after_reads timeNow (j + k) w.
Proof. revert w. induction j as [|j IH]; intros w; simpl; [done | apply IH]. Qed.

Lemma GetHealth_world (name : string) (m : Monitor) (w : World) :
  exists j, (GetHealth timeNow name m w).2 = after_reads timeNow j w.
Proof.
  rewrite GetHealth_unfold. cbv zeta.
  destruct (len (window_of m name) =? 0).
  - exists 1%nat. by destruct (len _ =? 0).
  - exists 2%nat. by destruct (len _ =? 0).
Qed.

(** Each entry of the eligible list carries the snapshot [GetHealth] gave
    for its processor at some point of the loop, and that snapshot was not
    circuit-open. *)
Lemma eligible_loop_snapshots (ps : list (Processor World)) (method : string)
    (acc : list (eligibleProcessor World)) (m : Monitor) (w : World) :
  exists new,
    (eligible_loop timeNow ps method acc m w).1.1 = acc ++ new
    /\ Forall (fun ep =>
                 exists k,
                   let h := (GetHealth timeNow (Name (proc ep)) m
                                       (after_reads timeNow k w)).1.1 in
                   healthScore ep = ProcessorHealth.HealthScore h
                   /\ status ep = ProcessorHealth.Status h
                   /\ ProcessorHealth.Status h <> StatusOpen) new.
Proof.
  revert acc w. induction ps as [|p ps IH]; intros acc w; simpl.
  - exists []. by rewrite app_nil_r.
  - destruct (negb (SupportsMethod p method)); [apply IH|].
    pose proof (GetHealth_monitor timeNow (Name p) m w) as Hm.
    destruct (GetHealth_world (Name p) m w) as [j Hj].
    destruct (GetHealth timeNow (Name p) m w) as [[h m1] w1] eqn:Hg.
    simpl in Hm, Hj. subst m1 w1.
    assert (Hlater : forall new : list (eligibleProcessor World),
               Forall (fun ep =>
                         exists k,
                           let h := (GetHealth timeNow (Name (proc ep)) m
                                       (after_reads timeNow k (after_reads timeNow j w))).1.1 in
                           healthScore ep = ProcessorHealth.HealthScore h
                           /\ status ep = ProcessorHealth.Status h
                           /\ ProcessorHealth.Status h <> StatusOpen) new ->
               Forall (fun ep =>
                         exists k,
                           let h := (GetHealth timeNow (Name (proc ep)) m
                                       (after_reads timeNow k w)).1.1 in
                           healthScore ep = ProcessorHealth.HealthScore h
                           /\ status ep = ProcessorHealth.Status h
                           /\ ProcessorHealth.Status h <> StatusOpen) new).
    { intros new H. eapply Forall_impl; [exact H|].
      intros ep [k Hk]. exists (j + k)%nat. by rewrite <- after_reads_add. }
    destruct (Status_eqb (ProcessorHealth.Status h) StatusOpen) eqn:Hs.
    { destruct (IH acc (after_reads timeNow j w)) as (new & Heq & Hall). eauto. }
    set (ep := mkEligible World p _ _).
    destruct (IH (acc ++ [ep]) (after_reads timeNow j w)) as (new & Heq & Hall).
    exists (ep :: new). rewrite Heq, <- app_assoc. split; [done|].
    constructor; [|by apply Hlater].
    exists 0%nat. simpl. rewrite Hg. simpl. repeat split.
    intros Ho. apply Status_eqb_eq in Ho. congruence.
Qed.

(** X25.  A processor whose circuit is open is not attempted: for every
    attempt of a request, a health reading of the attempted processor, on
    the monitor as the request found it and after some number of clock
    readings from the start of the request, gave a status other than
    circuit_open, that is, a score not below 0.2. *)
Theorem open_circuit_is_skipped (o : Orchestrator World) (ctx : Ctx)
    (req : PaymentRequest.t) (w : World) :
  returns (ProcessPayment timeNow o ctx req w)
    (fun '(res, o', w') =>
       Forall (fun a =>
                 exists k,
                   let h := (GetHealth timeNow (Attempt.ProcessorName a) (monitor o)
                                       (after_reads timeNow k w)).1.1 in
                   ProcessorHealth.Status h <> StatusOpen
                   /\ PrimFloat.ltb (ProcessorHealth.HealthScore h)
                                    Config.CircuitBreakerThreshold = false)
              (PaymentResult.Attempts res)).
Proof.
  destruct (ProcessPayment_unfold timeNow o ctx req w) as (eligible & w' & Heq & ->).
  destruct (len eligible =? 0).
  { simpl. constructor. }
  assert (Hsnap : Forall (fun ep =>
                 exists k,
                   let h := (GetHealth timeNow (Name (proc ep)) (monitor o)
                                       (after_reads timeNow k w)).1.1 in
                   healthScore ep = ProcessorHealth.HealthScore h
                   /\ status ep = ProcessorHealth.Status h
                   /\ ProcessorHealth.Status h <> StatusOpen) eligible).
  { unfold getEligibleProcessors in Heq.
    destruct (eligible_loop_snapshots (processors o) (PaymentRequest.PaymentMethod req)
                [] (monitor o) w) as (new & Hnew & Hall).
    destruct (eligible_loop timeNow (processors o) (PaymentRequest.PaymentMethod req)
                [] (monitor o) w) as [[filtered m] w1].
    simpl in Hnew. subst filtered. injection Heq as <- _ _.
    by rewrite Slice_perm. }
  assert (Hopen : Forall (fun ep => status ep <> StatusOpen) eligible).
  { eapply Forall_impl; [exact Hsnap|]. intros ep (k & _ & -> & Hk). done. }
  eapply returns_impl.
  { by apply (retry_loop_trail timeNow ctx req eligible 0). }
  intros [[res o'] w'']. simpl. intros (new & -> & Hj).
  apply Forall_lookup. intros i a Hi.
  destruct (Hj i a Hi) as (ep & He & Hname & _).
  rewrite Forall_lookup in Hsnap. destruct (Hsnap i ep He) as (k & _ & _ & Hk).
  exists k. rewrite Hname. split; [done|].
  pose proof (GetHealth_status timeNow (Name (proc ep)) (monitor o)
                (after_reads timeNow k w)) as Hst.
  cbv zeta in Hst, Hk. rewrite Hst in Hk. unfold status_of_score in Hk.
  by destruct (PrimFloat.ltb _ Config.CircuitBreakerThreshold).
Qed.

End CircuitProps.

(** ** Response codes and the mock processors *)

(** X17.  No response code is both retriable and a hard decline, and
    [approved] is neither; each of the seven codes of the model is
    [approved], retriable or a hard decline. *)
Theorem response_code_classes (rc : ResponseCode) :
  (IsRetriable rc && IsHardDecline rc = false)
  /\ (rc = Approved -> IsRetriable rc = false /\ IsHardDecline rc = false)
  /\ (rc ∈ [Approved; SoftDecline; DeclinedInsufficientFunds; DeclinedFraud;
            ProcessorError; Timeout; RateLimited] ->
      rc = Approved \/ IsRetriable rc = true \/ IsHardDecline rc = true).
Proof.
  split; [|split].
  - unfold IsRetriable, IsHardDecline.
    destruct (String.eqb_spec rc DeclinedInsufficientFunds) as [-> | _]; [done|].
    destruct (String.eqb_spec rc DeclinedFraud) as [-> | _]; [done|].
    simpl. apply andb_false_r.
  - by intros ->.
  - intros Hin. repeat (apply elem_of_cons in Hin as [-> | Hin]; [auto|]).
    by apply elem_of_nil in Hin.
Qed.

(** X18.  What a mock processor answers: the response carries the
    processor's configured name; its code is [approved], [soft_decline],
    [declined_insufficient_funds], [processor_error] or [timeout], never
    [declined_fraud] or [rate_limited]; [timeout] is only answered to a
    context that has a cancellation instant; a degraded processor answers
    nothing but [processor_error], [approved] and [timeout]. *)
Theorem mock_response_codes (p : Mock.MockProcessor) (ctx : Ctx)
    (req : PaymentRequest.t) (w : TestWorld) :
  let resp := (Mock.Process p ctx req w).1 in
  ProcessorResponse.ProcessorName resp = Mock.ProcessorName (Mock.config p)
  /\ ProcessorResponse.Code resp
     ∈ [Approved; SoftDecline; DeclinedInsufficientFunds; ProcessorError; Timeout]
  /\ (ProcessorResponse.Code resp = Timeout -> cancelledAt ctx <> None)
  /\ (Mock.degraded p = true ->
      ProcessorResponse.Code resp ∈ [ProcessorError; Approved; Timeout])
  /\ (ProcessorResponse.Code resp <> Timeout ->
      ProcessorResponse.Message resp
      = Mock.responseMessage (ProcessorResponse.Code resp)).
Proof.
  cbv zeta. unfold Mock.Process.
  destruct (test_timeNow w) as [start w1].
  destruct (Mock.simulateLatency p w1) as [latency w2].
  destruct (cancelledAt ctx) as [c|] eqn:Hc.
  - destruct (c <? clock w2 + latency).
    + simpl. repeat split; try done; set_solver.
    + set (w3 := set_clock _ _).
      unfold Mock.determineOutcome.
      destruct (rng_Float64 w3) as [roll w4].
      destruct (Mock.degraded p);
        repeat (match goal with
                | |- context [if PrimFloat.ltb ?a ?b then _ else _] =>
                    destruct (PrimFloat.ltb a b)
                end);
        simpl; repeat split; try done; set_solver.
  - set (w3 := set_clock _ _).
    unfold Mock.determineOutcome.
    destruct (rng_Float64 w3) as [roll w4].
    destruct (Mock.degraded p);
      repeat (match goal with
              | |- context [if PrimFloat.ltb ?a ?b then _ else _] =>
                  destruct (PrimFloat.ltb a b)
              end);
      simpl; repeat split; try done; set_solver.
Qed.

(** X19.  The latency a mock processor simulates is never below its
    [MinLatency]; it is below [MaxLatency] when that is the larger of the
    two, and otherwise it is [MinLatency] and no random number is drawn. *)
Theorem simulateLatency_range (p : Mock.MockProcessor) (w : TestWorld) :
  let min := Mock.MinLatency (Mock.config p) in
  let max := Mock.MaxLatency (Mock.config p) in
  let latency := (Mock.simulateLatency p w).1 in
  min <= latency
  /\ (min < max -> latency < max)
  /\ (max <= min -> Mock.simulateLatency p w = (min, w)).
Proof.
  cbv zeta. unfold Mock.simulateLatency.
  destruct (Mock.MaxLatency (Mock.config p) <=? Mock.MinLatency (Mock.config p)) eqn:Hle.
  - apply Z.leb_le in Hle. simpl. split; [lia|]. split; [lia|done].
  - apply Z.leb_gt in Hle. unfold rng_Int63n.
    destruct (int63_draws w) as [|r rs]; simpl.
    + split; [lia|]. split; [lia|]. intros; lia.
    + pose proof (Z.mod_pos_bound r
                    (Mock.MaxLatency (Mock.config p) - Mock.MinLatency (Mock.config p))).
      split; [lia|]. split; [lia|]. intros; lia.
Qed.

(** ** The HTTP handlers *)

Lemma validMethods_spec (method : string) :
  default false (Handler.validMethods !! method) = true
  <-> method ∈ ["card"; "pix"; "oxxo"; "pse"].
Proof.
  unfold Handler.validMethods.
  destruct (decide (method = "card")) as [-> | H1]; [split; [set_solver | done]|].
  destruct (decide (method = "pix")) as [-> | H2]; [split; [set_solver | done]|].
  destruct (decide (method = "oxxo")) as [-> | H3]; [split; [set_solver | done]|].
  destruct (decide (method = "pse")) as [-> | H4]; [split; [set_solver | done]|].
  rewrite !lookup_insert_ne, lookup_empty by done. simpl.
  split; [done|]. intros Hin.
  repeat (apply elem_of_cons in Hin as [-> | Hin]; [done|]).
  by apply elem_of_nil in Hin.
Qed.

(** What a request that passes validation looks like. *)
Lemma validatePaymentRequest_ok (req : PaymentRequest.t) :
  Handler.validatePaymentRequest req = ""
  <-> PaymentRequest.TransactionID req <> ""
      /\ PrimFloat.leb (PaymentRequest.Amount req) 0%float = false
      /\ PaymentRequest.Currency req <> ""
      /\ PaymentRequest.PaymentMethod req ∈ ["card"; "pix"; "oxxo"; "pse"]
      /\ PaymentRequest.CustomerID req <> "".
Proof.
  unfold Handler.validatePaymentRequest.
  rewrite <- validMethods_spec.
  destruct (String.eqb_spec (PaymentRequest.TransactionID req) "") as [-> | ?];
    [split; [done | by intros (? & _)]|].
  destruct (PrimFloat.leb (PaymentRequest.Amount req) 0%float);
    [split; [done | by intros (_ & ? & _)]|].
  destruct (String.eqb_spec (PaymentRequest.Currency req) "") as [-> | ?];
    [split; [done | by intros (_ & _ & ? & _)]|].
  destruct (default false (Handler.validMethods !! PaymentRequest.PaymentMethod req));
    simpl; [|split; [done | by intros (_ & _ & _ & ? & _)]].
  destruct (String.eqb_spec (PaymentRequest.CustomerID req) "") as [-> | ?];
    [split; [done | by intros (_ & _ & _ & _ & ?)]|].
  done.
Qed.

Lemma count_results_from (results : list PaymentResult.t) (a d e t : Z) :
  Forall (fun r => terminal (PaymentResult.Status r)) results ->
  let '(a', d', e', t') :=
    fold_left
      (fun '(approved, declined, exhausted, totalAttempts) r =>
         let '(approved, declined, exhausted) :=
           match PaymentResult.Status r with
           | StatusApproved => (approved + 1, declined, exhausted)
           | StatusDeclined => (approved, declined + 1, exhausted)
           | StatusExhaustedRetries => (approved, declined, exhausted + 1)
           | StatusUnset => (approved, declined, exhausted)
           end in
         (approved, declined, exhausted, totalAttempts + len (PaymentResult.Attempts r)))
      results (a, d, e, t) in
  a' + d' + e' = a + d + e + len results
  /\ a <= a' /\ d <= d' /\ e <= e'.
Proof.
  intros Hall. revert a d e t.
  induction Hall as [|r results Hr _ IH]; intros a d e t; simpl.
  - unfold len. simpl. lia.
  - assert (Hl : len (r :: results) = len results + 1) by (unfold len; simpl; lia).
    rewrite Hl.
    destruct Hr as [-> | [-> | ->]].
    + specialize (IH (a + 1) d e (t + len (PaymentResult.Attempts r))).
      destruct (fold_left _ _ _) as [[[a' d'] e'] t']. lia.
    + specialize (IH a (d + 1) e (t + len (PaymentResult.Attempts r))).
      destruct (fold_left _ _ _) as [[[a' d'] e'] t']. lia.
    + specialize (IH a d (e + 1) (t + len (PaymentResult.Attempts r))).
      destruct (fold_left _ _ _) as [[[a' d'] e'] t']. lia.
Qed.

(** X20.  The summary of a batch whose results all have a final status:
    [total] is the number of results, and the approved, declined and
    exhausted counts are non-negative and add up to it. *)
Theorem summarizeBatch_counts (results : list PaymentResult.t) :
  Forall (fun r => terminal (PaymentResult.Status r)) results ->
  let s := Handler.summarizeBatch results in
  Handler.total s = len results
  /\ Handler.approved_count s + Handler.declined_count s + Handler.exhausted_retries s
     = Handler.total s
  /\ 0 <= Handler.approved_count s
  /\ 0 <= Handler.declined_count s
  /\ 0 <= Handler.exhausted_retries s.
Proof.
  intros Hall. cbv zeta. unfold Handler.summarizeBatch, Handler.count_results.
  pose proof (count_results_from results 0 0 0 0 Hall) as H.
  destruct (fold_left _ _ _) as [[[a d] e] t]. simpl. lia.
Qed.

Section HandlerProps.
Context {World : Type}.
Variable timeNow : World -> Time * World.
Variable randomHex : Z -> World -> string * World.
Variable randInt : Z -> World -> Z * World.

(** What [ProcessPayment] hands to its callers. *)
Lemma ProcessPayment_saved (o : Orchestrator World) (ctx : Ctx)
    (req : PaymentRequest.t) (w : World) :
  returns (ProcessPayment timeNow o ctx req w)
    (fun '(res, o', w') =>
       PaymentResult.TransactionID res = PaymentRequest.TransactionID req
       /\ terminal (PaymentResult.Status res)
       /\ store o' = Save res (store o)
       /\ processors o' = processors o
       /\ maxRetries o' = maxRetries o).
Proof.
  destruct (ProcessPayment_unfold timeNow o ctx req w) as (eligible & w' & _ & ->).
  destruct (len eligible =? 0).
  { simpl. repeat split; try done. unfold terminal. auto. }
  pose proof (retry_loop_frame timeNow ctx req eligible 0
                (PaymentResult.mk (PaymentRequest.TransactionID req) StatusUnset [] None)
                o w' eq_refl eq_refl) as Hframe.
  pose proof (retry_loop_shape timeNow ctx req eligible 0
                (PaymentResult.mk (PaymentRequest.TransactionID req) StatusUnset [] None)
                o w' eq_refl eq_refl eq_refl) as Hshape.
  destruct (retry_loop _ _ _ _ _ _ _ _) as [[[res o'] w'']|]; simpl in *; [|done].
  destruct Hframe as (_ & Hp & Hm & _).
  destruct Hshape as (Hid & Ht & _ & _ & _ & Hst).
  done.
Qed.

(** X21.  POST /payments.  A body that does not decode or a request that
    fails validation is answered 400 and reaches neither the orchestrator
    nor the clock.  Any other request is answered with its result, which is
    stored under the transaction identifier: 200 when the result is
    approved, 422 when it is declined or exhausted. *)
Theorem post_payment_status_codes (decoded : Handler.DecodeResult PaymentRequest.t)
    (ctx : Ctx) (o : Orchestrator World) (w : World) :
  returns (Handler.ProcessPayment timeNow decoded ctx o w)
    (fun '(resp, o', w') =>
       match decoded with
       | Handler.DecodeFailed err =>
           resp = Handler.mkResponse 400 (Handler.ErrorBody ("invalid request body: " +:+ err))
           /\ o' = o /\ w' = w
       | Handler.Decoded req =>
           if String.eqb (Handler.validatePaymentRequest req) "" then
             exists res,
               Handler.payload resp = Handler.ResultBody res
               /\ PaymentResult.TransactionID res = PaymentRequest.TransactionID req
               /\ (Handler.statusCode resp = 200
                   <-> PaymentResult.Status res = StatusApproved)
               /\ (Handler.statusCode resp = 422
                   <-> PaymentResult.Status res = StatusDeclined
                       \/ PaymentResult.Status res = StatusExhaustedRetries)
               /\ GetPaymentHistory (PaymentRequest.TransactionID req) o' = (res, true)
           else
             resp = Handler.mkResponse 400
                      (Handler.ErrorBody (Handler.validatePaymentRequest req))
             /\ o' = o /\ w' = w
       end).
Proof.
  destruct decoded as [req | err]; simpl; [|done].
  destruct (String.eqb (Handler.validatePaymentRequest req) ""); simpl; [|done].
  pose proof (ProcessPayment_saved o ctx req w) as Hsaved.
  destruct (ProcessPayment timeNow o ctx req w) as [[[res o'] w']|]; simpl in *; [|done].
  destruct Hsaved as (Hid & Ht & Hst & _).
  exists res. split; [done|]. split; [done|].
  unfold GetPaymentHistory. rewrite Hst, <- Hid, Get_Save.
  destruct Ht as [-> | [-> | ->]]; simpl;
    unfold Handler.StatusOK, Handler.StatusUnprocessableEntity;
    (repeat split; try done; try tauto; try (intros [? | ?]; done); auto).
Qed.

(** X22.  POST then GET.  For a request that passes validation:
    GET /payments/{id} with its transaction identifier answers 404 as long
    as nothing is stored under it; after the request has been posted it
    answers 200 with the very result the POST returned, and the answer for
    every other identifier is what it was before the POST. *)
Theorem get_after_post (req : PaymentRequest.t) (ctx : Ctx)
    (o : Orchestrator World) (w : World) :
  Handler.validatePaymentRequest req = "" ->
  let id := PaymentRequest.TransactionID req in
  (results (store o) !! id = None ->
   Handler.GetPaymentHistory id o
   = Handler.mkResponse 404 (Handler.ErrorBody ("transaction not found: " +:+ id)))
  /\ returns (Handler.ProcessPayment timeNow (Handler.Decoded req) ctx o w)
       (fun '(resp, o', w') =>
          Handler.GetPaymentHistory id o' = Handler.mkResponse 200 (Handler.payload resp)
          /\ forall txnID,
               txnID <> id ->
               Handler.GetPaymentHistory txnID o' = Handler.GetPaymentHistory txnID o).
Proof.
  intros Hvalid. cbv zeta. simpl. rewrite Hvalid. simpl.
  apply validatePaymentRequest_ok in Hvalid as (Hid & _).
  apply String.eqb_neq in Hid. split.
  { intros Hnone. unfold Handler.GetPaymentHistory, GetPaymentHistory, Get.
    by rewrite Hid, Hnone. }
  pose proof (ProcessPayment_saved o ctx req w) as Hsaved.
  destruct (ProcessPayment timeNow o ctx req w) as [[[res o'] w']|]; simpl in *; [|done].
  destruct Hsaved as (Hres & _ & Hst & _).
  unfold Handler.GetPaymentHistory, GetPaymentHistory. rewrite Hst. split.
  - rewrite Hid, <- Hres, Get_Save. done.
  - intros txnID Hne. rewrite Save_other by (by rewrite Hres). done.
Qed.

Lemma batch_loop_spec (ctx : Ctx) (req : Handler.batchRequest) (k : nat) :
  forall (i : Z) (acc : list PaymentResult.t) (o : Orchestrator World) (w : World),
    returns (Handler.batch_loop timeNow randomHex randInt k i ctx req acc o w)
      (fun '(acc', o', w') =>
         exists new,
           acc' = acc ++ new
           /\ length new = k
           /\ Forall (fun r => terminal (PaymentResult.Status r)) new
           /\ Forall (fun r => results (store o') !! PaymentResult.TransactionID r <> None) new
           /\ processors o' = processors o
           /\ maxRetries o' = maxRetries o
           /\ dom (results (store o)) ⊆ dom (results (store o'))).
Proof.
  induction k as [|k IH]; intros i acc o w.
  - simpl. exists []. rewrite app_nil_r. repeat split; try done; constructor.
  - cbn [Handler.batch_loop].
    destruct (Handler.generateTxnID randomHex i w) as [txn w1].
    destruct (Handler.randomAmount randInt w1) as [amount w2].
    set (payReq := PaymentRequest.mk _ _ _ _ _).
    pose proof (ProcessPayment_saved o ctx payReq w2) as Hsaved.
    destruct (ProcessPayment timeNow o ctx payReq w2) as [[[res o1] w3]|];
      simpl in Hsaved; [|done].
    destruct Hsaved as (Hid & Ht & Hst & Hp & Hm).
    eapply returns_impl; [apply IH|].
    intros [[results' o'] w']. simpl.
    intros (new & -> & Hlen & Hall & Hstored & Hp' & Hm' & Hdom).
    assert (Hdom1 : dom (results (store o)) ⊆ dom (results (store o1))).
    { rewrite Hst. unfold Save. simpl. set_solver. }
    exists (res :: new). rewrite <- app_assoc. simpl.
    split; [done|]. split; [by rewrite Hlen|]. split; [by constructor|].
    split; [|split; [congruence|split; [congruence|set_solver]]].
    constructor; [|done].
    assert (Hin : PaymentResult.TransactionID res ∈ dom (results (store o1))).
    { rewrite Hst. unfold Save. simpl. set_solver. }
    apply Hdom in Hin. apply elem_of_dom in Hin as [r Hr]. by rewrite Hr.
Qed.

(** X23.  POST /simulate/batch.  A body that does not decode or a count
    outside 1..1000 is answered 400 and nothing is processed.  Otherwise
    the answer is 200 with a summary whose [total] is the requested count
    and whose approved, declined and exhausted counts add up to it; the
    pool and the retry cap are as they were and no stored result is
    lost. *)
Theorem simulate_batch_summary (decoded : Handler.DecodeResult Handler.batchRequest)
    (ctx : Ctx) (o : Orchestrator World) (w : World) :
  returns (Handler.SimulateBatch timeNow randomHex randInt decoded ctx o w)
    (fun '(resp, o', w') =>
       match decoded with
       | Handler.DecodeFailed err =>
           Handler.statusCode resp = 400 /\ o' = o /\ w' = w
       | Handler.Decoded req =>
           if (Handler.Count req <=? 0) || (1000 <? Handler.Count req) then
             resp = Handler.mkResponse 400
                      (Handler.ErrorBody "count must be between 1 and 1000")
             /\ o' = o /\ w' = w
           else
             exists s,
               resp = Handler.mkResponse 200 (Handler.SummaryBody s)
               /\ Handler.total s = Handler.Count req
               /\ Handler.approved_count s + Handler.declined_count s
                  + Handler.exhausted_retries s = Handler.Count req
               /\ 0 <= Handler.approved_count s
               /\ 0 <= Handler.declined_count s
               /\ 0 <= Handler.exhausted_retries s
               /\ processors o' = processors o
               /\ maxRetries o' = maxRetries o
               /\ dom (results (store o)) ⊆ dom (results (store o'))
       end).
Proof.
  destruct decoded as [req | err]; simpl; [|done].
  destruct ((Handler.Count req <=? 0) || (1000 <? Handler.Count req)) eqn:Hcount;
    simpl; [done|].
  apply orb_false_iff in Hcount as [Hlo Hhi].
  apply Z.leb_gt in Hlo. apply Z.ltb_ge in Hhi.
  set (req1 := if String.eqb (Handler.Method req) "" then _ else req).
  set (req2 := if String.eqb (Handler.Currency req1) "" then _ else req1).
  assert (Hc : Handler.Count req2 = Handler.Count req).
  { subst req2 req1.
    destruct (String.eqb (Handler.Method req) ""); simpl;
      by destruct (String.eqb _ ""). }
  rewrite Hc.
  pose proof (batch_loop_spec ctx req2 (Z.to_nat (Handler.Count req)) 0 [] o w) as Hloop.
  destruct (Handler.batch_loop _ _ _ _ _ _ _ _ _ _) as [[[results' o'] w']|];
    simpl in *; [|done].
  destruct Hloop as (new & -> & Hlen & Hall & _ & Hp & Hm & Hdom).
  exists (Handler.summarizeBatch new). split; [done|].
  assert (Hn : len new = Handler.Count req) by (unfold len; lia).
  unfold Handler.summarizeBatch, Handler.count_results.
  pose proof (count_results_from new 0 0 0 0 Hall) as Hcounts.
  destruct (fold_left _ _ _) as [[[a d] e] t]. simpl.
  repeat split; try done; lia.
Qed.

End HandlerProps.

(** One approved and one exhausted result. *)
Lemma summarizeBatch_counts_witness :
  let batch := [PaymentResult.mk "tx-1" StatusApproved [] None;
                PaymentResult.mk "tx-2" StatusExhaustedRetries [] None] in
  let s := Handler.summarizeBatch batch in
  Forall (fun r => terminal (PaymentResult.Status r)) batch
  /\ Handler.total s = len batch
  /\ Handler.approved_count s + Handler.declined_count s + Handler.exhausted_retries s
     = Handler.total s
  /\ 0 <= Handler.approved_count s
  /\ 0 <= Handler.declined_count s
  /\ 0 <= Handler.exhausted_retries s.
Proof.
  cbv zeta.
  assert (Hall : Forall (fun r => terminal (PaymentResult.Status r))
                        [PaymentResult.mk "tx-1" StatusApproved [] None;
                         PaymentResult.mk "tx-2" StatusExhaustedRetries [] None]).
  { constructor; [by left|]. constructor; [by right; right|]. constructor. }
  split; [exact Hall|].
  exact (summarizeBatch_counts
           [PaymentResult.mk "tx-1" StatusApproved [] None;
            PaymentResult.mk "tx-2" StatusExhaustedRetries [] None] Hall).
Defined.

(** A card payment posted to the server's pool at start-up. *)
Lemma get_after_post_witness :
  let o := New Mock.reference_pool NewMonitor in
  Handler.validatePaymentRequest (cardRequest "tx-1") = ""
  /\ (results (store o) !! "tx-1" = None ->
      Handler.GetPaymentHistory "tx-1" o
      = Handler.mkResponse 404 (Handler.ErrorBody "transaction not found: tx-1"))
  /\ returns (Handler.ProcessPayment test_timeNow (Handler.Decoded (cardRequest "tx-1"))
                Background o world0)
       (fun '(resp, o', w') =>
          Handler.GetPaymentHistory "tx-1" o' = Handler.mkResponse 200 (Handler.payload resp)
          /\ forall txnID,
               txnID <> "tx-1" ->
               Handler.GetPaymentHistory txnID o' = Handler.GetPaymentHistory txnID o).
Proof.
  cbv zeta.
  assert (Hvalid : Handler.validatePaymentRequest (cardRequest "tx-1") = "").
  { vm_compute. reflexivity. }
  split; [exact Hvalid|].
  exact (get_after_post test_timeNow (cardRequest "tx-1") Background
           (New Mock.reference_pool NewMonitor) world0 Hvalid).
Defined.
